(** * SfPlayer: a shallow embedding of [android_SfPlayer.cpp]

    The streaming audio player of libopensles keeps one aggregate of mutable
    state and runs every handler on a single looper thread.  The embedding
    below follows the C++ text function by function: a handler is a
    computation over the player record that may post messages, call the
    audio sink, release a media buffer, or stop the process (a failed
    [CHECK], a division by zero, a null dereference). *)

From Stdlib Require Import ZArith List Bool String Lia.
From Stdlib Require Import Floats.SpecFloat.
Import ListNotations.
Local Open Scope Z_scope.

(** ** Machine integers *)

Module Int.

Definition wrap_unsigned (w x : Z) : Z := x mod 2 ^ w.

Definition wrap_signed (w x : Z) : Z :=
  (x + 2 ^ (w - 1)) mod 2 ^ w - 2 ^ (w - 1).

Definition to_uint32 : Z -> Z := wrap_unsigned 32.
Definition to_int32 : Z -> Z := wrap_signed 32.
Definition to_int64 : Z -> Z := wrap_signed 64.

Definition in_int16 (x : Z) : bool := (-32768 <=? x) && (x <=? 32767).

(** [if (flags & mask)] of the C++ text. *)
Definition test (flags mask : Z) : bool := negb (Z.land flags mask =? 0).

(** [flags |= mask] and [flags &= ~mask]. *)
Definition set_bits (flags mask : Z) : Z := Z.lor flags mask.
Definition clear_bits (flags mask : Z) : Z := Z.land flags (Z.lnot mask).

End Int.

(** ** IEEE 754 binary64, for the one [double] expression of the file

    [getCacheRemaining] computes the fill level in [double].  The operations
    are the executable binary64 specification of the Standard Library. *)

Module Double.

Definition prec : Z := 53.
Definition emax : Z := 1024.

(** Conversion of an integer, rounding to nearest even. *)
Definition of_int (z : Z) : spec_float := binary_normalize prec emax z 0 false.

Definition mul : spec_float -> spec_float -> spec_float := SFmul prec emax.
Definition div : spec_float -> spec_float -> spec_float := SFdiv prec emax.

(** Truncation toward zero; no integer for infinities and NaN. *)
Definition trunc (x : spec_float) : option Z :=
  match x with
  | S754_zero _ => Some 0
  | S754_finite s m e =>
      let a := if 0 <=? e then Z.pos m * 2 ^ e else Z.pos m / 2 ^ (- e) in
      Some (if s then - a else a)
  | S754_infinity _ | S754_nan => None
  end.

(** [(int16_t) x]: defined only when the truncated value fits. *)
Definition to_int16 (x : spec_float) : option Z :=
  match trunc x with
  | Some z => if Int.in_int16 z then Some z else None
  | None => None
  end.

End Double.

(** ** Constants of the header

    The enumerators and thresholds below are declared in
    [android_SfPlayer.h]; [android_SfPlayer.cpp] only uses them. *)

(** Modelled from the spec: the flag enumerators of [android_SfPlayer.h].
    The spec describes [flags] as a bit-set over Playing, Buffering,
    Preparing and Seeking, so each enumerator is a bit of its own. *)
Definition kFlagPlaying : Z := 1.
Definition kFlagPreparing : Z := 2.
Definition kFlagBuffering : Z := 4.
Definition kFlagSeeking : Z := 8.

(** Modelled from the spec: the enumeration [CacheStatus] of
    [android_SfPlayer.h], in the order the spec lists it (Empty, Low,
    Intermediate, Enough, High); [onCheckCache] compares with [>=]. *)
Inductive CacheStatus : Type :=
| kStatusEmpty
| kStatusLow
| kStatusIntermediate
| kStatusEnough
| kStatusHigh.

Definition CacheStatus_to_Z (s : CacheStatus) : Z :=
  match s with
  | kStatusEmpty => 0
  | kStatusLow => 1
  | kStatusIntermediate => 2
  | kStatusEnough => 3
  | kStatusHigh => 4
  end.

Definition CacheStatus_eqb (a b : CacheStatus) : bool :=
  CacheStatus_to_Z a =? CacheStatus_to_Z b.

(** The thresholds and the sentinel of the header, taken as parameters. *)
Record Config : Type := mkConfig {
  DURATION_CACHED_HIGH_US : Z;
  DURATION_CACHED_MED_US : Z;
  DURATION_CACHED_LOW_US : Z;
  SIZE_CACHED_HIGH_BYTES : Z;
  SIZE_CACHED_MED_BYTES : Z;
  SIZE_CACHED_LOW_BYTES : Z;
  SFPLAYER_FD_FIND_FILE_SIZE : Z
}.

(** ** Collaborators and observable effects *)

(** The part of a [MediaBuffer] the player looks at. *)
Record MediaBuffer : Type := mkMediaBuffer {
  data : Z;
  range_offset : Z;
  range_length : Z;
  meta_kKeyTime : option Z
}.

(** The part of a [DataSource] the player looks at:
    [flags() & kWantsPrefetching] and [getSize]. *)
Record DataSource : Type := mkDataSource {
  wantsPrefetching : bool;
  getSize : option Z
}.

Inductive DataLocatorType : Type :=
| kDataLocatorNone
| kDataLocatorUri
| kDataLocatorFd.

Record FdInfo : Type := mkFdInfo {
  fdi_fd : Z;
  fdi_offset : Z;
  fdi_length : Z
}.

(** The locator union.  The two members are kept side by side: the code
    reads a member only under the matching [mDataLocatorType], which it sets
    after writing that member, so the overlap of the union is never
    observed.  [loc_uri = None] is the null pointer. *)
Record DataLocator : Type := mkDataLocator {
  loc_uri : option string;
  loc_fdi : FdInfo
}.

Inductive NotifKey : Type :=
| EVENT_PREFETCHSTATUSCHANGE
| EVENT_PREFETCHFILLLEVELUPDATE
| EVENT_ENDOFSTREAM.

(** Messages of the looper, with the one entry each carries. *)
Inductive Msg : Type :=
| kWhatPrepare
| kWhatDecode
| kWhatRender
| kWhatCheckCache
| kWhatNotif (key : NotifKey) (value : Z)
| kWhatPlay
| kWhatPause
| kWhatSeek (seek : option Z).

Inductive Effect : Type :=
| TrackStart
| TrackStop
| TrackPause
| TrackWrite (buffer : Z) (size : Z)
| Post (msg : Msg) (delayUs : Z)
| SourceRead (seekTo : option Z)
| Release (b : MediaBuffer)
| Free (s : string)
| LogE
| NotifyClient (key : NotifKey) (value : Z) (user : Z).

Inductive Fault : Type :=
| CheckFailed
| DivideByZero
| NullDereference
| UndefinedConversion.

Inductive Outcome (A : Type) : Type :=
| Done (a : A)
| Crash (f : Fault).

Arguments Done {A} a.
Arguments Crash {A} f.

(** ** The player state

    The members of [SfPlayer], with the widths the code gives them: the
    flag word is unsigned, times and the bitrate are [int64_t], the fill
    levels are [int16_t].  Pointers are kept as far as the code tests them:
    [mAudioTrack], [mNotifyClient] and [mAudioSource] by whether they are
    set, [mDecodeBuffer] and [mDataSource] with what the code reads through
    them. *)

Record SfPlayer : Type := mkSfPlayer {
  mAudioTrack : bool;
  mFlags : Z;
  mBitrate : Z;
  mNumChannels : Z;
  mSampleRateHz : Z;
  mTimeDelta : Z;
  mDurationUsec : Z;
  mCacheStatus : CacheStatus;
  mSeekTimeMsec : Z;
  mLastDecodedPositionUs : Z;
  mCacheFill : Z;
  mLastNotifiedCacheFill : Z;
  mCacheFillNotifThreshold : Z;
  mDataLocatorType : DataLocatorType;
  mDataLocator : DataLocator;
  mNotifyClient : bool;
  mNotifyUser : Z;
  mDecodeBuffer : option MediaBuffer;
  mDataSource : option DataSource;
  mAudioSource : bool
}.

Definition set_mAudioTrack (v : bool) (p : SfPlayer) : SfPlayer :=
  mkSfPlayer
    v (mFlags p) (mBitrate p)
    (mNumChannels p) (mSampleRateHz p) (mTimeDelta p)
    (mDurationUsec p) (mCacheStatus p) (mSeekTimeMsec p)
    (mLastDecodedPositionUs p) (mCacheFill p) (mLastNotifiedCacheFill p)
    (mCacheFillNotifThreshold p) (mDataLocatorType p) (mDataLocator p)
    (mNotifyClient p) (mNotifyUser p) (mDecodeBuffer p)
    (mDataSource p) (mAudioSource p).

Definition set_mFlags (v : Z) (p : SfPlayer) : SfPlayer :=
  mkSfPlayer
    (mAudioTrack p) v (mBitrate p)
    (mNumChannels p) (mSampleRateHz p) (mTimeDelta p)
    (mDurationUsec p) (mCacheStatus p) (mSeekTimeMsec p)
    (mLastDecodedPositionUs p) (mCacheFill p) (mLastNotifiedCacheFill p)
    (mCacheFillNotifThreshold p) (mDataLocatorType p) (mDataLocator p)
    (mNotifyClient p) (mNotifyUser p) (mDecodeBuffer p)
    (mDataSource p) (mAudioSource p).

Definition set_mBitrate (v : Z) (p : SfPlayer) : SfPlayer :=
  mkSfPlayer
    (mAudioTrack p) (mFlags p) v
    (mNumChannels p) (mSampleRateHz p) (mTimeDelta p)
    (mDurationUsec p) (mCacheStatus p) (mSeekTimeMsec p)
    (mLastDecodedPositionUs p) (mCacheFill p) (mLastNotifiedCacheFill p)
    (mCacheFillNotifThreshold p) (mDataLocatorType p) (mDataLocator p)
    (mNotifyClient p) (mNotifyUser p) (mDecodeBuffer p)
    (mDataSource p) (mAudioSource p).

Definition set_mNumChannels (v : Z) (p : SfPlayer) : SfPlayer :=
  mkSfPlayer
    (mAudioTrack p) (mFlags p) (mBitrate p)
    v (mSampleRateHz p) (mTimeDelta p)
    (mDurationUsec p) (mCacheStatus p) (mSeekTimeMsec p)
    (mLastDecodedPositionUs p) (mCacheFill p) (mLastNotifiedCacheFill p)
    (mCacheFillNotifThreshold p) (mDataLocatorType p) (mDataLocator p)
    (mNotifyClient p) (mNotifyUser p) (mDecodeBuffer p)
    (mDataSource p) (mAudioSource p).

Definition set_mSampleRateHz (v : Z) (p : SfPlayer) : SfPlayer :=
  mkSfPlayer
    (mAudioTrack p) (mFlags p) (mBitrate p)
    (mNumChannels p) v (mTimeDelta p)
    (mDurationUsec p) (mCacheStatus p) (mSeekTimeMsec p)
    (mLastDecodedPositionUs p) (mCacheFill p) (mLastNotifiedCacheFill p)
    (mCacheFillNotifThreshold p) (mDataLocatorType p) (mDataLocator p)
    (mNotifyClient p) (mNotifyUser p) (mDecodeBuffer p)
    (mDataSource p) (mAudioSource p).

Definition set_mTimeDelta (v : Z) (p : SfPlayer) : SfPlayer :=
  mkSfPlayer
    (mAudioTrack p) (mFlags p) (mBitrate p)
    (mNumChannels p) (mSampleRateHz p) v
    (mDurationUsec p) (mCacheStatus p) (mSeekTimeMsec p)
    (mLastDecodedPositionUs p) (mCacheFill p) (mLastNotifiedCacheFill p)
    (mCacheFillNotifThreshold p) (mDataLocatorType p) (mDataLocator p)
    (mNotifyClient p) (mNotifyUser p) (mDecodeBuffer p)
    (mDataSource p) (mAudioSource p).

Definition set_mDurationUsec (v : Z) (p : SfPlayer) : SfPlayer :=
  mkSfPlayer
    (mAudioTrack p) (mFlags p) (mBitrate p)
    (mNumChannels p) (mSampleRateHz p) (mTimeDelta p)
    v (mCacheStatus p) (mSeekTimeMsec p)
    (mLastDecodedPositionUs p) (mCacheFill p) (mLastNotifiedCacheFill p)
    (mCacheFillNotifThreshold p) (mDataLocatorType p) (mDataLocator p)
    (mNotifyClient p) (mNotifyUser p) (mDecodeBuffer p)
    (mDataSource p) (mAudioSource p).

Definition set_mCacheStatus (v : CacheStatus) (p : SfPlayer) : SfPlayer :=
  mkSfPlayer
    (mAudioTrack p) (mFlags p) (mBitrate p)
    (mNumChannels p) (mSampleRateHz p) (mTimeDelta p)
    (mDurationUsec p) v (mSeekTimeMsec p)
    (mLastDecodedPositionUs p) (mCacheFill p) (mLastNotifiedCacheFill p)
    (mCacheFillNotifThreshold p) (mDataLocatorType p) (mDataLocator p)
    (mNotifyClient p) (mNotifyUser p) (mDecodeBuffer p)
    (mDataSource p) (mAudioSource p).

Definition set_mSeekTimeMsec (v : Z) (p : SfPlayer) : SfPlayer :=
  mkSfPlayer
    (mAudioTrack p) (mFlags p) (mBitrate p)
    (mNumChannels p) (mSampleRateHz p) (mTimeDelta p)
    (mDurationUsec p) (mCacheStatus p) v
    (mLastDecodedPositionUs p) (mCacheFill p) (mLastNotifiedCacheFill p)
    (mCacheFillNotifThreshold p) (mDataLocatorType p) (mDataLocator p)
    (mNotifyClient p) (mNotifyUser p) (mDecodeBuffer p)
    (mDataSource p) (mAudioSource p).

Definition set_mLastDecodedPositionUs (v : Z) (p : SfPlayer) : SfPlayer :=
  mkSfPlayer
    (mAudioTrack p) (mFlags p) (mBitrate p)
    (mNumChannels p) (mSampleRateHz p) (mTimeDelta p)
    (mDurationUsec p) (mCacheStatus p) (mSeekTimeMsec p)
    v (mCacheFill p) (mLastNotifiedCacheFill p)
    (mCacheFillNotifThreshold p) (mDataLocatorType p) (mDataLocator p)
    (mNotifyClient p) (mNotifyUser p) (mDecodeBuffer p)
    (mDataSource p) (mAudioSource p).

Definition set_mCacheFill (v : Z) (p : SfPlayer) : SfPlayer :=
  mkSfPlayer
    (mAudioTrack p) (mFlags p) (mBitrate p)
    (mNumChannels p) (mSampleRateHz p) (mTimeDelta p)
    (mDurationUsec p) (mCacheStatus p) (mSeekTimeMsec p)
    (mLastDecodedPositionUs p) v (mLastNotifiedCacheFill p)
    (mCacheFillNotifThreshold p) (mDataLocatorType p) (mDataLocator p)
    (mNotifyClient p) (mNotifyUser p) (mDecodeBuffer p)
    (mDataSource p) (mAudioSource p).

Definition set_mLastNotifiedCacheFill (v : Z) (p : SfPlayer) : SfPlayer :=
  mkSfPlayer
    (mAudioTrack p) (mFlags p) (mBitrate p)
    (mNumChannels p) (mSampleRateHz p) (mTimeDelta p)
    (mDurationUsec p) (mCacheStatus p) (mSeekTimeMsec p)
    (mLastDecodedPositionUs p) (mCacheFill p) v
    (mCacheFillNotifThreshold p) (mDataLocatorType p) (mDataLocator p)
    (mNotifyClient p) (mNotifyUser p) (mDecodeBuffer p)
    (mDataSource p) (mAudioSource p).

Definition set_mDataLocatorType (v : DataLocatorType) (p : SfPlayer) : SfPlayer :=
  mkSfPlayer
    (mAudioTrack p) (mFlags p) (mBitrate p)
    (mNumChannels p) (mSampleRateHz p) (mTimeDelta p)
    (mDurationUsec p) (mCacheStatus p) (mSeekTimeMsec p)
    (mLastDecodedPositionUs p) (mCacheFill p) (mLastNotifiedCacheFill p)
    (mCacheFillNotifThreshold p) v (mDataLocator p)
    (mNotifyClient p) (mNotifyUser p) (mDecodeBuffer p)
    (mDataSource p) (mAudioSource p).

Definition set_mDataLocator (v : DataLocator) (p : SfPlayer) : SfPlayer :=
  mkSfPlayer
    (mAudioTrack p) (mFlags p) (mBitrate p)
    (mNumChannels p) (mSampleRateHz p) (mTimeDelta p)
    (mDurationUsec p) (mCacheStatus p) (mSeekTimeMsec p)
    (mLastDecodedPositionUs p) (mCacheFill p) (mLastNotifiedCacheFill p)
    (mCacheFillNotifThreshold p) (mDataLocatorType p) v
    (mNotifyClient p) (mNotifyUser p) (mDecodeBuffer p)
    (mDataSource p) (mAudioSource p).

Definition set_mNotifyClient (v : bool) (p : SfPlayer) : SfPlayer :=
  mkSfPlayer
    (mAudioTrack p) (mFlags p) (mBitrate p)
    (mNumChannels p) (mSampleRateHz p) (mTimeDelta p)
    (mDurationUsec p) (mCacheStatus p) (mSeekTimeMsec p)
    (mLastDecodedPositionUs p) (mCacheFill p) (mLastNotifiedCacheFill p)
    (mCacheFillNotifThreshold p) (mDataLocatorType p) (mDataLocator p)
    v (mNotifyUser p) (mDecodeBuffer p)
    (mDataSource p) (mAudioSource p).

Definition set_mNotifyUser (v : Z) (p : SfPlayer) : SfPlayer :=
  mkSfPlayer
    (mAudioTrack p) (mFlags p) (mBitrate p)
    (mNumChannels p) (mSampleRateHz p) (mTimeDelta p)
    (mDurationUsec p) (mCacheStatus p) (mSeekTimeMsec p)
    (mLastDecodedPositionUs p) (mCacheFill p) (mLastNotifiedCacheFill p)
    (mCacheFillNotifThreshold p) (mDataLocatorType p) (mDataLocator p)
    (mNotifyClient p) v (mDecodeBuffer p)
    (mDataSource p) (mAudioSource p).

Definition set_mDecodeBuffer (v : option MediaBuffer) (p : SfPlayer) : SfPlayer :=
  mkSfPlayer
    (mAudioTrack p) (mFlags p) (mBitrate p)
    (mNumChannels p) (mSampleRateHz p) (mTimeDelta p)
    (mDurationUsec p) (mCacheStatus p) (mSeekTimeMsec p)
    (mLastDecodedPositionUs p) (mCacheFill p) (mLastNotifiedCacheFill p)
    (mCacheFillNotifThreshold p) (mDataLocatorType p) (mDataLocator p)
    (mNotifyClient p) (mNotifyUser p) v
    (mDataSource p) (mAudioSource p).

Definition set_mDataSource (v : option DataSource) (p : SfPlayer) : SfPlayer :=
  mkSfPlayer
    (mAudioTrack p) (mFlags p) (mBitrate p)
    (mNumChannels p) (mSampleRateHz p) (mTimeDelta p)
    (mDurationUsec p) (mCacheStatus p) (mSeekTimeMsec p)
    (mLastDecodedPositionUs p) (mCacheFill p) (mLastNotifiedCacheFill p)
    (mCacheFillNotifThreshold p) (mDataLocatorType p) (mDataLocator p)
    (mNotifyClient p) (mNotifyUser p) (mDecodeBuffer p)
    v (mAudioSource p).

Definition set_mAudioSource (v : bool) (p : SfPlayer) : SfPlayer :=
  mkSfPlayer
    (mAudioTrack p) (mFlags p) (mBitrate p)
    (mNumChannels p) (mSampleRateHz p) (mTimeDelta p)
    (mDurationUsec p) (mCacheStatus p) (mSeekTimeMsec p)
    (mLastDecodedPositionUs p) (mCacheFill p) (mLastNotifiedCacheFill p)
    (mCacheFillNotifThreshold p) (mDataLocatorType p) (mDataLocator p)
    (mNotifyClient p) (mNotifyUser p) (mDecodeBuffer p)
    (mDataSource p) v.

(** The constructor. *)
Definition SfPlayer_new : SfPlayer :=
  {| mAudioTrack := false;
     mFlags := 0;
     mBitrate := -1;
     mNumChannels := 1;
     mSampleRateHz := 0;
     mTimeDelta := -1;
     mDurationUsec := -1;
     mCacheStatus := kStatusEmpty;
     mSeekTimeMsec := 0;
     mLastDecodedPositionUs := -1;
     mCacheFill := 0;
     mLastNotifiedCacheFill := 0;
     mCacheFillNotifThreshold := 100;
     mDataLocatorType := kDataLocatorNone;
     mDataLocator :=
       {| loc_uri := None;
          loc_fdi := {| fdi_fd := 0; fdi_offset := 0; fdi_length := 0 |} |};
     mNotifyClient := false;
     mNotifyUser := 0;
     mDecodeBuffer := None;
     mDataSource := None;
     mAudioSource := false |}.

(** ** Computations over the player

    A handler reads and writes the player, emits effects in order, and may
    stop the process. *)

Definition M (A : Type) : Type := SfPlayer -> Outcome (A * SfPlayer * list Effect).

Definition ret {A : Type} (a : A) : M A := fun p => Done (a, p, []).

Definition bind {A B : Type} (c : M A) (k : A -> M B) : M B :=
  fun p =>
    match c p with
    | Crash f => Crash f
    | Done (a, p1, e1) =>
        match k a p1 with
        | Crash f => Crash f
        | Done (b, p2, e2) => Done (b, p2, e1 ++ e2)
        end
    end.

Declare Scope sf_scope.
Delimit Scope sf_scope with sf.
Notation "x <- c ;; k" := (bind c (fun x => k))
  (at level 61, c at next level, right associativity) : sf_scope.
Notation "c ;; k" := (bind c (fun _ => k))
  (at level 61, right associativity) : sf_scope.
Local Open Scope sf_scope.

Definition gets {A : Type} (f : SfPlayer -> A) : M A := fun p => Done (f p, p, []).
Definition modify (f : SfPlayer -> SfPlayer) : M unit := fun p => Done (tt, f p, []).
Definition emit (e : Effect) : M unit := fun p => Done (tt, p, [e]).
Definition crash {A : Type} (f : Fault) : M A := fun _ => Crash f.
Definition when (b : bool) (c : M unit) : M unit := if b then c else ret tt.

(** [CHECK(b)] *)
Definition CHECK (b : bool) : M unit := if b then ret tt else crash CheckFailed.

(** [(new AMessage(what, id()))->post(delayUs)] *)
Definition post (m : Msg) (delayUs : Z) : M unit := emit (Post m delayUs).

(** A call through [mAudioTrack]. *)
Definition audioTrack (e : Effect) : M unit :=
  t <- gets mAudioTrack ;;
  if t then emit e else crash NullDereference.

(** ** What a handler observes of the outside *)

Inductive ReadResult : Type :=
| ReadOK (b : MediaBuffer)
| ReadEndOfStream
| ReadError (err : Z).

(** A track of the extractor: whether its metadata has a MIME type, whether
    that type starts with [audio/], and whether it is the raw audio type. *)
Record Track : Type := mkTrack {
  hasMime : bool;
  isAudio : bool;
  isRaw : bool
}.

Record PrepareEnv : Type := mkPrepareEnv {
  openUri : option DataSource;
  openFd : DataSource;
  initCheck : Z;
  extractor : option (list Track);
  kKeyDuration : option Z;
  omxConnect : bool;
  omxCodec : bool;
  sourceStart : bool;
  kKeyChannelCount : option Z;
  kKeySampleRate : option Z
}.

Record Env : Type := mkEnv {
  env_approxDataRemaining : Z * bool;
  env_read : ReadResult;
  env_GetNowUs : Z * Z;
  env_prepare : PrepareEnv
}.

Inductive PrepareStatus : Type :=
| SFPLAYER_SUCCESS
| MEDIA_ERROR_BASE
| ERROR_UNSUPPORTED
| Status (err : Z).

(** ** The functions of [android_SfPlayer.cpp] *)

Definition useAudioTrack (pTrack : bool) : M unit :=
  modify (set_mAudioTrack pTrack).

Definition setNotifListener (cbf : bool) (notifUser : Z) : M unit :=
  modify (set_mNotifyClient cbf) ;;
  modify (set_mNotifyUser notifUser).

Definition onNotify (key : NotifKey) (value : Z) : M unit :=
  c <- gets mNotifyClient ;;
  if negb c then ret tt
  else
    u <- gets mNotifyUser ;;
    emit (NotifyClient key value u).

Definition notify (key : NotifKey) (value : Z) (async : bool) : M unit :=
  if async then post (kWhatNotif key value) 0 else onNotify key value.

Definition notifyStatus : M unit :=
  s <- gets mCacheStatus ;;
  notify EVENT_PREFETCHSTATUSCHANGE (Int.to_int32 (CacheStatus_to_Z s)) true.

Definition notifyCacheFill : M unit :=
  f <- gets mCacheFill ;;
  modify (set_mLastNotifiedCacheFill f) ;;
  l <- gets mLastNotifiedCacheFill ;;
  notify EVENT_PREFETCHFILLLEVELUPDATE (Int.to_int32 l) true.

(** post-condition: [mDataLocatorType = kDataLocatorNone] *)
Definition resetDataLocator : M unit :=
  ty <- gets mDataLocatorType ;;
  match ty with
  | kDataLocatorUri =>
      loc <- gets mDataLocator ;;
      match loc_uri loc with
      | Some s =>
          emit (Free s) ;;
          modify (set_mDataLocator {| loc_uri := None; loc_fdi := loc_fdi loc |})
      | None => ret tt
      end
  | _ => ret tt
  end ;;
  modify (set_mDataLocatorType kDataLocatorNone).

(** [setDataSource(const char *uri)]; [malloc_ok] tells whether the
    allocation of the copy succeeds. *)
Definition setDataSource_uri (uri : string) (malloc_ok : bool) : M unit :=
  resetDataLocator ;;
  if negb malloc_ok then emit LogE
  else
    loc <- gets mDataLocator ;;
    modify (set_mDataLocator {| loc_uri := Some uri; loc_fdi := loc_fdi loc |}) ;;
    modify (set_mDataLocatorType kDataLocatorUri).

Definition set_fdi (f : FdInfo -> FdInfo) : M unit :=
  loc <- gets mDataLocator ;;
  modify (set_mDataLocator {| loc_uri := loc_uri loc; loc_fdi := f (loc_fdi loc) |}).

(** [setDataSource(fd, offset, length)]; [fstat] is [Some st_size] when the
    call returns 0. *)
Definition setDataSource_fd (cfg : Config) (fd offset length : Z) (fstat : option Z)
  : M unit :=
  resetDataLocator ;;
  set_fdi (fun i => {| fdi_fd := fd; fdi_offset := fdi_offset i; fdi_length := fdi_length i |}) ;;
  match fstat with
  | None => emit LogE
  | Some st_size =>
      if st_size <=? offset then emit LogE
      else
        set_fdi (fun i => {| fdi_fd := fdi_fd i; fdi_offset := offset; fdi_length := fdi_length i |}) ;;
        let len :=
          if SFPLAYER_FD_FIND_FILE_SIZE cfg =? length then st_size
          else if st_size <? Int.to_int64 (offset + length)
               then Int.to_int64 (st_size - offset)
               else length in
        set_fdi (fun i => {| fdi_fd := fdi_fd i; fdi_offset := fdi_offset i; fdi_length := len |}) ;;
        modify (set_mDataLocatorType kDataLocatorFd)
  end.

Definition wantPrefetch : M bool :=
  ds <- gets mDataSource ;;
  match ds with
  | Some d => ret (wantsPrefetching d)
  | None => crash NullDereference
  end.

(** The track loop of [onPrepare]: the first audio track, and whether it is
    raw audio. *)
Fixpoint findAudioTrack (tracks : list Track) : M (option bool) :=
  match tracks with
  | [] => ret None
  | t :: rest =>
      CHECK (hasMime t) ;;
      if isAudio t then ret (Some (isRaw t)) else findAudioTrack rest
  end.

Definition onPrepare_with (pe : PrepareEnv) (dataSource : option DataSource)
  : M PrepareStatus :=
  match dataSource with
  | None => emit LogE ;; ret ERROR_UNSUPPORTED
  | Some ds =>
      match extractor pe with
      | None => emit LogE ;; ret ERROR_UNSUPPORTED
      | Some tracks =>
          audio <- findAudioTrack tracks ;;
          match audio with
          | None => emit LogE ;; ret ERROR_UNSUPPORTED
          | Some isRawAudio =>
              match getSize ds, kKeyDuration pe with
              | Some size, Some durationUs =>
                  (if durationUs =? 0 then crash DivideByZero else ret tt) ;;
                  modify (set_mBitrate
                            (Z.quot (Int.to_int64 (size * 8000000)) durationUs)) ;;
                  modify (set_mDurationUsec durationUs)
              | _, _ =>
                  modify (set_mBitrate (-1)) ;;
                  modify (set_mDurationUsec (-1))
              end ;;
              decoded <-
                (if negb isRawAudio then
                   CHECK (omxConnect pe) ;;
                   ret (omxCodec pe)
                 else ret true) ;;
              if negb decoded then emit LogE ;; ret ERROR_UNSUPPORTED
              else if negb (sourceStart pe) then emit LogE ;; ret MEDIA_ERROR_BASE
              else
                modify (set_mDataSource (Some ds)) ;;
                modify (set_mAudioSource true) ;;
                match kKeyChannelCount pe with
                | Some n => modify (set_mNumChannels n)
                | None => crash CheckFailed
                end ;;
                match kKeySampleRate pe with
                | Some r => modify (set_mSampleRateHz r)
                | None => crash CheckFailed
                end ;;
                w <- wantPrefetch ;;
                when (negb w)
                  (modify (set_mCacheStatus kStatusHigh) ;;
                   modify (set_mCacheFill 1000) ;;
                   notifyStatus ;;
                   notifyCacheFill) ;;
                ret SFPLAYER_SUCCESS
          end
      end
  end.

Definition onPrepare (pe : PrepareEnv) : M PrepareStatus :=
  ty <- gets mDataLocatorType ;;
  match ty with
  | kDataLocatorNone => emit LogE ;; ret MEDIA_ERROR_BASE
  | kDataLocatorUri => onPrepare_with pe (openUri pe)
  | kDataLocatorFd =>
      if initCheck pe =? 0 then onPrepare_with pe (Some (openFd pe))
      else ret (Status (initCheck pe))
  end.

Definition prepare_async : M unit := post kWhatPrepare 0.

Definition prepare_sync (pe : PrepareEnv) : M PrepareStatus := onPrepare pe.

Definition startPrefetch_async : M unit :=
  w <- wantPrefetch ;;
  when w
    (modify (fun p => set_mFlags (Int.set_bits (mFlags p) kFlagPreparing) p) ;;
     modify (fun p => set_mFlags (Int.set_bits (mFlags p) kFlagBuffering) p) ;;
     post kWhatCheckCache 100000).

Definition seek (timeMsec : Z) : M unit := post (kWhatSeek (Some timeMsec)) 0.

Definition play : M unit :=
  t <- gets mAudioTrack ;;
  if negb t then ret tt
  else
    audioTrack TrackStart ;;
    post kWhatPlay 0 ;;
    post kWhatDecode 0.

Definition stop : M unit :=
  t <- gets mAudioTrack ;;
  if negb t then ret tt
  else
    audioTrack TrackStop ;;
    post kWhatPause 0 ;;
    seek 0.

Definition pause : M unit :=
  t <- gets mAudioTrack ;;
  if negb t then ret tt
  else
    post kWhatPause 0 ;;
    audioTrack TrackPause.

Definition getPositionMsec (p : SfPlayer) : Z :=
  if Int.test (mFlags p) kFlagSeeking then Int.to_uint32 (mSeekTimeMsec p)
  else if mLastDecodedPositionUs p <? 0 then 0
  else Int.to_uint32 (Z.quot (mLastDecodedPositionUs p) 1000).

Definition getPositionUsec (p : SfPlayer) : Z :=
  if Int.test (mFlags p) kFlagSeeking then Int.to_int64 (mSeekTimeMsec p * 1000)
  else if mLastDecodedPositionUs p <? 0 then 0
  else mLastDecodedPositionUs p.

(** *** Message handlers *)

Definition onPlay : M unit :=
  modify (fun p => set_mFlags (Int.set_bits (mFlags p) kFlagPlaying) p).

Definition onPause : M unit :=
  modify (fun p => set_mFlags (Int.clear_bits (mFlags p) kFlagPlaying) p).

Definition onSeek (seek : option Z) : M unit :=
  match seek with
  | None => crash CheckFailed
  | Some timeMsec =>
      modify (fun p => set_mFlags (Int.set_bits (mFlags p) kFlagSeeking) p) ;;
      modify (set_mSeekTimeMsec timeMsec) ;;
      modify (set_mTimeDelta (-1)) ;;
      modify (set_mLastDecodedPositionUs (-1))
  end.

(** The four-way classification of [getCacheRemaining], shared by the
    duration branch and the byte branch. *)
Definition classify (high med low x : Z) : CacheStatus :=
  if high <? x then kStatusHigh
  else if med <? x then kStatusEnough
  else if x <? low then kStatusLow
  else kStatusIntermediate.

(** [(int16_t) (1000.0 * (double)(currentPositionUsec + dataRemainingUs)
    / mDurationUsec)]: the sum is formed in [int64_t]. *)
Definition cacheFill (currentPositionUsec dataRemainingUs durationUsec : Z)
  : option Z :=
  Double.to_int16
    (Double.div
       (Double.mul (Double.of_int 1000)
          (Double.of_int (Int.to_int64 (currentPositionUsec + dataRemainingUs))))
       (Double.of_int durationUsec)).

(** [getCacheRemaining(bool *eos)]: the pair returned is the status and the
    value left in [*eos].  [dataRemaining] is a [size_t] of the 32-bit
    targets of the library, so its product with [8000000ll] is formed in
    [long long].

    The division by a zero [mBitrate] and the conversion to [int16_t] of a
    value out of range have no defined result in C++.  The model stops at
    each, in the order of the text; a build may go on past them, and for the
    division does so where the quotient is not used (end-of-stream, or
    duration not known). *)
Definition getCacheRemaining (cfg : Config) (env : Env) : M (CacheStatus * bool) :=
  ds <- gets mDataSource ;;
  match ds with
  | Some _ => ret tt
  | None => crash NullDereference
  end ;;
  oldStatus <- gets mCacheStatus ;;
  let dataRemaining := fst (env_approxDataRemaining env) in
  let eos := snd (env_approxDataRemaining env) in
  bitrate <- gets mBitrate ;;
  CHECK (0 <=? bitrate) ;;
  (if bitrate =? 0 then crash DivideByZero else ret tt) ;;
  let dataRemainingUs := Z.quot (Int.to_int64 (dataRemaining * 8000000)) bitrate in
  (if eos then
     modify (set_mCacheStatus kStatusHigh) ;;
     modify (set_mCacheFill 1000)
   else
     durationUsec <- gets mDurationUsec ;;
     if 0 <? durationUsec then
       currentPositionUsec <- gets (fun p => Int.to_uint32 (getPositionUsec p)) ;;
       match cacheFill currentPositionUsec dataRemainingUs durationUsec with
       | Some f => modify (set_mCacheFill f)
       | None => crash UndefinedConversion
       end ;;
       modify (set_mCacheStatus
                 (classify (DURATION_CACHED_HIGH_US cfg) (DURATION_CACHED_MED_US cfg)
                    (DURATION_CACHED_LOW_US cfg) dataRemainingUs))
     else
       modify (set_mCacheStatus
                 (classify (SIZE_CACHED_HIGH_BYTES cfg) (SIZE_CACHED_MED_BYTES cfg)
                    (SIZE_CACHED_LOW_BYTES cfg) dataRemaining))) ;;
  newStatus <- gets mCacheStatus ;;
  when (negb (CacheStatus_eqb oldStatus newStatus)) notifyStatus ;;
  fill <- gets mCacheFill ;;
  last <- gets mLastNotifiedCacheFill ;;
  threshold <- gets mCacheFillNotifThreshold ;;
  when (threshold <? Z.abs (fill - last)) notifyCacheFill ;;
  status <- gets mCacheStatus ;;
  ret (status, eos).

Definition flagSet (mask : Z) : M bool := gets (fun p => Int.test (mFlags p) mask).

Definition onDecode (cfg : Config) (env : Env) : M unit :=
  w <- wantPrefetch ;;
  rebuffer <-
    (if w then
       r <- getCacheRemaining cfg env ;;
       ret (CacheStatus_eqb (fst r) kStatusLow && negb (snd r))
     else ret false) ;;
  if rebuffer then
    playing <- flagSet kFlagPlaying ;;
    when playing (audioTrack TrackPause) ;;
    modify (fun p => set_mFlags (Int.set_bits (mFlags p) kFlagBuffering) p) ;;
    post kWhatCheckCache 100000
  else
    active <- flagSet (Z.lor (Z.lor kFlagPlaying kFlagBuffering) kFlagPreparing) ;;
    if negb active then ret tt
    else
      seeking <- flagSet kFlagSeeking ;;
      seekTimeMsec <- gets mSeekTimeMsec ;;
      let readOptions :=
        if seeking then Some (Int.to_int64 (seekTimeMsec * 1000)) else None in
      old <- gets mDecodeBuffer ;;
      match old with
      | Some b => emit (Release b) ;; modify (set_mDecodeBuffer None)
      | None => ret tt
      end ;;
      source <- gets mAudioSource ;;
      (if source then ret tt else crash NullDereference) ;;
      emit (SourceRead readOptions) ;;
      match env_read env with
      | ReadOK b =>
          modify (set_mDecodeBuffer (Some b)) ;;
          match meta_kKeyTime b with
          | Some t => modify (set_mLastDecodedPositionUs t)
          | None => crash CheckFailed
          end ;;
          modify (fun p =>
                    if Int.test (mFlags p) kFlagSeeking
                    then set_mFlags (Int.clear_bits (mFlags p) kFlagSeeking) p
                    else p) ;;
          timeDelta <- gets mTimeDelta ;;
          when (timeDelta <? 0)
            (modify (fun p =>
                       set_mTimeDelta
                         (Int.to_int64 (fst (env_GetNowUs env) - mLastDecodedPositionUs p)) p)) ;;
          delayUs <- gets (fun p =>
                             Int.to_int64
                               (Int.to_int64 (mLastDecodedPositionUs p + mTimeDelta p)
                                - snd (env_GetNowUs env))) ;;
          post kWhatRender delayUs
      | ReadEndOfStream =>
          playing <- flagSet kFlagPlaying ;;
          when playing (notify EVENT_ENDOFSTREAM 1 true)
      | ReadError _ => emit LogE
      end.

Definition onRender : M unit :=
  buffer <- gets mDecodeBuffer ;;
  match buffer with
  | None => ret tt
  | Some b =>
      playing <- flagSet kFlagPlaying ;;
      when playing
        (audioTrack (TrackWrite (data b + range_offset b) (range_length b)) ;;
         post kWhatDecode 0) ;;
      emit (Release b) ;;
      modify (set_mDecodeBuffer None)
  end.

Definition onCheckCache (cfg : Config) (env : Env) : M unit :=
  r <- getCacheRemaining cfg env ;;
  preparing <- flagSet kFlagPreparing ;;
  if snd r || CacheStatus_eqb (fst r) kStatusHigh
     || (preparing && (CacheStatus_to_Z kStatusEnough <=? CacheStatus_to_Z (fst r)))
  then
    playing <- flagSet kFlagPlaying ;;
    when playing (audioTrack TrackStart) ;;
    modify (fun p => set_mFlags (Int.clear_bits (mFlags p) kFlagBuffering) p) ;;
    modify (fun p =>
              if Int.test (mFlags p) kFlagPreparing
              then set_mFlags (Int.clear_bits (mFlags p) kFlagPreparing) p
              else p) ;;
    modify (set_mTimeDelta (-1)) ;;
    playing' <- flagSet kFlagPlaying ;;
    when playing' (post kWhatDecode 0)
  else post kWhatCheckCache 100000.

Definition onMessageReceived (cfg : Config) (env : Env) (msg : Msg) : M unit :=
  match msg with
  | kWhatPrepare => onPrepare (env_prepare env) ;; ret tt
  | kWhatDecode => onDecode cfg env
  | kWhatRender => onRender
  | kWhatCheckCache => onCheckCache cfg env
  | kWhatNotif key value => onNotify key value
  | kWhatPlay => onPlay
  | kWhatPause => onPause
  | kWhatSeek s => onSeek s
  end.

(** The looper delivers messages one after the other; each delivery comes
    with what its handler observes of the outside. *)
Fixpoint deliver (cfg : Config) (ms : list (Msg * Env)) : M unit :=
  match ms with
  | [] => ret tt
  | (msg, env) :: rest => onMessageReceived cfg env msg ;; deliver cfg rest
  end.

(** A run of cache estimations, one per probe of the source. *)
Fixpoint cacheChecks (cfg : Config) (envs : list Env) : M unit :=
  match envs with
  | [] => ret tt
  | env :: rest => getCacheRemaining cfg env ;; cacheChecks cfg rest
  end.

(** The state after each estimation of a run, in order. *)
Fixpoint cacheTrace (cfg : Config) (envs : list Env) (p : SfPlayer)
  : Outcome (list SfPlayer) :=
  match envs with
  | [] => Done []
  | env :: rest =>
      match getCacheRemaining cfg env p with
      | Crash f => Crash f
      | Done (_, p1, _) =>
          match cacheTrace cfg rest p1 with
          | Crash f => Crash f
          | Done ps => Done (p1 :: ps)
          end
      end
  end.

(** ** Vocabulary of the statements *)

Definition isNotif (e : Effect) : Prop :=
  match e with
  | Post (kWhatNotif _ _) 0 => True
  | _ => False
  end.

Definition statusNotif (s : CacheStatus) : Effect :=
  Post (kWhatNotif EVENT_PREFETCHSTATUSCHANGE (Int.to_int32 (CacheStatus_to_Z s))) 0.

Definition fillNotif (fill : Z) : Effect :=
  Post (kWhatNotif EVENT_PREFETCHFILLLEVELUPDATE (Int.to_int32 fill)) 0.

Definition isStatusNotif (e : Effect) : bool :=
  match e with
  | Post (kWhatNotif EVENT_PREFETCHSTATUSCHANGE _) _ => true
  | _ => false
  end.

Definition isFillNotif (e : Effect) : bool :=
  match e with
  | Post (kWhatNotif EVENT_PREFETCHFILLLEVELUPDATE _) _ => true
  | _ => false
  end.

(** None of Playing, Buffering, Preparing: the test of [onDecode]. *)
Definition idle (p : SfPlayer) : Prop :=
  Int.test (mFlags p) (Z.lor (Z.lor kFlagPlaying kFlagBuffering) kFlagPreparing) = false.

Definition seeking (p : SfPlayer) : bool := Int.test (mFlags p) kFlagSeeking.
Definition playing (p : SfPlayer) : bool := Int.test (mFlags p) kFlagPlaying.

(** A delivery that reads a frame: a decode message whose read returns OK. *)
Definition decodesFrame (d : Msg * Env) : Prop :=
  match d with
  | (kWhatDecode, env) =>
      match env_read env with
      | ReadOK _ => True
      | _ => False
      end
  | _ => False
  end.

Definition isSeekMsg (d : Msg * Env) : Prop :=
  match d with
  | (kWhatSeek _, _) => True
  | _ => False
  end.

Definition isPlayMsg (d : Msg * Env) : Prop :=
  match d with
  | (kWhatPlay, _) => True
  | _ => False
  end.

(** The status [getCacheRemaining] settles on, as a function of what it
    reads: the probe of the source, the bitrate and the duration. *)
Definition cacheStatusOf (cfg : Config) (env : Env) (bitrate durationUsec : Z)
  : CacheStatus :=
  let dataRemaining := fst (env_approxDataRemaining env) in
  if snd (env_approxDataRemaining env) then kStatusHigh
  else if 0 <? durationUsec then
    classify (DURATION_CACHED_HIGH_US cfg) (DURATION_CACHED_MED_US cfg)
      (DURATION_CACHED_LOW_US cfg)
      (Z.quot (Int.to_int64 (dataRemaining * 8000000)) bitrate)
  else
    classify (SIZE_CACHED_HIGH_BYTES cfg) (SIZE_CACHED_MED_BYTES cfg)
      (SIZE_CACHED_LOW_BYTES cfg) dataRemaining.

(** The fields the position getters read are the same in both players. *)
Definition sameTransport (p p' : SfPlayer) : Prop :=
  mFlags p' = mFlags p
  /\ mSeekTimeMsec p' = mSeekTimeMsec p
  /\ mLastDecodedPositionUs p' = mLastDecodedPositionUs p.

(** ** Instances *)

(** Modelled from the spec: the duration thresholds are the defaults the
    spec suggests (20 s, 15 s, 3 s).  The spec gives no figure for the byte
    thresholds nor for the sentinel; no instance below reaches the byte
    branch or the descriptor setter, and no statement depends on the values
    given to them here. *)
Definition spec_config : Config :=
  {| DURATION_CACHED_HIGH_US := 20000000;
     DURATION_CACHED_MED_US := 15000000;
     DURATION_CACHED_LOW_US := 3000000;
     SIZE_CACHED_HIGH_BYTES := 1000000;
     SIZE_CACHED_MED_BYTES := 700000;
     SIZE_CACHED_LOW_BYTES := 400000;
     SFPLAYER_FD_FIND_FILE_SIZE := -1 |}.

Definition no_tracks : PrepareEnv :=
  {| openUri := None;
     openFd := {| wantsPrefetching := false; getSize := None |};
     initCheck := 0;
     extractor := None;
     kKeyDuration := None;
     omxConnect := true;
     omxCodec := true;
     sourceStart := true;
     kKeyChannelCount := None;
     kKeySampleRate := None |}.

(** An HTTP stream of 480000 bytes whose track lasts 30 s. *)
Definition http_480k : DataSource :=
  {| wantsPrefetching := true; getSize := Some 480000 |}.

Definition prepare_30s : PrepareEnv :=
  {| openUri := Some http_480k;
     openFd := {| wantsPrefetching := false; getSize := None |};
     initCheck := 0;
     extractor := Some [ {| hasMime := true; isAudio := true; isRaw := false |} ];
     kKeyDuration := Some 30000000;
     omxConnect := true;
     omxCodec := true;
     sourceStart := true;
     kKeyChannelCount := Some 2;
     kKeySampleRate := Some 44100 |}.

(** An HTTP stream that reports no size. *)
Definition http_live : DataSource :=
  {| wantsPrefetching := true; getSize := None |}.

Definition prepare_live : PrepareEnv :=
  {| openUri := Some http_live;
     openFd := {| wantsPrefetching := false; getSize := None |};
     initCheck := 0;
     extractor := Some [ {| hasMime := true; isAudio := true; isRaw := false |} ];
     kKeyDuration := None;
     omxConnect := true;
     omxCodec := true;
     sourceStart := true;
     kKeyChannelCount := Some 2;
     kKeySampleRate := Some 44100 |}.

Definition probe (dataRemaining : Z) (eos : bool) : Env :=
  {| env_approxDataRemaining := (dataRemaining, eos);
     env_read := ReadEndOfStream;
     env_GetNowUs := (0, 0);
     env_prepare := no_tracks |}.

(** The player after [useAudioTrack], [setDataSource] and a successful
    [prepare_sync] on the 30 s stream: bitrate 128000 bits per second. *)
Definition player_30s : SfPlayer :=
  set_mSampleRateHz 44100
    (set_mNumChannels 2
       (set_mAudioSource true
          (set_mDataSource (Some http_480k)
             (set_mDurationUsec 30000000
                (set_mBitrate 128000
                   (set_mDataLocatorType kDataLocatorUri
                      (set_mDataLocator
                         {| loc_uri := Some "http://host/a.mp3"%string;
                            loc_fdi := {| fdi_fd := 0; fdi_offset := 0; fdi_length := 0 |} |}
                         (set_mAudioTrack true SfPlayer_new)))))))).

(** The same on the stream without a size: duration and bitrate are -1. *)
Definition player_live : SfPlayer :=
  set_mSampleRateHz 44100
    (set_mNumChannels 2
       (set_mAudioSource true
          (set_mDataSource (Some http_live)
             (set_mDataLocatorType kDataLocatorUri
                (set_mDataLocator
                   {| loc_uri := Some "http://host/live"%string;
                      loc_fdi := {| fdi_fd := 0; fdi_offset := 0; fdi_length := 0 |} |}
                   (set_mAudioTrack true SfPlayer_new)))))).

(** [player_30s] once a seek to 29 s has been handled. *)
Definition player_30s_seek_29s : SfPlayer :=
  set_mLastDecodedPositionUs (-1)
    (set_mTimeDelta (-1)
       (set_mSeekTimeMsec 29000
          (set_mFlags kFlagSeeking player_30s))).

(** A decoded frame stamped 2.5 s. *)
Definition frame_2500ms : MediaBuffer :=
  {| data := 65536; range_offset := 0; range_length := 4096;
     meta_kKeyTime := Some 2500000 |}.

Definition reads (r : ReadResult) (now1 now2 : Z) : Env :=
  {| env_approxDataRemaining := (2000000, false);
     env_read := r;
     env_GetNowUs := (now1, now2);
     env_prepare := no_tracks |}.

(** [player_30s] while playing, with a frame waiting to be rendered. *)
Definition player_30s_pending : SfPlayer :=
  set_mDecodeBuffer (Some frame_2500ms) (set_mFlags kFlagPlaying player_30s).

(** A local file: the source does not ask for prefetching. *)
Definition file_source : DataSource :=
  {| wantsPrefetching := false; getSize := Some 480000 |}.

Definition player_file : SfPlayer := set_mDataSource (Some file_source) player_30s.

(** ** The rest of the file: teardown, and the read of [onDecode] on its own *)

(** What [~SfPlayer] does besides the effects of the handlers: the calls on
    the looper and the stop of the media source. *)
Inductive TeardownEvent : Type :=
| LooperStop
| LooperUnregisterHandler
| LooperClear
| AudioSourceStop
| PlayerEffect (e : Effect).

(** [~SfPlayer()] *)
Definition SfPlayer_delete (p : SfPlayer) : Outcome (SfPlayer * list TeardownEvent) :=
  let '(p1, ev1) :=
    if mAudioSource p then
      match mDecodeBuffer p with
      | Some b =>
          (set_mDecodeBuffer None p, [PlayerEffect (Release b); AudioSourceStop])
      | None => (p, [AudioSourceStop])
      end
    else (p, []) in
  match resetDataLocator p1 with
  | Done (_, p2, e2) =>
      Done (p2,
            [LooperStop; LooperUnregisterHandler; LooperClear]
              ++ ev1 ++ map PlayerEffect e2)
  | Crash f => Crash f
  end.

(** The statements of [onDecode] from the read options to the end, that is
    what the function does once it has decided to decode. *)
Definition readFrame (env : Env) : M unit :=
  seeking <- flagSet kFlagSeeking ;;
  seekTimeMsec <- gets mSeekTimeMsec ;;
  let readOptions :=
    if seeking then Some (Int.to_int64 (seekTimeMsec * 1000)) else None in
  old <- gets mDecodeBuffer ;;
  match old with
  | Some b => emit (Release b) ;; modify (set_mDecodeBuffer None)
  | None => ret tt
  end ;;
  source <- gets mAudioSource ;;
  (if source then ret tt else crash NullDereference) ;;
  emit (SourceRead readOptions) ;;
  match env_read env with
  | ReadOK b =>
      modify (set_mDecodeBuffer (Some b)) ;;
      match meta_kKeyTime b with
      | Some t => modify (set_mLastDecodedPositionUs t)
      | None => crash CheckFailed
      end ;;
      modify (fun p =>
                if Int.test (mFlags p) kFlagSeeking
                then set_mFlags (Int.clear_bits (mFlags p) kFlagSeeking) p
                else p) ;;
      timeDelta <- gets mTimeDelta ;;
      when (timeDelta <? 0)
        (modify (fun p =>
                   set_mTimeDelta
                     (Int.to_int64 (fst (env_GetNowUs env) - mLastDecodedPositionUs p)) p)) ;;
      delayUs <- gets (fun p =>
                         Int.to_int64
                           (Int.to_int64 (mLastDecodedPositionUs p + mTimeDelta p)
                            - snd (env_GetNowUs env))) ;;
      post kWhatRender delayUs
  | ReadEndOfStream =>
      playing <- flagSet kFlagPlaying ;;
      when playing (notify EVENT_ENDOFSTREAM 1 true)
  | ReadError _ => emit LogE
  end.

(** ** Vocabulary of the further statements *)

Definition buffering (p : SfPlayer) : bool := Int.test (mFlags p) kFlagBuffering.
Definition preparing (p : SfPlayer) : bool := Int.test (mFlags p) kFlagPreparing.

(** The test of [onDecode] before it reads. *)
Definition active (p : SfPlayer) : bool :=
  Int.test (mFlags p) (Z.lor (Z.lor kFlagPlaying kFlagBuffering) kFlagPreparing).

(** The exit test of [onCheckCache]. *)
Definition bufferingDone (p : SfPlayer) (r : CacheStatus * bool) : bool :=
  snd r || CacheStatus_eqb (fst r) kStatusHigh
  || (preparing p && (CacheStatus_to_Z kStatusEnough <=? CacheStatus_to_Z (fst r))).

(** A pending buffer has the media source that produced it behind it. *)
Definition bufferOwned (p : SfPlayer) : Prop :=
  mDecodeBuffer p = None \/ mAudioSource p = true.

(** What the client sets through the API and no handler writes. *)
Definition clientSettings (p : SfPlayer)
  : bool * bool * Z * DataLocatorType * DataLocator * Z :=
  (mAudioTrack p, mNotifyClient p, mNotifyUser p, mDataLocatorType p,
   mDataLocator p, mCacheFillNotifThreshold p).

Definition isRelease (e : Effect) : bool :=
  match e with
  | Release _ => true
  | _ => false
  end.

(** The two notifications the cache estimator posts. *)
Definition isCacheNotif (e : Effect) : bool := isStatusNotif e || isFillNotif e.

Definition isRenderPost (e : Effect) : bool :=
  match e with
  | Post kWhatRender _ => true
  | _ => false
  end.

Definition isSourceRead (e : Effect) : bool :=
  match e with
  | SourceRead _ => true
  | _ => false
  end.

Definition isSinkCall (e : Effect) : bool :=
  match e with
  | TrackStart | TrackStop | TrackPause | TrackWrite _ _ => true
  | _ => false
  end.

(** The release [onDecode] makes of a frame that was never rendered. *)
Definition pendingRelease (p : SfPlayer) : list Effect :=
  match mDecodeBuffer p with
  | Some b => [Release b]
  | None => []
  end.

(** The read options [onDecode] builds: a seek target, in microseconds,
    while Seeking is set. *)
Definition readOptionsOf (p : SfPlayer) : option Z :=
  if seeking p then Some (Int.to_int64 (mSeekTimeMsec p * 1000)) else None.

(** Deliveries that leave the time delta alone in every state. *)
Definition keepsAnchor (d : Msg * Env) : Prop :=
  match fst d with
  | kWhatRender | kWhatNotif _ _ | kWhatPlay | kWhatPause => True
  | _ => False
  end.

(** A clock reading or a timestamp: non-negative and far from the end of
    [int64_t]. *)
Definition clock (x : Z) : Prop := 0 <= x < 2 ^ 62.

(** The free [resetDataLocator] makes of a URI string the locator holds. *)
Definition heldUri (p : SfPlayer) : list Effect :=
  match mDataLocatorType p, loc_uri (mDataLocator p) with
  | kDataLocatorUri, Some s => [Free s]
  | _, _ => []
  end.

Definition int64 (x : Z) : Prop := - 2 ^ 63 <= x < 2 ^ 63.

(** ** Further instances *)

(** The frame after [frame_2500ms], 23220 microseconds later. *)
Definition frame_2523ms : MediaBuffer :=
  {| data := 69632; range_offset := 0; range_length := 4096;
     meta_kKeyTime := Some 2523220 |}.

(** The local file while playing, before any frame was decoded. *)
Definition player_file_playing : SfPlayer := set_mFlags kFlagPlaying player_file.

(** An HTTP stream of one byte whose track claims 30 s. *)
Definition http_tiny : DataSource :=
  {| wantsPrefetching := true; getSize := Some 1 |}.

Definition prepare_tiny : PrepareEnv :=
  {| openUri := Some http_tiny;
     openFd := {| wantsPrefetching := false; getSize := None |};
     initCheck := 0;
     extractor := Some [ {| hasMime := true; isAudio := true; isRaw := false |} ];
     kKeyDuration := Some 30000000;
     omxConnect := true;
     omxCodec := true;
     sourceStart := true;
     kKeyChannelCount := Some 2;
     kKeySampleRate := Some 44100 |}.

(** The player prepared on it: the bitrate is 8000000 / 30000000 = 0. *)
Definition player_tiny : SfPlayer :=
  set_mDataSource (Some http_tiny) (set_mBitrate 0 player_30s).

(** * Proofs *)

(** ** Bit-level facts about the flag word *)

Lemma land_set_same (f k : Z) : Z.land (Int.set_bits f k) k = k.
Proof.
  unfold Int.set_bits. apply Z.bits_inj'. intros n _.
  rewrite Z.land_spec, Z.lor_spec.
  destruct (Z.testbit f n), (Z.testbit k n); reflexivity.
Qed.

Lemma land_clear_same (f k : Z) : Z.land (Int.clear_bits f k) k = 0.
Proof.
  unfold Int.clear_bits. apply Z.bits_inj'. intros n Hn.
  rewrite !Z.land_spec, Z.lnot_spec, Z.bits_0 by exact Hn.
  destruct (Z.testbit f n), (Z.testbit k n); reflexivity.
Qed.

Lemma land_set_other (f k j : Z) :
  Z.land k j = 0 -> Z.land (Int.set_bits f k) j = Z.land f j.
Proof.
  intros D. unfold Int.set_bits. apply Z.bits_inj'. intros n _.
  assert (Dn : Z.testbit (Z.land k j) n = false) by (rewrite D; apply Z.bits_0).
  rewrite Z.land_spec in Dn. rewrite !Z.land_spec, Z.lor_spec.
  destruct (Z.testbit f n), (Z.testbit k n), (Z.testbit j n);
    simpl in *; congruence.
Qed.

Lemma land_clear_other (f k j : Z) :
  Z.land k j = 0 -> Z.land (Int.clear_bits f k) j = Z.land f j.
Proof.
  intros D. unfold Int.clear_bits. apply Z.bits_inj'. intros n Hn.
  assert (Dn : Z.testbit (Z.land k j) n = false) by (rewrite D; apply Z.bits_0).
  rewrite Z.land_spec in Dn. rewrite !Z.land_spec, Z.lnot_spec by exact Hn.
  destruct (Z.testbit f n), (Z.testbit k n), (Z.testbit j n);
    simpl in *; congruence.
Qed.

Lemma test_set_same (f k : Z) : k <> 0 -> Int.test (Int.set_bits f k) k = true.
Proof.
  intros Hk. unfold Int.test. rewrite land_set_same.
  apply negb_true_iff, Z.eqb_neq, Hk.
Qed.

Lemma test_clear_same (f k : Z) : Int.test (Int.clear_bits f k) k = false.
Proof. unfold Int.test. rewrite land_clear_same. reflexivity. Qed.

Lemma test_set_other (f k j : Z) :
  Z.land k j = 0 -> Int.test (Int.set_bits f k) j = Int.test f j.
Proof. intros D. unfold Int.test. rewrite land_set_other by exact D. reflexivity. Qed.

Lemma test_clear_other (f k j : Z) :
  Z.land k j = 0 -> Int.test (Int.clear_bits f k) j = Int.test f j.
Proof. intros D. unfold Int.test. rewrite land_clear_other by exact D. reflexivity. Qed.

Lemma test_lor (f a b : Z) :
  Int.test f (Z.lor a b) = Int.test f a || Int.test f b.
Proof.
  unfold Int.test. rewrite Z.land_lor_distr_r.
  destruct (Z.eqb_spec (Z.land f a) 0) as [Ha | Ha];
    destruct (Z.eqb_spec (Z.land f b) 0) as [Hb | Hb]; simpl.
  - rewrite Ha, Hb. reflexivity.
  - apply negb_true_iff, Z.eqb_neq. intros E. apply Z.lor_eq_0_iff in E. tauto.
  - apply negb_true_iff, Z.eqb_neq. intros E. apply Z.lor_eq_0_iff in E. tauto.
  - apply negb_true_iff, Z.eqb_neq. intros E. apply Z.lor_eq_0_iff in E. tauto.
Qed.

Ltac unfold_m :=
  cbv beta iota delta
    [bind ret gets modify emit crash when CHECK post audioTrack notify
     notifyStatus notifyCacheFill flagSet wantPrefetch] in *.

Ltac split_match :=
  match goal with
  | H : context [match ?x with _ => _ end] |- _ =>
      match type of H with
      | _ = Done _ => destruct x eqn:?
      end
  end.

Ltac done_inv :=
  repeat match goal with
    | H : Crash _ = Done _ |- _ => discriminate H
    | H : Done _ = Done _ |- _ => injection H as ?; subst
    end.

(** Projections of updated players, without touching the arithmetic. *)
Ltac psimpl :=
  cbn [
     mAudioTrack mFlags mBitrate mNumChannels mSampleRateHz mTimeDelta
     mDurationUsec mCacheStatus mSeekTimeMsec mLastDecodedPositionUs
     mCacheFill mLastNotifiedCacheFill mCacheFillNotifThreshold
     mDataLocatorType mDataLocator mNotifyClient mNotifyUser mDecodeBuffer
     mDataSource mAudioSource set_mAudioTrack set_mFlags set_mBitrate
     set_mNumChannels set_mSampleRateHz set_mTimeDelta set_mDurationUsec
     set_mCacheStatus set_mSeekTimeMsec set_mLastDecodedPositionUs
     set_mCacheFill set_mLastNotifiedCacheFill set_mDataLocatorType
     set_mDataLocator set_mNotifyClient set_mNotifyUser set_mDecodeBuffer
     set_mDataSource set_mAudioSource fst snd app loc_uri loc_fdi fdi_fd
     fdi_offset fdi_length] in *.

Ltac open_player :=
  match goal with q : SfPlayer |- _ => destruct q end.

(** ** The cache estimator touches three fields and posts notifications *)

Lemma getCacheRemaining_frame cfg env p r p' e :
  getCacheRemaining cfg env p = Done (r, p', e) ->
  p' = set_mCacheStatus (mCacheStatus p')
         (set_mCacheFill (mCacheFill p')
            (set_mLastNotifiedCacheFill (mLastNotifiedCacheFill p') p))
  /\ Forall isNotif e
  /\ r = (mCacheStatus p', snd (env_approxDataRemaining env)).
Proof.
  unfold getCacheRemaining. unfold_m. intros H.
  repeat (split_match; done_inv; try discriminate);
    open_player; cbn; repeat split; repeat constructor.
Qed.

(** ** Transport calls without a sink *)

(** C10. Without a bound audio sink ([mAudioTrack] null), [pause()] and
    [stop()] return at once: the player is unchanged (flags, position,
    pending buffer), the sink is not called and no message is posted; in
    particular [stop()] posts no seek. *)
Theorem pause_stop_without_track (p : SfPlayer) :
  mAudioTrack p = false ->
  pause p = Done (tt, p, []) /\ stop p = Done (tt, p, []).
Proof.
  intros H. unfold pause, stop. unfold_m. rewrite H. split; reflexivity.
Qed.

Lemma pause_stop_without_track_witness :
  pause SfPlayer_new = Done (tt, SfPlayer_new, [])
  /\ stop SfPlayer_new = Done (tt, SfPlayer_new, []).
Proof. apply (pause_stop_without_track SfPlayer_new). reflexivity. Defined.

(** ** The render step *)

(** C7. A render step without a pending buffer does nothing.  With a
    pending buffer and Playing set (a sink being bound) it writes the
    buffer's range to the sink, posts exactly one decode message, and
    releases the buffer; with Playing clear it only releases the buffer.
    After every render step the pending-buffer slot is empty. *)
Theorem onRender_cases (p : SfPlayer) :
  (mDecodeBuffer p = None -> onRender p = Done (tt, p, []))
  /\ (forall b, mDecodeBuffer p = Some b -> playing p = true ->
        mAudioTrack p = true ->
        onRender p =
          Done (tt, set_mDecodeBuffer None p,
                [TrackWrite (data b + range_offset b) (range_length b);
                 Post kWhatDecode 0; Release b]))
  /\ (forall b, mDecodeBuffer p = Some b -> playing p = false ->
        onRender p = Done (tt, set_mDecodeBuffer None p, [Release b]))
  /\ (forall r p' e, onRender p = Done (r, p', e) -> mDecodeBuffer p' = None).
Proof.
  unfold onRender, playing. unfold_m. repeat split.
  - intros H. rewrite H. reflexivity.
  - intros b Hb Hp Ht. rewrite Hb, Hp, Ht. reflexivity.
  - intros b Hb Hp. rewrite Hb, Hp. reflexivity.
  - intros r p' e H.
    destruct (mDecodeBuffer p) eqn:Hb.
    + destruct (Int.test (mFlags p) kFlagPlaying), (mAudioTrack p);
        done_inv; reflexivity.
    + done_inv. exact Hb.
Qed.

Lemma onRender_cases_witness :
  onRender player_30s = Done (tt, player_30s, [])
  /\ onRender player_30s_pending
     = Done (tt, set_mDecodeBuffer None player_30s_pending,
             [TrackWrite (data frame_2500ms + range_offset frame_2500ms)
                (range_length frame_2500ms);
              Post kWhatDecode 0; Release frame_2500ms])
  /\ onRender (set_mFlags 0 player_30s_pending)
     = Done (tt, set_mDecodeBuffer None (set_mFlags 0 player_30s_pending),
             [Release frame_2500ms]).
Proof.
  split; [| split].
  - apply (proj1 (onRender_cases player_30s)). reflexivity.
  - apply (proj1 (proj2 (onRender_cases player_30s_pending)) frame_2500ms);
      reflexivity.
  - apply (proj1 (proj2 (proj2 (onRender_cases (set_mFlags 0 player_30s_pending))))
             frame_2500ms); reflexivity.
Defined.

Lemma getCacheRemaining_frame_ex cfg env p r p' e :
  getCacheRemaining cfg env p = Done (r, p', e) ->
  exists s f l,
    p' = set_mCacheStatus s (set_mCacheFill f (set_mLastNotifiedCacheFill l p)).
Proof.
  intros H. apply getCacheRemaining_frame in H. destruct H as [H _].
  eauto.
Qed.

Ltac use_frame :=
  match goal with
  | G : getCacheRemaining _ _ _ = Done (_, ?q, _) |- _ =>
      let s := fresh "s" in
      let f := fresh "f" in
      let l := fresh "l" in
      let E := fresh "E" in
      destruct (getCacheRemaining_frame_ex _ _ _ _ _ _ G) as (s & f & l & E);
      clear G; subst q
  end.

Lemma findAudioTrack_pure ts p r p' e :
  findAudioTrack ts p = Done (r, p', e) -> p' = p /\ e = [].
Proof.
  revert p r p' e. induction ts as [| t ts IH]; intros p r p' e H.
  - cbn in H. unfold_m. done_inv. auto.
  - cbn in H. unfold_m. destruct (hasMime t); [| discriminate].
    destruct (isAudio t).
    + done_inv. auto.
    + destruct (findAudioTrack ts p) as [[[a q] e1] |] eqn:F; [| discriminate].
      done_inv. apply IH in F. destruct F; subst. auto.
Qed.

Lemma onPrepare_transport pe p r p' e :
  onPrepare pe p = Done (r, p', e) -> sameTransport p p'.
Proof.
  unfold onPrepare, onPrepare_with. unfold_m. intros H.
  repeat (split_match; done_inv; try discriminate;
          repeat match goal with
            | F : findAudioTrack _ _ = Done _ |- _ =>
                apply findAudioTrack_pure in F; destruct F; subst
            end);
    repeat split; reflexivity.
Qed.

Lemma disjoint_Buffering_Seeking : Z.land kFlagBuffering kFlagSeeking = 0.
Proof. reflexivity. Qed.
Lemma disjoint_Buffering_Playing : Z.land kFlagBuffering kFlagPlaying = 0.
Proof. reflexivity. Qed.
Lemma disjoint_Preparing_Seeking : Z.land kFlagPreparing kFlagSeeking = 0.
Proof. reflexivity. Qed.
Lemma disjoint_Preparing_Playing : Z.land kFlagPreparing kFlagPlaying = 0.
Proof. reflexivity. Qed.
Lemma disjoint_Seeking_Playing : Z.land kFlagSeeking kFlagPlaying = 0.
Proof. reflexivity. Qed.
Lemma disjoint_Playing_Seeking : Z.land kFlagPlaying kFlagSeeking = 0.
Proof. reflexivity. Qed.

Lemma onDecode_transport cfg env p r p' e :
  onDecode cfg env p = Done (r, p', e) ->
  mSeekTimeMsec p' = mSeekTimeMsec p
  /\ playing p' = playing p
  /\ ((seeking p' = seeking p
       /\ mLastDecodedPositionUs p' = mLastDecodedPositionUs p)
      \/ (seeking p' = false
          /\ exists b t o,
              env_read env = ReadOK b /\ meta_kKeyTime b = Some t
              /\ mLastDecodedPositionUs p' = t /\ In (SourceRead o) e)).
Proof.
  unfold onDecode, playing, seeking. unfold_m. intros H.
  repeat (split_match; done_inv; try discriminate; try use_frame); cbn in *.
  all: try (repeat split; try reflexivity; left; split; reflexivity).
  all: try (rewrite !test_set_other by reflexivity;
       repeat split; try reflexivity; left; split; reflexivity).
  all: match goal with
       | |- context [if ?c then _ else _] => destruct c eqn:Hs
       end; cbn.
  all: repeat split; try reflexivity.
  all: try (rewrite !test_clear_other by reflexivity; reflexivity).
  all: right; split;
    [ first [ apply test_clear_same | assumption ]
    | do 3 eexists; repeat split; try reflexivity;
      first [ solve [cbn; eauto 10]
            | solve [apply in_or_app; right; cbn; eauto 10] ] ].
Qed.

Lemma onCheckCache_transport cfg env p r p' e :
  onCheckCache cfg env p = Done (r, p', e) ->
  mSeekTimeMsec p' = mSeekTimeMsec p
  /\ playing p' = playing p
  /\ seeking p' = seeking p
  /\ mLastDecodedPositionUs p' = mLastDecodedPositionUs p.
Proof.
  unfold onCheckCache, playing, seeking. unfold_m. intros H.
  repeat (split_match; done_inv; try discriminate; try use_frame); cbn in *.
  all: repeat match goal with
         | |- context [if ?c then _ else _] => destruct c eqn:?
         end; cbn.
  all: repeat split; try reflexivity.
  all: rewrite ?test_clear_other by reflexivity; reflexivity.
Qed.

Lemma onRender_transport p r p' e :
  onRender p = Done (r, p', e) -> sameTransport p p'.
Proof.
  unfold onRender. unfold_m. intros H.
  repeat (split_match; done_inv; try discriminate);
    repeat split; reflexivity.
Qed.

Lemma onNotify_pure key value p r p' e :
  onNotify key value p = Done (r, p', e) -> p' = p.
Proof.
  unfold onNotify. unfold_m. intros H.
  repeat (split_match; done_inv; try discriminate); reflexivity.
Qed.

(** A delivery other than a seek and other than a decode that reads a frame
    leaves the seek state alone. *)
Lemma step_keeps_seek cfg env msg p r p' e :
  onMessageReceived cfg env msg p = Done (r, p', e) ->
  ~ isSeekMsg (msg, env) -> ~ decodesFrame (msg, env) ->
  seeking p' = seeking p
  /\ mSeekTimeMsec p' = mSeekTimeMsec p
  /\ mLastDecodedPositionUs p' = mLastDecodedPositionUs p.
Proof.
  intros H NS ND. destruct msg as [| | | | key value | | | target]; cbn in H.
  - unfold bind, ret in H.
    destruct (onPrepare (env_prepare env) p) as [[[a q] e1] |] eqn:P;
      [| discriminate].
    done_inv. apply onPrepare_transport in P. destruct P as (F & S & L).
    unfold seeking. rewrite F. auto.
  - apply onDecode_transport in H. destruct H as (S & _ & [[K L] | [_ C]]).
    + auto.
    + destruct C as (b & t & o & R & _). exfalso. apply ND. cbn. rewrite R. exact I.
  - apply onRender_transport in H. destruct H as (F & S & L).
    unfold seeking. rewrite F. auto.
  - apply onCheckCache_transport in H. tauto.
  - apply onNotify_pure in H. subst. auto.
  - unfold onPlay in H. unfold_m. done_inv. unfold seeking. cbn.
    rewrite test_set_other by reflexivity. auto.
  - unfold onPause in H. unfold_m. done_inv. unfold seeking. cbn.
    rewrite test_clear_other by reflexivity. auto.
  - exfalso. apply NS. exact I.
Qed.

Lemma step_keeps_paused cfg env msg p r p' e :
  onMessageReceived cfg env msg p = Done (r, p', e) ->
  ~ isPlayMsg (msg, env) -> playing p = false -> playing p' = false.
Proof.
  intros H NP Hp. destruct msg as [| | | | key value | | | target]; cbn in H.
  - unfold bind, ret in H.
    destruct (onPrepare (env_prepare env) p) as [[[a q] e1] |] eqn:P;
      [| discriminate].
    done_inv. apply onPrepare_transport in P. destruct P as (F & _).
    unfold playing in *. rewrite F. exact Hp.
  - apply onDecode_transport in H. destruct H as (_ & P & _). congruence.
  - apply onRender_transport in H. destruct H as (F & _).
    unfold playing in *. rewrite F. exact Hp.
  - apply onCheckCache_transport in H. destruct H as (_ & P & _). congruence.
  - apply onNotify_pure in H. subst. exact Hp.
  - exfalso. apply NP. exact I.
  - unfold onPause in H. unfold_m. done_inv. unfold playing. cbn.
    apply test_clear_same.
  - unfold onSeek in H. unfold_m. destruct target; done_inv.
    unfold playing in *. cbn. rewrite test_set_other by reflexivity. exact Hp.
Qed.

Lemma getPositionMsec_seeking p :
  seeking p = true -> getPositionMsec p = Int.to_uint32 (mSeekTimeMsec p).
Proof. unfold seeking, getPositionMsec. intros ->. reflexivity. Qed.

Lemma getPositionMsec_decoded p :
  seeking p = false ->
  getPositionMsec p =
    if mLastDecodedPositionUs p <? 0 then 0
    else Int.to_uint32 (Z.quot (mLastDecodedPositionUs p) 1000).
Proof. unfold seeking, getPositionMsec. intros ->. reflexivity. Qed.

Lemma to_uint32_small x : 0 <= x < 2 ^ 32 -> Int.to_uint32 x = x.
Proof. intros H. unfold Int.to_uint32, Int.wrap_unsigned. apply Z.mod_small, H. Qed.

Lemma onSeek_result T p :
  exists p',
    onSeek (Some T) p = Done (tt, p', [])
    /\ seeking p' = true
    /\ mSeekTimeMsec p' = T
    /\ mLastDecodedPositionUs p' = -1
    /\ mTimeDelta p' = -1
    /\ playing p' = playing p.
Proof.
  eexists. unfold onSeek. unfold_m. split; [reflexivity |].
  unfold seeking, playing. cbn. repeat split.
  - apply test_set_same. discriminate.
  - apply test_set_other. reflexivity.
Qed.

(** Deliveries compose. *)
Lemma deliver_cons cfg msg env ms p r p' e :
  deliver cfg ((msg, env) :: ms) p = Done (r, p', e) ->
  exists r1 p1 e1 e2,
    onMessageReceived cfg env msg p = Done (r1, p1, e1)
    /\ deliver cfg ms p1 = Done (r, p', e2)
    /\ e = e1 ++ e2.
Proof.
  cbn. unfold bind. intros H.
  destruct (onMessageReceived cfg env msg p) as [[[r1 p1] e1] |]; [| discriminate].
  destruct (deliver cfg ms p1) as [[[r2 p2] e2] |] eqn:D; [| discriminate].
  done_inv. exists r1, p1, e1, e2. auto.
Qed.

Lemma deliver_app cfg ms1 ms2 p r p' e :
  deliver cfg (ms1 ++ ms2) p = Done (r, p', e) ->
  exists p1 e1 e2,
    deliver cfg ms1 p = Done (tt, p1, e1)
    /\ deliver cfg ms2 p1 = Done (r, p', e2)
    /\ e = e1 ++ e2.
Proof.
  revert p e. induction ms1 as [| [msg env] ms1 IH]; intros p e H.
  - cbn in H. exists p, [], e. auto.
  - rewrite <- app_comm_cons in H. apply deliver_cons in H.
    destruct H as (r1 & p1 & e1 & e2 & S & D & E).
    apply IH in D. destruct D as (p2 & e3 & e4 & D1 & D2 & E2).
    exists p2, (e1 ++ e3), e4. repeat split.
    + cbn. unfold bind. rewrite S, D1. destruct r1. reflexivity.
    + exact D2.
    + subst. rewrite app_assoc. reflexivity.
Qed.

Lemma deliver_keeps_seek cfg ms : forall p r p' e,
  deliver cfg ms p = Done (r, p', e) ->
  Forall (fun d => ~ isSeekMsg d /\ ~ decodesFrame d) ms ->
  seeking p' = seeking p
  /\ mSeekTimeMsec p' = mSeekTimeMsec p
  /\ mLastDecodedPositionUs p' = mLastDecodedPositionUs p.
Proof.
  induction ms as [| [msg env] ms IH]; intros p r p' e H F.
  - cbn in H. unfold ret in H. done_inv. auto.
  - apply deliver_cons in H. destruct H as (r1 & p1 & e1 & e2 & S & D & E).
    inversion F as [| d l [NS ND] F']; subst.
    apply step_keeps_seek in S; [| assumption | assumption].
    apply IH in D; [| assumption].
    destruct S as (S1 & S2 & S3), D as (D1 & D2 & D3).
    repeat split; congruence.
Qed.

Lemma deliver_keeps_paused cfg ms : forall p r p' e,
  deliver cfg ms p = Done (r, p', e) ->
  Forall (fun d => ~ isPlayMsg d) ms ->
  playing p = false -> playing p' = false.
Proof.
  induction ms as [| [msg env] ms IH]; intros p r p' e H F Hp.
  - cbn in H. unfold ret in H. done_inv. exact Hp.
  - apply deliver_cons in H. destruct H as (r1 & p1 & e1 & e2 & S & D & E).
    inversion F as [| d l NP F']; subst.
    eapply IH; [exact D | assumption |].
    eapply step_keeps_paused; eassumption.
Qed.

(** ** The cache estimator *)

Lemma CacheStatus_eqb_eq a b : CacheStatus_eqb a b = true <-> a = b.
Proof. destruct a, b; cbn; split; intros H; congruence. Qed.

Lemma CacheStatus_eqb_neq a b : CacheStatus_eqb a b = false <-> a <> b.
Proof. destruct a, b; cbn; split; intros H; congruence. Qed.

(** What one estimation posts and stores. *)
Lemma getCacheRemaining_effects cfg env p r p' e :
  getCacheRemaining cfg env p = Done (r, p', e) ->
  let fires := mCacheFillNotifThreshold p
               <? Z.abs (mCacheFill p' - mLastNotifiedCacheFill p) in
  e = (if CacheStatus_eqb (mCacheStatus p) (fst r) then [] else [statusNotif (fst r)])
      ++ (if fires then [fillNotif (mCacheFill p')] else [])
  /\ mLastNotifiedCacheFill p' =
       (if fires then mCacheFill p' else mLastNotifiedCacheFill p)
  /\ mCacheStatus p' = fst r
  /\ fst r = cacheStatusOf cfg env (mBitrate p) (mDurationUsec p)
  /\ mBitrate p' = mBitrate p
  /\ mDurationUsec p' = mDurationUsec p
  /\ mCacheFillNotifThreshold p' = mCacheFillNotifThreshold p.
Proof.
  unfold getCacheRemaining, cacheStatusOf. unfold_m. intros H.
  repeat (split_match; done_inv; try discriminate); psimpl;
    repeat match goal with
      | E : negb _ = true |- _ => apply negb_true_iff in E
      | E : negb _ = false |- _ => apply negb_false_iff in E
      end;
    repeat match goal with
      | E : _ = true |- _ => rewrite E
      | E : _ = false |- _ => rewrite E
      end;
    repeat split; reflexivity.
Qed.

(** With a source attached and a positive bitrate, an estimation that
    observes end-of-stream completes. *)
Lemma getCacheRemaining_eos cfg env p :
  mDataSource p <> None -> 0 < mBitrate p ->
  snd (env_approxDataRemaining env) = true ->
  exists p' e,
    getCacheRemaining cfg env p = Done ((kStatusHigh, true), p', e)
    /\ mCacheFill p' = 1000 /\ mCacheStatus p' = kStatusHigh.
Proof.
  intros Hds Hb He. unfold getCacheRemaining. unfold_m.
  destruct (mDataSource p) as [ds |]; [| congruence].
  assert (B1 : (0 <=? mBitrate p) = true) by (apply Z.leb_le; lia).
  assert (B2 : (mBitrate p =? 0) = false) by (apply Z.eqb_neq; lia).
  rewrite B1, B2, He. cbn -[Z.sub Z.abs Z.ltb Int.to_int32].
  destruct (CacheStatus_eqb (mCacheStatus p) kStatusHigh);
    cbn -[Z.sub Z.abs Z.ltb Int.to_int32];
    destruct (mCacheFillNotifThreshold p <? Z.abs (1000 - mLastNotifiedCacheFill p));
    do 2 eexists; repeat split; reflexivity.
Qed.

Lemma getCacheRemaining_eos_result cfg env p r p' e :
  getCacheRemaining cfg env p = Done (r, p', e) ->
  snd (env_approxDataRemaining env) = true ->
  mCacheFill p' = 1000 /\ mCacheStatus p' = kStatusHigh /\ r = (kStatusHigh, true).
Proof.
  unfold getCacheRemaining. unfold_m. intros H He. rewrite He in H.
  repeat (split_match; done_inv; try discriminate); psimpl; auto.
Qed.

(** The estimator stops on a negative bitrate, before it looks at the
    probe. *)
Lemma getCacheRemaining_negative_bitrate cfg env p :
  mDataSource p <> None -> mBitrate p < 0 ->
  getCacheRemaining cfg env p = Crash CheckFailed.
Proof.
  intros Hds Hb. unfold getCacheRemaining. unfold_m.
  destruct (mDataSource p); [| congruence].
  assert (B : (0 <=? mBitrate p) = false) by (apply Z.leb_gt; lia).
  rewrite B. reflexivity.
Qed.

(** With a source attached and a positive bitrate the estimator completes,
    provided the fill level it computes in the known-duration branch fits
    an [int16_t]. *)
Lemma getCacheRemaining_completes cfg env p :
  mDataSource p <> None -> 0 < mBitrate p ->
  (snd (env_approxDataRemaining env) = false -> 0 < mDurationUsec p ->
   cacheFill (Int.to_uint32 (getPositionUsec p))
     (Z.quot (Int.to_int64 (fst (env_approxDataRemaining env) * 8000000))
        (mBitrate p))
     (mDurationUsec p) <> None) ->
  exists r p' e, getCacheRemaining cfg env p = Done (r, p', e).
Proof.
  intros Hds Hb Hf. unfold getCacheRemaining. unfold_m.
  destruct (mDataSource p) as [ds |]; [| congruence].
  assert (B1 : (0 <=? mBitrate p) = true) by (apply Z.leb_le; lia).
  assert (B2 : (mBitrate p =? 0) = false) by (apply Z.eqb_neq; lia).
  rewrite B1, B2.
  destruct (snd (env_approxDataRemaining env)).
  - psimpl.
    repeat match goal with
      | |- context [if ?c then _ else _] => destruct c
      end; do 3 eexists; reflexivity.
  - destruct (0 <? mDurationUsec p) eqn:D.
    + specialize (Hf eq_refl (proj1 (Z.ltb_lt _ _) D)).
      destruct (cacheFill _ _ _) as [f |]; [| congruence]. psimpl.
      repeat match goal with
        | |- context [if ?c then _ else _] => destruct c
        end; do 3 eexists; reflexivity.
    + psimpl.
      repeat match goal with
        | |- context [if ?c then _ else _] => destruct c
        end; do 3 eexists; reflexivity.
Qed.

Lemma cacheTrace_nth cfg envs : forall p ps i env q,
  cacheTrace cfg envs p = Done ps ->
  nth_error envs i = Some env -> nth_error ps i = Some q ->
  exists p0 r e, getCacheRemaining cfg env p0 = Done (r, q, e).
Proof.
  induction envs as [| env0 envs IH]; intros p ps i env q H He Hq.
  - destruct i; cbn in He; discriminate He.
  - cbn [cacheTrace] in H.
    destruct (getCacheRemaining cfg env0 p) as [[[r1 p1] e1] |] eqn:G;
      [| discriminate].
    destruct (cacheTrace cfg envs p1) as [ps1 |] eqn:T; [| discriminate].
    injection H as <-. destruct i as [| i].
    + cbn in He, Hq. injection He as <-. injection Hq as <-. eauto.
    + cbn in He, Hq. eapply IH; eassumption.
Qed.

(** What an estimation that does not observe end-of-stream stores: the
    status comes from the thresholds of the branch taken; the fill level is
    computed on the known-duration branch only and is left as it was on the
    other. *)
Lemma getCacheRemaining_no_eos cfg env p r p' e :
  getCacheRemaining cfg env p = Done (r, p', e) ->
  snd (env_approxDataRemaining env) = false ->
  let dataRemaining := fst (env_approxDataRemaining env) in
  let dataRemainingUs :=
    Z.quot (Int.to_int64 (dataRemaining * 8000000)) (mBitrate p) in
  (0 < mDurationUsec p ->
     mCacheStatus p' =
       classify (DURATION_CACHED_HIGH_US cfg) (DURATION_CACHED_MED_US cfg)
         (DURATION_CACHED_LOW_US cfg) dataRemainingUs
     /\ cacheFill (Int.to_uint32 (getPositionUsec p)) dataRemainingUs
          (mDurationUsec p) = Some (mCacheFill p'))
  /\ (mDurationUsec p <= 0 ->
      mCacheStatus p' =
        classify (SIZE_CACHED_HIGH_BYTES cfg) (SIZE_CACHED_MED_BYTES cfg)
          (SIZE_CACHED_LOW_BYTES cfg) dataRemaining
      /\ mCacheFill p' = mCacheFill p).
Proof.
  unfold getCacheRemaining. unfold_m. intros H E. rewrite E in H.
  cbv zeta.
  repeat (split_match; done_inv; try discriminate); psimpl;
    repeat match goal with
      | K : (0 <? _) = true |- _ => apply Z.ltb_lt in K
      | K : (0 <? _) = false |- _ => apply Z.ltb_ge in K
      end;
    (split; intros D; try lia; split; reflexivity || assumption).
Qed.

(** C2 (amended). Every estimation that observes end-of-stream, with a
    source attached and a positive bitrate, completes and leaves
    [mCacheFill = 1000] and [mCacheStatus = kStatusHigh]; in every run of
    estimations this holds after each estimation that observes
    end-of-stream, so the fill level does not decrease from one such
    estimation to the next.  An estimation that does not observe
    end-of-stream recomputes the status from its inputs, whatever was
    stored before; it recomputes the fill level as well when the duration is
    known, and leaves the stored fill level as it was when the duration is
    not known. *)
Theorem eos_fill_is_1000 (cfg : Config) :
  (forall env p,
      mDataSource p <> None -> 0 < mBitrate p ->
      snd (env_approxDataRemaining env) = true ->
      exists p' e,
        getCacheRemaining cfg env p = Done ((kStatusHigh, true), p', e)
        /\ mCacheFill p' = 1000 /\ mCacheStatus p' = kStatusHigh)
  /\ (forall envs p ps i env q,
        cacheTrace cfg envs p = Done ps ->
        nth_error envs i = Some env ->
        snd (env_approxDataRemaining env) = true ->
        nth_error ps i = Some q ->
        mCacheFill q = 1000 /\ mCacheStatus q = kStatusHigh)
  /\ (forall envs p ps i env env' q q',
        cacheTrace cfg envs p = Done ps ->
        nth_error envs i = Some env -> nth_error envs (S i) = Some env' ->
        snd (env_approxDataRemaining env) = true ->
        snd (env_approxDataRemaining env') = true ->
        nth_error ps i = Some q -> nth_error ps (S i) = Some q' ->
        mCacheFill q <= mCacheFill q')
  /\ (forall env p r p' e,
        getCacheRemaining cfg env p = Done (r, p', e) ->
        snd (env_approxDataRemaining env) = false ->
        let dataRemaining := fst (env_approxDataRemaining env) in
        let dataRemainingUs :=
          Z.quot (Int.to_int64 (dataRemaining * 8000000)) (mBitrate p) in
        (0 < mDurationUsec p ->
           mCacheStatus p' =
             classify (DURATION_CACHED_HIGH_US cfg) (DURATION_CACHED_MED_US cfg)
               (DURATION_CACHED_LOW_US cfg) dataRemainingUs
           /\ cacheFill (Int.to_uint32 (getPositionUsec p)) dataRemainingUs
                (mDurationUsec p) = Some (mCacheFill p'))
        /\ (mDurationUsec p <= 0 ->
            mCacheStatus p' =
              classify (SIZE_CACHED_HIGH_BYTES cfg) (SIZE_CACHED_MED_BYTES cfg)
                (SIZE_CACHED_LOW_BYTES cfg) dataRemaining
            /\ mCacheFill p' = mCacheFill p)).
Proof.
  assert (A : forall envs p ps i env q,
             cacheTrace cfg envs p = Done ps ->
             nth_error envs i = Some env ->
             snd (env_approxDataRemaining env) = true ->
             nth_error ps i = Some q ->
             mCacheFill q = 1000 /\ mCacheStatus q = kStatusHigh).
  { intros envs p ps i env q T He Heos Hq.
    destruct (cacheTrace_nth _ _ _ _ _ _ _ T He Hq) as (p0 & r & e & G).
    apply getCacheRemaining_eos_result in G; tauto. }
  split; [| split; [| split]].
  - intros env p Hds Hb He. apply getCacheRemaining_eos; assumption.
  - exact A.
  - intros envs p ps i env env' q q' T He He' Heos Heos' Hq Hq'.
    destruct (A _ _ _ _ _ _ T He Heos Hq) as [F _].
    destruct (A _ _ _ _ _ _ T He' Heos' Hq') as [F' _].
    lia.
  - intros env p r p' e G Heos.
    exact (getCacheRemaining_no_eos _ _ _ _ _ _ G Heos).
Qed.

Lemma eos_fill_is_1000_witness :
  (exists p' e,
      getCacheRemaining spec_config (probe 0 true) player_30s
      = Done ((kStatusHigh, true), p', e)
      /\ mCacheFill p' = 1000 /\ mCacheStatus p' = kStatusHigh)
  /\ (exists q q',
        cacheTrace spec_config [probe 0 true; probe 9 true] player_30s
        = Done [q; q']
        /\ (mCacheFill q' = 1000 /\ mCacheStatus q' = kStatusHigh)
        /\ mCacheFill q <= mCacheFill q')
  /\ (exists p' e,
        getCacheRemaining spec_config (probe 4000 false)
          (set_mCacheFill 1000 (set_mDurationUsec (-1) player_30s))
        = Done ((kStatusLow, false), p', e)
        /\ mCacheFill p' = 1000).
Proof.
  split; [| split].
  - apply (proj1 (eos_fill_is_1000 spec_config) (probe 0 true) player_30s).
    + discriminate.
    + reflexivity.
    + reflexivity.
  - assert (T : exists q q',
               cacheTrace spec_config [probe 0 true; probe 9 true] player_30s
               = Done [q; q'])
      by (do 2 eexists; vm_compute; reflexivity).
    destruct T as (q & q' & T). exists q, q'. split; [exact T |]. split.
    + exact (proj1 (proj2 (eos_fill_is_1000 spec_config))
               _ _ _ 1%nat (probe 9 true) q' T eq_refl eq_refl eq_refl).
    + exact (proj1 (proj2 (proj2 (eos_fill_is_1000 spec_config)))
               _ _ _ 0%nat (probe 0 true) (probe 9 true) q q' T
               eq_refl eq_refl eq_refl eq_refl eq_refl eq_refl).
  - assert (G : exists p' e,
               getCacheRemaining spec_config (probe 4000 false)
                 (set_mCacheFill 1000 (set_mDurationUsec (-1) player_30s))
               = Done ((kStatusLow, false), p', e))
      by (do 2 eexists; vm_compute; reflexivity).
    destruct G as (p' & e & G). exists p', e. split; [exact G |].
    refine (proj2 (proj2 (proj2 (proj2 (proj2 (eos_fill_is_1000 spec_config)))
                            _ _ _ _ _ G eq_refl) _)).
    intros K. discriminate K.
Defined.

(** C2 as stated fails: after an estimation that observes end-of-stream, a
    later estimation whose probe reports no end-of-stream recomputes both
    values.  On the 30 s stream the fill level drops from 1000 to 8 and the
    status from High to Low. *)
Lemma fill_drops_after_eos :
  exists q q',
    cacheTrace spec_config [probe 0 true; probe 4000 false] player_30s
    = Done [q; q']
    /\ snd (env_approxDataRemaining (probe 0 true)) = true
    /\ mCacheFill q = 1000
    /\ mCacheFill q' = 8
    /\ mCacheFill q' < mCacheFill q
    /\ mCacheStatus q' = kStatusLow.
Proof.
  do 2 eexists. split; [vm_compute; reflexivity |].
  repeat split; vm_compute; reflexivity.
Qed.

(** ** Notifications of the estimator *)

Lemma existsb_status_notifs (same fires : bool) s f :
  existsb isStatusNotif
    ((if same then [] else [statusNotif s]) ++ (if fires then [fillNotif f] else []))
  = negb same.
Proof. destruct same, fires; reflexivity. Qed.

Lemma existsb_fill_notifs (same fires : bool) s f :
  existsb isFillNotif
    ((if same then [] else [statusNotif s]) ++ (if fires then [fillNotif f] else []))
  = fires.
Proof. destruct same, fires; reflexivity. Qed.

(** C3. The estimator completes whenever a source is attached, the
    bitrate is positive and the fill level it computes fits an [int16_t].
    An estimation that completes posts a status notification exactly
    when the status it computes differs from the stored one, which is the
    status of the previous estimation; an estimation repeated on unchanged
    inputs posts none.  It posts a fill notification exactly when
    [|newFill - lastNotifiedFill| > threshold], and then
    [mLastNotifiedCacheFill] is the new fill level (otherwise it keeps its
    value).  The two tests are independent and both notifications can be
    posted by one estimation. *)
Theorem cache_notifications (cfg : Config) :
  (forall env p,
      mDataSource p <> None -> 0 < mBitrate p ->
      (snd (env_approxDataRemaining env) = false -> 0 < mDurationUsec p ->
       cacheFill (Int.to_uint32 (getPositionUsec p))
         (Z.quot (Int.to_int64 (fst (env_approxDataRemaining env) * 8000000))
            (mBitrate p))
         (mDurationUsec p) <> None) ->
      exists r p' e, getCacheRemaining cfg env p = Done (r, p', e))
  /\ (forall env p r p' e,
      getCacheRemaining cfg env p = Done (r, p', e) ->
      let fires := mCacheFillNotifThreshold p
                   <? Z.abs (mCacheFill p' - mLastNotifiedCacheFill p) in
      e = (if CacheStatus_eqb (mCacheStatus p) (fst r) then []
           else [statusNotif (fst r)])
          ++ (if fires then [fillNotif (mCacheFill p')] else [])
      /\ (existsb isStatusNotif e = true <-> fst r <> mCacheStatus p)
      /\ (existsb isFillNotif e = true <->
            mCacheFillNotifThreshold p
            < Z.abs (mCacheFill p' - mLastNotifiedCacheFill p))
      /\ (existsb isFillNotif e = true ->
            mLastNotifiedCacheFill p' = mCacheFill p')
      /\ (existsb isFillNotif e = false ->
            mLastNotifiedCacheFill p' = mLastNotifiedCacheFill p)
      /\ mCacheStatus p' = fst r)
  /\ (forall env1 env2 p r1 p1 e1 r2 p2 e2,
        getCacheRemaining cfg env1 p = Done (r1, p1, e1) ->
        getCacheRemaining cfg env2 p1 = Done (r2, p2, e2) ->
        (existsb isStatusNotif e2 = true <-> fst r2 <> fst r1))
  /\ (forall env p r1 p1 e1 r2 p2 e2,
        getCacheRemaining cfg env p = Done (r1, p1, e1) ->
        getCacheRemaining cfg env p1 = Done (r2, p2, e2) ->
        existsb isStatusNotif e2 = false)
  /\ (exists env p r p' e,
        getCacheRemaining cfg env p = Done (r, p', e)
        /\ existsb isStatusNotif e = true
        /\ existsb isFillNotif e = true).
Proof.
  assert (One : forall env p r p' e,
             getCacheRemaining cfg env p = Done (r, p', e) ->
             (existsb isStatusNotif e = true <-> fst r <> mCacheStatus p)).
  { intros env p r p' e G.
    destruct (getCacheRemaining_effects _ _ _ _ _ _ G) as (E & _).
    rewrite E, existsb_status_notifs, negb_true_iff, CacheStatus_eqb_neq.
    split; intros H C; apply H; congruence. }
  split; [| split; [| split; [| split]]].
  - intros env p Hds Hb Hf. apply getCacheRemaining_completes; assumption.
  - intros env p r p' e G fires.
    destruct (getCacheRemaining_effects _ _ _ _ _ _ G) as (E & L & S & _).
    fold fires in E, L. split; [exact E |]. split; [exact (One _ _ _ _ _ G) |].
    rewrite E, existsb_fill_notifs. repeat split.
    + unfold fires. apply Z.ltb_lt.
    + unfold fires. apply Z.ltb_lt.
    + intros F. rewrite F in L. exact L.
    + intros F. rewrite F in L. exact L.
    + exact S.
  - intros env1 env2 p r1 p1 e1 r2 p2 e2 G1 G2.
    destruct (getCacheRemaining_effects _ _ _ _ _ _ G1) as (_ & _ & S & _).
    rewrite <- S. exact (One _ _ _ _ _ G2).
  - intros env p r1 p1 e1 r2 p2 e2 G1 G2.
    destruct (getCacheRemaining_effects _ _ _ _ _ _ G1)
      as (_ & _ & S1 & C1 & B & D & _).
    destruct (getCacheRemaining_effects _ _ _ _ _ _ G2) as (E2 & _ & _ & C2 & _).
    rewrite E2, existsb_status_notifs, negb_false_iff, CacheStatus_eqb_eq.
    rewrite S1, C1, C2, B, D. reflexivity.
  - destruct (getCacheRemaining_eos cfg (probe 0 true) player_30s)
      as (p' & e & G & F & S); [discriminate | reflexivity | reflexivity |].
    exists (probe 0 true), player_30s, (kStatusHigh, true), p', e.
    split; [exact G |].
    destruct (getCacheRemaining_effects _ _ _ _ _ _ G) as (E & _).
    rewrite E, existsb_status_notifs, existsb_fill_notifs, F. split; reflexivity.
Qed.

Lemma cache_notifications_witness :
  exists p1 e1 p2 e2,
    getCacheRemaining spec_config (probe 4000 false) player_30s
    = Done ((kStatusLow, false), p1, e1)
    /\ getCacheRemaining spec_config (probe 4000 false) p1
       = Done ((kStatusLow, false), p2, e2)
    /\ (existsb isStatusNotif e1 = true <-> kStatusLow <> kStatusEmpty)
    /\ mCacheStatus p1 = kStatusLow
    /\ existsb isStatusNotif e2 = false
    /\ exists r p' e,
         getCacheRemaining spec_config (probe 4000 false) p2 = Done (r, p', e).
Proof.
  pose (p1 := set_mCacheFill 8 (set_mCacheStatus kStatusLow player_30s)).
  assert (G1 : getCacheRemaining spec_config (probe 4000 false) player_30s
               = Done ((kStatusLow, false), p1, [statusNotif kStatusLow]))
    by (vm_compute; reflexivity).
  assert (G2 : getCacheRemaining spec_config (probe 4000 false) p1
               = Done ((kStatusLow, false), p1, []))
    by (vm_compute; reflexivity).
  exists p1, [statusNotif kStatusLow], p1, [].
  split; [exact G1 |]. split; [exact G2 |].
  pose proof (proj1 (proj2 (cache_notifications spec_config)) _ _ _ _ _ G1)
    as (_ & S & _ & _ & _ & T).
  split; [exact S |]. split; [exact T |]. split.
  - exact (proj1 (proj2 (proj2 (proj2 (cache_notifications spec_config))))
             _ _ _ _ _ _ _ _ G1 G2).
  - apply (proj1 (cache_notifications spec_config) (probe 4000 false) p1).
    + discriminate.
    + reflexivity.
    + intros _ _. vm_compute. discriminate.
Defined.

(** ** The instances are states the player reaches *)

Lemma player_30s_reached :
  (useAudioTrack true ;;
   setDataSource_uri "http://host/a.mp3" true ;;
   prepare_sync prepare_30s) SfPlayer_new
  = Done (SFPLAYER_SUCCESS, player_30s, []).
Proof. vm_compute. reflexivity. Qed.

Lemma player_live_reached :
  (useAudioTrack true ;;
   setDataSource_uri "http://host/live" true ;;
   prepare_sync prepare_live) SfPlayer_new
  = Done (SFPLAYER_SUCCESS, player_live, []).
Proof. vm_compute. reflexivity. Qed.

Lemma player_30s_seek_29s_reached :
  onSeek (Some 29000) player_30s = Done (tt, player_30s_seek_29s, []).
Proof. vm_compute. reflexivity. Qed.

(** The two estimator scenarios of the specification, on the 30 s stream
    at 128000 bits per second. *)
Example scenario_A :
  exists p' e,
    getCacheRemaining spec_config (probe 2000000 false) player_30s
    = Done ((kStatusHigh, false), p', e)
    /\ mCacheFill p' = 4166.
Proof. do 2 eexists. split; vm_compute; reflexivity. Qed.

Example scenario_B :
  exists p' e,
    getCacheRemaining spec_config (probe 4000 false) player_30s
    = Done ((kStatusLow, false), p', e)
    /\ mCacheFill p' = 8.
Proof. do 2 eexists. split; vm_compute; reflexivity. Qed.

(** C4. The fill level is not confined to 0..1000: on the 30 s stream,
    with 240000 bytes (15 s) cached ahead and a seek to 29 s pending, the
    estimator stores a fill level of 1466. *)
Theorem cacheFill_exceeds_1000 :
  exists r p' e,
    getCacheRemaining spec_config (probe 240000 false) player_30s_seek_29s
    = Done (r, p', e)
    /\ mCacheFill p' = 1466
    /\ ~ (0 <= mCacheFill p' <= 1000).
Proof.
  do 3 eexists. split; [vm_compute; reflexivity |].
  split; [reflexivity |]. cbn. lia.
Qed.

(** C5. With the bitrate unknown (negative, as [onPrepare] leaves it when
    the source has no size or the track no duration) the estimator fails
    its [CHECK_GE(mBitrate, 0)] for every probe: it never reaches the byte
    thresholds, and the cache check and a decode step on a prefetching
    source stop with it. *)
Theorem unknown_bitrate_check_fails (cfg : Config) (env : Env) (p : SfPlayer) :
  mDataSource p <> None -> mBitrate p < 0 ->
  getCacheRemaining cfg env p = Crash CheckFailed
  /\ onCheckCache cfg env p = Crash CheckFailed
  /\ (forall ds, mDataSource p = Some ds -> wantsPrefetching ds = true ->
        onDecode cfg env p = Crash CheckFailed).
Proof.
  intros Hds Hb.
  pose proof (getCacheRemaining_negative_bitrate cfg env p Hds Hb) as G.
  split; [exact G |]. split.
  - unfold onCheckCache, bind. rewrite G. reflexivity.
  - intros ds Hs Hw. unfold onDecode, wantPrefetch, bind, gets, ret.
    rewrite Hs, Hw, G. reflexivity.
Qed.

Lemma unknown_bitrate_check_fails_witness :
  mBitrate player_live = -1 /\ mDurationUsec player_live = -1
  /\ getCacheRemaining spec_config (probe 2000000 false) player_live
     = Crash CheckFailed
  /\ onCheckCache spec_config (probe 2000000 false) player_live
     = Crash CheckFailed
  /\ onDecode spec_config (probe 2000000 false) player_live = Crash CheckFailed.
Proof.
  split; [reflexivity |]. split; [reflexivity |].
  assert (Hds : mDataSource player_live <> None) by discriminate.
  assert (Hb : mBitrate player_live < 0) by reflexivity.
  pose proof (unknown_bitrate_check_fails spec_config (probe 2000000 false)
                player_live Hds Hb) as (G & C & D).
  split; [exact G |]. split; [exact C |].
  exact (D http_live eq_refl eq_refl).
Defined.

(** ** The decode step of an idle player *)

Lemma idle_not_playing p : idle p -> playing p = false.
Proof.
  unfold idle, playing. rewrite !test_lor. intros H.
  apply orb_false_iff in H. destruct H as [H _].
  apply orb_false_iff in H. tauto.
Qed.

(** C6 (amended). With none of Playing, Buffering, Preparing set, a decode
    step on a source that does not ask for prefetching does nothing.  On a
    prefetching source the estimator runs first: it may write the cache
    status, the fill level and the last notified fill level, and post
    notifications; when it reports Low without end-of-stream the step also
    sets Buffering and posts a cache check; otherwise nothing more
    happens.  The sink is never called, the pending buffer is not touched
    and no render is posted. *)
Theorem onDecode_idle (cfg : Config) (env : Env) (p : SfPlayer) :
  idle p ->
  (forall ds, mDataSource p = Some ds -> wantsPrefetching ds = false ->
     onDecode cfg env p = Done (tt, p, []))
  /\ (forall ds r p1 e1,
        mDataSource p = Some ds -> wantsPrefetching ds = true ->
        getCacheRemaining cfg env p = Done (r, p1, e1) ->
        onDecode cfg env p =
          (if CacheStatus_eqb (fst r) kStatusLow && negb (snd r)
           then Done (tt, set_mFlags (Int.set_bits (mFlags p) kFlagBuffering) p1,
                      e1 ++ [Post kWhatCheckCache 100000])
           else Done (tt, p1, e1))
        /\ Forall isNotif e1
        /\ p1 = set_mCacheStatus (mCacheStatus p1)
                  (set_mCacheFill (mCacheFill p1)
                     (set_mLastNotifiedCacheFill (mLastNotifiedCacheFill p1) p))).
Proof.
  intros Hidle. pose proof (idle_not_playing p Hidle) as Hplay.
  unfold idle, playing in *. split.
  - intros ds Hs Hw. unfold onDecode. unfold_m. rewrite Hs, Hw, Hidle.
    reflexivity.
  - intros ds r p1 e1 Hs Hw G.
    destruct (getCacheRemaining_frame _ _ _ _ _ _ G) as (F & N & _).
    split; [| auto].
    assert (Ff : mFlags p1 = mFlags p) by (rewrite F; reflexivity).
    unfold onDecode. unfold_m. rewrite Hs, Hw, G.
    destruct (CacheStatus_eqb (fst r) kStatusLow && negb (snd r)).
    + rewrite Ff, Hplay. cbn [app]. rewrite ?Ff, ?app_nil_r. reflexivity.
    + rewrite Ff, Hidle. cbn [negb app]. rewrite ?app_nil_r. reflexivity.
Qed.

Lemma onDecode_idle_witness :
  onDecode spec_config (probe 0 false) player_file = Done (tt, player_file, [])
  /\ exists p1 e1,
       getCacheRemaining spec_config (probe 2000000 false) player_30s
       = Done ((kStatusHigh, false), p1, e1)
       /\ onDecode spec_config (probe 2000000 false) player_30s
          = Done (tt, p1, e1).
Proof.
  split.
  - apply (proj1 (onDecode_idle spec_config (probe 0 false) player_file eq_refl)
             file_source); reflexivity.
  - assert (G : exists p1 e1,
               getCacheRemaining spec_config (probe 2000000 false) player_30s
               = Done ((kStatusHigh, false), p1, e1))
      by (do 2 eexists; vm_compute; reflexivity).
    destruct G as (p1 & e1 & G). exists p1, e1. split; [exact G |].
    exact (proj1 (proj2 (onDecode_idle spec_config (probe 2000000 false)
                           player_30s eq_refl)
                    http_480k _ p1 e1 eq_refl eq_refl G)).
Defined.

(** C6 as stated fails: on the prefetching 30 s stream with nothing cached
    and no flag set, the decode step sets Buffering and posts a cache
    check. *)
Lemma onDecode_idle_rebuffers :
  idle player_30s
  /\ exists p' e,
       onDecode spec_config (probe 0 false) player_30s = Done (tt, p', e)
       /\ mFlags player_30s = 0
       /\ mFlags p' = kFlagBuffering
       /\ In (Post kWhatCheckCache 100000) e
       /\ p' <> player_30s.
Proof.
  split; [reflexivity |].
  do 2 eexists. split; [vm_compute; reflexivity |].
  split; [reflexivity |]. split; [reflexivity |]. split.
  - cbn. auto.
  - intros E. apply (f_equal mFlags) in E. discriminate E.
Qed.

(** ** Setting the data source when the allocation fails *)

Lemma set_mDataLocatorType_same p :
  set_mDataLocatorType (mDataLocatorType p) p = p.
Proof. destruct p. reflexivity. Qed.

(** C9 (amended). When the copy of the URI cannot be allocated,
    [setDataSource(uri)] logs the error and leaves the locator in the None
    state: the locator was reset before the allocation, so a URI held
    before is freed and a descriptor range is forgotten.  The rest of the
    player is unchanged; the locator state is the prior one only when that
    was None already. *)
Theorem setDataSource_uri_alloc_failure (uri : string) (p : SfPlayer) :
  exists p' e,
    setDataSource_uri uri false p = Done (tt, p', e)
    /\ mDataLocatorType p' = kDataLocatorNone
    /\ In LogE e
    /\ p' = set_mDataLocatorType kDataLocatorNone
              (set_mDataLocator (mDataLocator p') p)
    /\ (mDataLocatorType p = kDataLocatorNone -> p' = p /\ e = [LogE])
    /\ (forall s, mDataLocatorType p = kDataLocatorUri ->
          loc_uri (mDataLocator p) = Some s ->
          In (Free s) e /\ loc_uri (mDataLocator p') = None)
    /\ (mDataLocatorType p = kDataLocatorFd -> mDataLocator p' = mDataLocator p).
Proof.
  unfold setDataSource_uri, resetDataLocator. unfold_m.
  destruct (mDataLocatorType p) eqn:T;
    [| destruct (loc_uri (mDataLocator p)) as [s0 |] eqn:U |];
    do 2 eexists; (split; [reflexivity |]); psimpl;
    repeat split; intros; try discriminate; try reflexivity;
    try (cbn; auto; fail).
  - rewrite <- T. apply set_mDataLocatorType_same.
  - left. congruence.
Qed.

Lemma setDataSource_uri_alloc_failure_witness :
  exists p' e,
    setDataSource_uri "http://host/b.mp3" false player_30s = Done (tt, p', e)
    /\ mDataLocatorType p' = kDataLocatorNone
    /\ In (Free "http://host/a.mp3"%string) e
    /\ loc_uri (mDataLocator p') = None.
Proof.
  destruct (setDataSource_uri_alloc_failure "http://host/b.mp3" player_30s)
    as (p' & e & R & N & _ & _ & _ & U & _).
  exists p', e. split; [exact R |]. split; [exact N |].
  exact (U "http://host/a.mp3"%string eq_refl eq_refl).
Defined.

(** C9 as stated fails: with a URI held before the call, a failed
    allocation leaves the locator in the None state and the held string
    freed, not as it was. *)
Lemma setDataSource_uri_failure_resets :
  exists p' e,
    setDataSource_uri "http://host/b.mp3" false player_30s = Done (tt, p', e)
    /\ mDataLocatorType player_30s = kDataLocatorUri
    /\ loc_uri (mDataLocator player_30s) = Some "http://host/a.mp3"%string
    /\ mDataLocatorType p' = kDataLocatorNone
    /\ loc_uri (mDataLocator p') = None
    /\ (mDataLocatorType p', mDataLocator p')
       <> (mDataLocatorType player_30s, mDataLocator player_30s).
Proof.
  do 2 eexists. split; [vm_compute; reflexivity |].
  repeat split; try reflexivity. intros E. discriminate E.
Qed.

(** ** Seeking and the reported position *)

Lemma quot_1000_small t : 0 <= t < 1000 * 2 ^ 32 ->
  Int.to_uint32 (Z.quot t 1000) = t / 1000.
Proof.
  intros H. rewrite Z.quot_div_nonneg by lia.
  apply to_uint32_small. split.
  - apply Z.div_pos; lia.
  - apply Z.div_lt_upper_bound; lia.
Qed.

(** A decode step that performed its read on a frame clears Seeking. *)
Lemma onDecode_read_clears cfg env p r p' e o b :
  onDecode cfg env p = Done (r, p', e) ->
  In (SourceRead o) e -> env_read env = ReadOK b ->
  seeking p' = false
  /\ exists t, meta_kKeyTime b = Some t /\ mLastDecodedPositionUs p' = t.
Proof.
  intros H Hin Hr.
  assert (NoRead : forall l : list Effect, Forall isNotif l -> ~ In (SourceRead o) l).
  { intros l F I. rewrite Forall_forall in F. apply F in I. exact I. }
  revert H Hin. unfold onDecode, seeking. unfold_m. rewrite Hr. intros H Hin.
  repeat (split_match; done_inv; try discriminate);
    repeat match goal with
      | G : getCacheRemaining _ _ _ = Done _ |- _ =>
          apply getCacheRemaining_frame in G; destruct G as (? & ? & ?)
      end.
  all: try (exfalso; rewrite ?app_nil_r in Hin; cbn [app] in Hin;
            repeat (apply in_app_or in Hin; destruct Hin as [Hin | Hin]);
            first [ eapply NoRead; eassumption
                  | cbn in Hin; intuition discriminate ]).
  all: psimpl;
    match goal with
    | |- context [if ?c then _ else _] => destruct c eqn:Hs
    end; psimpl;
    (split; [first [apply test_clear_same | exact Hs] |]);
    eexists; split; reflexivity.
Qed.

Lemma step_clears_seek cfg env msg p r p' e :
  onMessageReceived cfg env msg p = Done (r, p', e) ->
  seeking p = true -> seeking p' = false ->
  msg = kWhatDecode
  /\ exists b t o,
      env_read env = ReadOK b /\ meta_kKeyTime b = Some t
      /\ mLastDecodedPositionUs p' = t /\ In (SourceRead o) e.
Proof.
  intros H S S'. destruct msg as [| | | | key value | | | target];
    try (apply step_keeps_seek in H; [| cbn; tauto | cbn; tauto];
         destruct H as (K & _); congruence).
  - split; [reflexivity |]. cbn in H. apply onDecode_transport in H.
    destruct H as (_ & _ & [[K _] | [_ C]]); [congruence | exact C].
  - cbn in H. destruct target as [T |].
    + destruct (onSeek_result T p) as (q & R & Q & _).
      rewrite R in H. done_inv. congruence.
    + discriminate H.
Qed.

(** C1 (amended). [getPositionMsec] returns a [uint32_t].  After the seek
    handler applies [seek(T)], Seeking is set and [getPositionMsec()]
    returns [T] truncated to 32 bits, which is [T] whenever
    [0 <= T < 2^32], and keeps doing so across every delivery other than a
    seek that leaves Seeking set.  Seeking is cleared only by a decode step
    whose read returns a frame, and every decode step that reads a frame
    clears it; [getPositionMsec()] then returns the frame's timestamp
    divided by 1000, truncated to 32 bits (0 for a negative timestamp).
    With Seeking clear and the last decoded position unknown it returns
    0. *)
Theorem seek_position (cfg : Config) :
  (forall T p, exists p',
      onSeek (Some T) p = Done (tt, p', [])
      /\ seeking p' = true
      /\ getPositionMsec p' = Int.to_uint32 T
      /\ (0 <= T < 2 ^ 32 -> getPositionMsec p' = T))
  /\ (forall env msg p r p' e,
        onMessageReceived cfg env msg p = Done (r, p', e) ->
        ~ isSeekMsg (msg, env) ->
        seeking p = true -> seeking p' = true ->
        getPositionMsec p' = getPositionMsec p)
  /\ (forall env msg p r p' e,
        onMessageReceived cfg env msg p = Done (r, p', e) ->
        seeking p = true -> seeking p' = false ->
        msg = kWhatDecode
        /\ exists b t o,
            env_read env = ReadOK b /\ meta_kKeyTime b = Some t
            /\ In (SourceRead o) e
            /\ getPositionMsec p' =
                 (if t <? 0 then 0 else Int.to_uint32 (Z.quot t 1000))
            /\ (0 <= t < 1000 * 2 ^ 32 -> getPositionMsec p' = t / 1000))
  /\ (forall env p r p' e o b,
        onDecode cfg env p = Done (r, p', e) ->
        In (SourceRead o) e -> env_read env = ReadOK b ->
        seeking p' = false
        /\ exists t,
            meta_kKeyTime b = Some t
            /\ getPositionMsec p' =
                 (if t <? 0 then 0 else Int.to_uint32 (Z.quot t 1000)))
  /\ (forall p,
        seeking p = false -> mLastDecodedPositionUs p < 0 ->
        getPositionMsec p = 0).
Proof.
  split; [| split; [| split; [| split]]].
  - intros T p. destruct (onSeek_result T p) as (p' & R & S & M & _).
    exists p'. split; [exact R |]. split; [exact S |].
    rewrite (getPositionMsec_seeking p' S), M. split; [reflexivity |].
    apply to_uint32_small.
  - intros env msg p r p' e H NS S S'.
    rewrite (getPositionMsec_seeking p S), (getPositionMsec_seeking p' S').
    f_equal. destruct msg as [| | | | key value | | | target];
      try (apply step_keeps_seek in H;
           [tauto | exact NS | cbn; tauto]).
    cbn in H. apply onDecode_transport in H. tauto.
  - intros env msg p r p' e H S S'.
    destruct (step_clears_seek _ _ _ _ _ _ _ H S S')
      as (M & b & t & o & R & K & L & I).
    split; [exact M |]. exists b, t, o.
    split; [exact R |]. split; [exact K |]. split; [exact I |].
    rewrite (getPositionMsec_decoded p' S'), L. split; [reflexivity |].
    intros Ht. assert (N : (t <? 0) = false) by (apply Z.ltb_ge; lia).
    rewrite N. apply quot_1000_small, Ht.
  - intros env p r p' e o b H Hin Hr.
    destruct (onDecode_read_clears _ _ _ _ _ _ _ _ H Hin Hr) as (S & t & M & L).
    split; [exact S |]. exists t. split; [exact M |].
    rewrite (getPositionMsec_decoded p' S), L. reflexivity.
  - intros p S L. rewrite (getPositionMsec_decoded p S).
    apply Z.ltb_lt in L. rewrite L. reflexivity.
Qed.

Lemma seek_position_witness :
  (exists p',
      onSeek (Some 5000) player_30s = Done (tt, p', [])
      /\ seeking p' = true /\ getPositionMsec p' = 5000)
  /\ (exists p' e,
        onMessageReceived spec_config (probe 0 false) kWhatRender
          player_30s_seek_29s = Done (tt, p', e)
        /\ getPositionMsec p' = getPositionMsec player_30s_seek_29s)
  /\ (exists p' e,
        onMessageReceived spec_config (reads (ReadOK frame_2500ms) 0 0)
          kWhatDecode
          (set_mFlags (Z.lor kFlagPlaying kFlagSeeking) player_30s_seek_29s)
        = Done (tt, p', e)
        /\ seeking p' = false
        /\ getPositionMsec p' = 2500000 / 1000)
  /\ getPositionMsec SfPlayer_new = 0.
Proof.
  split; [| split; [| split]].
  - destruct (proj1 (seek_position spec_config) 5000 player_30s)
      as (p' & R & S & _ & P).
    exists p'. split; [exact R |]. split; [exact S |].
    apply P. lia.
  - assert (R : exists p' e,
               onMessageReceived spec_config (probe 0 false) kWhatRender
                 player_30s_seek_29s = Done (tt, p', e)
               /\ seeking p' = true)
      by (do 2 eexists; split; vm_compute; reflexivity).
    destruct R as (p' & e & R & S). exists p', e. split; [exact R |].
    refine (proj1 (proj2 (seek_position spec_config)) _ _ _ _ _ _ R _ eq_refl S).
    intros F. exact F.
  - assert (R : exists p' e,
               onMessageReceived spec_config (reads (ReadOK frame_2500ms) 0 0)
                 kWhatDecode
                 (set_mFlags (Z.lor kFlagPlaying kFlagSeeking) player_30s_seek_29s)
               = Done (tt, p', e)
               /\ seeking p' = false)
      by (do 2 eexists; split; vm_compute; reflexivity).
    destruct R as (p' & e & R & S). exists p', e. split; [exact R |].
    split; [exact S |].
    destruct (proj1 (proj2 (proj2 (seek_position spec_config)))
                _ _ _ _ _ _ R eq_refl S)
      as (_ & b & t & o & Q & K & _ & _ & P).
    injection Q as <-. injection K as <-. apply P. lia.
  - apply (proj2 (proj2 (proj2 (proj2 (seek_position spec_config))))).
    + reflexivity.
    + reflexivity.
Defined.

(** C1 as stated fails for a target outside the range of [uint32_t]: after
    [seek(4294967296)] is applied, [getPositionMsec()] returns 0. *)
Lemma seek_beyond_uint32 :
  exists p',
    onSeek (Some 4294967296) player_30s = Done (tt, p', [])
    /\ seeking p' = true
    /\ getPositionMsec p' = 0
    /\ getPositionMsec p' <> 4294967296.
Proof.
  eexists. split; [vm_compute; reflexivity |].
  split; [reflexivity |]. split; [reflexivity |]. discriminate.
Qed.

(** ** Stop *)

(** C8 (amended). With a sink bound, [stop()] calls the sink's [stop]
    (not [pause]), then posts a pause message and a seek to 0, and changes
    nothing itself.  Once the looper has delivered the pause and then the
    seek, with no play message after the pause and neither a seek nor a
    decode that reads a frame after the seek, Playing is clear, Seeking is
    set and [getPositionMsec()] returns 0. *)
Theorem stop_with_track (cfg : Config) :
  (forall p, mAudioTrack p = true ->
     stop p = Done (tt, p, [TrackStop; Post kWhatPause 0;
                            Post (kWhatSeek (Some 0)) 0]))
  /\ (forall env1 env2 ms2 ms3 q r q' e,
        deliver cfg ((kWhatPause, env1) :: ms2
                     ++ (kWhatSeek (Some 0), env2) :: ms3) q
        = Done (r, q', e) ->
        Forall (fun d => ~ isPlayMsg d) (ms2 ++ ms3) ->
        Forall (fun d => ~ isSeekMsg d /\ ~ decodesFrame d) ms3 ->
        playing q' = false /\ seeking q' = true /\ getPositionMsec q' = 0).
Proof.
  split.
  - intros p H. unfold stop, seek. unfold_m. rewrite H. cbn [negb]. rewrite H.
    reflexivity.
  - intros env1 env2 ms2 ms3 q r q' e H NP NS.
    apply Forall_app in NP. destruct NP as [NP2 NP3].
    apply deliver_cons in H. destruct H as (r1 & q1 & e1 & e2 & P & H & _).
    apply deliver_app in H. destruct H as (q2 & e3 & e4 & D2 & H & _).
    apply deliver_cons in H. destruct H as (r3 & q3 & e5 & e6 & K & D3 & _).
    assert (P1 : playing q1 = false).
    { cbn [onMessageReceived] in P. unfold onPause in P. unfold_m. done_inv. unfold playing.
      psimpl. apply test_clear_same. }
    pose proof (deliver_keeps_paused _ _ _ _ _ _ D2 NP2 P1) as P2.
    cbn [onMessageReceived] in K. destruct (onSeek_result 0 q2) as (q3' & R & S3 & M3 & _ & _ & P3).
    rewrite R in K. done_inv.
    pose proof (deliver_keeps_seek _ _ _ _ _ _ D3 NS) as (S4 & M4 & _).
    split; [| split].
    + eapply deliver_keeps_paused; [exact D3 | exact NP3 | congruence].
    + congruence.
    + rewrite getPositionMsec_seeking by congruence. rewrite M4, M3.
      reflexivity.
Qed.

Lemma stop_with_track_witness :
  stop player_30s
  = Done (tt, player_30s, [TrackStop; Post kWhatPause 0;
                           Post (kWhatSeek (Some 0)) 0])
  /\ exists q' e,
       deliver spec_config
         ((kWhatPause, probe 0 false)
          :: [] ++ (kWhatSeek (Some 0), probe 0 false)
                   :: [(kWhatRender, probe 0 false)])
         player_30s_pending = Done (tt, q', e)
       /\ playing q' = false /\ seeking q' = true /\ getPositionMsec q' = 0.
Proof.
  split.
  - apply (proj1 (stop_with_track spec_config) player_30s). reflexivity.
  - assert (D : exists q' e,
               deliver spec_config
                 ((kWhatPause, probe 0 false)
                  :: [] ++ (kWhatSeek (Some 0), probe 0 false)
                           :: [(kWhatRender, probe 0 false)])
                 player_30s_pending = Done (tt, q', e))
      by (do 2 eexists; vm_compute; reflexivity).
    destruct D as (q' & e & D). exists q', e. split; [exact D |].
    refine (proj2 (stop_with_track spec_config) _ _ _ _ _ _ _ _ D _ _).
    + constructor; [| constructor]. intros F. exact F.
    + constructor; [| constructor]. split; intros F; exact F.
Defined.

(** C8 as stated fails: [stop()] does not pause the sink, it stops it. *)
Lemma stop_does_not_pause_sink :
  exists p' e,
    stop player_30s = Done (tt, p', e)
    /\ mAudioTrack player_30s = true
    /\ In TrackStop e
    /\ ~ In TrackPause e.
Proof.
  do 2 eexists. split; [vm_compute; reflexivity |].
  split; [reflexivity |]. split.
  - left. reflexivity.
  - cbn. intros [F | [F | [F | F]]]; try discriminate F. exact F.
Qed.

(** * Further properties *)

(** ** Updates that write a field's own value *)

Lemma set_mFlags_same p : set_mFlags (mFlags p) p = p.
Proof. destruct p. reflexivity. Qed.

Lemma set_mTimeDelta_same p : set_mTimeDelta (mTimeDelta p) p = p.
Proof. destruct p. reflexivity. Qed.

Lemma set_mDecodeBuffer_same p : set_mDecodeBuffer (mDecodeBuffer p) p = p.
Proof. destruct p. reflexivity. Qed.

Lemma clear_bits_unset f k : Int.test f k = false -> Int.clear_bits f k = f.
Proof.
  unfold Int.test, Int.clear_bits. intros H.
  apply negb_false_iff, Z.eqb_eq in H.
  apply Z.bits_inj'. intros n Hn.
  assert (B : Z.testbit (Z.land f k) n = false) by (rewrite H; apply Z.bits_0).
  rewrite Z.land_spec in B. rewrite Z.land_spec, Z.lnot_spec by exact Hn.
  destruct (Z.testbit f n), (Z.testbit k n); simpl in *; congruence.
Qed.

Lemma to_int64_small x : int64 x -> Int.to_int64 x = x.
Proof.
  unfold int64, Int.to_int64, Int.wrap_signed. intros H.
  change (2 ^ (64 - 1)) with (2 ^ 63). change (2 ^ 64) with (2 * 2 ^ 63).
  rewrite Z.mod_small by lia. lia.
Qed.

(** ** The decode step, in two parts *)

Lemma onDecode_unfold cfg env :
  onDecode cfg env =
    (w <- wantPrefetch ;;
     rebuffer <-
       (if w then
          r <- getCacheRemaining cfg env ;;
          ret (CacheStatus_eqb (fst r) kStatusLow && negb (snd r))
        else ret false) ;;
     if rebuffer then
       playing <- flagSet kFlagPlaying ;;
       when playing (audioTrack TrackPause) ;;
       modify (fun p => set_mFlags (Int.set_bits (mFlags p) kFlagBuffering) p) ;;
       post kWhatCheckCache 100000
     else
       active <- flagSet (Z.lor (Z.lor kFlagPlaying kFlagBuffering) kFlagPreparing) ;;
       if negb active then ret tt else readFrame env).
Proof. reflexivity. Qed.

(** The three ways into the tail of [onDecode]. *)
Lemma onDecode_no_prefetch cfg env p ds :
  mDataSource p = Some ds -> wantsPrefetching ds = false ->
  onDecode cfg env p = if active p then readFrame env p else Done (tt, p, []).
Proof.
  intros Hs Hw. rewrite onDecode_unfold. unfold active. unfold_m.
  rewrite Hs, Hw.
  destruct (Int.test (mFlags p) _); cbn [negb].
  - destruct (readFrame env p) as [[[u q] e] |]; reflexivity.
  - reflexivity.
Qed.

Lemma onDecode_prefetch cfg env p ds r p1 e1 :
  mDataSource p = Some ds -> wantsPrefetching ds = true ->
  getCacheRemaining cfg env p = Done (r, p1, e1) ->
  CacheStatus_eqb (fst r) kStatusLow && negb (snd r) = false ->
  onDecode cfg env p =
    if active p then
      match readFrame env p1 with
      | Done (u, p2, e2) => Done (u, p2, e1 ++ e2)
      | Crash f => Crash f
      end
    else Done (tt, p1, e1).
Proof.
  intros Hs Hw G L. rewrite onDecode_unfold. unfold active.
  destruct (getCacheRemaining_frame _ _ _ _ _ _ G) as (F & _).
  assert (Ff : mFlags p1 = mFlags p) by (rewrite F; reflexivity).
  unfold_m. rewrite Hs, Hw, G, L, Ff.
  destruct (Int.test (mFlags p) _); cbn [negb].
  - destruct (readFrame env p1) as [[[u q] e] |]; [| reflexivity].
    rewrite !app_nil_r. reflexivity.
  - rewrite !app_nil_r. reflexivity.
Qed.

Lemma onDecode_rebuffer cfg env p ds r p1 e1 :
  mDataSource p = Some ds -> wantsPrefetching ds = true ->
  getCacheRemaining cfg env p = Done (r, p1, e1) ->
  CacheStatus_eqb (fst r) kStatusLow && negb (snd r) = true ->
  onDecode cfg env p =
    if playing p && negb (mAudioTrack p) then Crash NullDereference
    else Done (tt, set_mFlags (Int.set_bits (mFlags p) kFlagBuffering) p1,
               e1 ++ (if playing p then [TrackPause] else [])
                  ++ [Post kWhatCheckCache 100000]).
Proof.
  intros Hs Hw G L. rewrite onDecode_unfold. unfold playing.
  destruct (getCacheRemaining_frame _ _ _ _ _ _ G) as (F & _).
  assert (Ff : mFlags p1 = mFlags p) by (rewrite F; reflexivity).
  assert (Ft : mAudioTrack p1 = mAudioTrack p) by (rewrite F; reflexivity).
  unfold_m. rewrite Hs, Hw, G, L, Ff.
  destruct (Int.test (mFlags p) kFlagPlaying); cbn [andb negb].
  - rewrite Ft. destruct (mAudioTrack p); cbn [negb].
    + rewrite Ff, !app_nil_r. reflexivity.
    + reflexivity.
  - rewrite Ff, !app_nil_r. reflexivity.
Qed.

(** What the read part does, by what the read returns. *)
Lemma readFrame_no_source env p :
  mAudioSource p = false -> readFrame env p = Crash NullDereference.
Proof.
  intros H. unfold readFrame. unfold_m.
  destruct (mDecodeBuffer p); psimpl; rewrite H; reflexivity.
Qed.

Lemma readFrame_ok env p b t :
  mAudioSource p = true -> env_read env = ReadOK b -> meta_kKeyTime b = Some t ->
  let td := if mTimeDelta p <? 0 then Int.to_int64 (fst (env_GetNowUs env) - t)
            else mTimeDelta p in
  readFrame env p =
    Done (tt,
          set_mTimeDelta td
            (set_mFlags (Int.clear_bits (mFlags p) kFlagSeeking)
               (set_mLastDecodedPositionUs t (set_mDecodeBuffer (Some b) p))),
          pendingRelease p
            ++ [SourceRead (readOptionsOf p);
                Post kWhatRender
                  (Int.to_int64 (Int.to_int64 (t + td) - snd (env_GetNowUs env)))]).
Proof.
  intros Hs Hr Ht td. subst td.
  unfold readFrame, pendingRelease, readOptionsOf, seeking. unfold_m.
  rewrite Hr, Ht.
  destruct (mDecodeBuffer p) as [b0 |]; psimpl; rewrite Hs; psimpl;
    destruct (Int.test (mFlags p) kFlagSeeking) eqn:S; psimpl;
    destruct (mTimeDelta p <? 0) eqn:D; psimpl;
    rewrite ?(clear_bits_unset _ _ S);
    repeat f_equal; destruct p; reflexivity.
Qed.

Lemma readFrame_no_timestamp env p b :
  mAudioSource p = true -> env_read env = ReadOK b -> meta_kKeyTime b = None ->
  readFrame env p = Crash CheckFailed.
Proof.
  intros Hs Hr Ht. unfold readFrame. unfold_m. rewrite Hr, Ht.
  destruct (mDecodeBuffer p); psimpl; rewrite Hs; reflexivity.
Qed.

Lemma readFrame_eos env p :
  mAudioSource p = true -> env_read env = ReadEndOfStream ->
  readFrame env p =
    Done (tt, set_mDecodeBuffer None p,
          pendingRelease p
            ++ SourceRead (readOptionsOf p)
               :: (if playing p then [Post (kWhatNotif EVENT_ENDOFSTREAM 1) 0]
                   else [])).
Proof.
  intros Hs Hr. unfold readFrame, pendingRelease, readOptionsOf, seeking, playing.
  unfold_m. rewrite Hr.
  destruct (mDecodeBuffer p) as [b0 |] eqn:B; psimpl; rewrite Hs; psimpl;
    destruct (Int.test (mFlags p) kFlagPlaying); psimpl;
    repeat f_equal; destruct p; cbn in *; subst; reflexivity.
Qed.

Lemma readFrame_error env p err :
  mAudioSource p = true -> env_read env = ReadError err ->
  readFrame env p =
    Done (tt, set_mDecodeBuffer None p,
          pendingRelease p ++ [SourceRead (readOptionsOf p); LogE]).
Proof.
  intros Hs Hr. unfold readFrame, pendingRelease, readOptionsOf, seeking.
  unfold_m. rewrite Hr.
  destruct (mDecodeBuffer p) as [b0 |] eqn:B; psimpl; rewrite Hs; psimpl;
    repeat f_equal; destruct p; cbn in *; subst; reflexivity.
Qed.

Lemma notifs_no_read (l : list Effect) o : Forall isNotif l -> ~ In (SourceRead o) l.
Proof. intros F I. rewrite Forall_forall in F. apply F in I. exact I. Qed.

Lemma cache_fields_same p :
  p = set_mCacheStatus (mCacheStatus p)
        (set_mCacheFill (mCacheFill p)
           (set_mLastNotifiedCacheFill (mLastNotifiedCacheFill p) p)).
Proof. destruct p. reflexivity. Qed.

(** A decode step whose effects show a read went through the read part, on
    the player as the estimator left it. *)
Lemma onDecode_reads cfg env p r p' e o :
  onDecode cfg env p = Done (r, p', e) -> In (SourceRead o) e ->
  exists p1 e1 e2,
    e = e1 ++ e2 /\ Forall isNotif e1
    /\ readFrame env p1 = Done (tt, p', e2)
    /\ p1 = set_mCacheStatus (mCacheStatus p1)
              (set_mCacheFill (mCacheFill p1)
                 (set_mLastNotifiedCacheFill (mLastNotifiedCacheFill p1) p))
    /\ active p = true.
Proof.
  intros H Hin.
  destruct (mDataSource p) as [ds |] eqn:Hs.
  2:{ rewrite onDecode_unfold in H. unfold_m. rewrite Hs in H. discriminate H. }
  destruct (wantsPrefetching ds) eqn:Hw.
  - destruct (getCacheRemaining cfg env p) as [[[r1 p1] e1] |] eqn:G.
    2:{ rewrite onDecode_unfold in H. unfold_m. rewrite Hs, Hw, G in H.
        discriminate H. }
    destruct (getCacheRemaining_frame _ _ _ _ _ _ G) as (F & N & _).
    destruct (CacheStatus_eqb (fst r1) kStatusLow && negb (snd r1)) eqn:L.
    + rewrite (onDecode_rebuffer _ _ _ _ _ _ _ Hs Hw G L) in H.
      destruct (playing p && negb (mAudioTrack p)); [discriminate H |].
      done_inv. exfalso.
      apply in_app_or in Hin. destruct Hin as [Hin | Hin].
      * exact (notifs_no_read _ _ N Hin).
      * destruct (playing p); cbn in Hin; intuition discriminate.
    + rewrite (onDecode_prefetch _ _ _ _ _ _ _ Hs Hw G L) in H.
      destruct (active p) eqn:A.
      * destruct (readFrame env p1) as [[[u q] e2] |] eqn:R; [| discriminate H].
        done_inv. repeat match goal with x : unit |- _ => destruct x end.
        exists p1, e1, e2. auto.
      * done_inv. exfalso. exact (notifs_no_read _ _ N Hin).
  - rewrite (onDecode_no_prefetch _ _ _ _ Hs Hw) in H.
    destruct (active p) eqn:A.
    + destruct r. exists p, [], e. repeat split; auto.
      apply cache_fields_same.
    + done_inv. destruct Hin.
Qed.

(** The read part reads once, after releasing what was pending. *)
Lemma readFrame_effects env p u p' e :
  readFrame env p = Done (u, p', e) ->
  exists rest,
    e = pendingRelease p ++ SourceRead (readOptionsOf p) :: rest
    /\ (forall o, ~ In (SourceRead o) rest)
    /\ filter isRelease rest = []
    /\ mDecodeBuffer p' =
         match env_read env with
         | ReadOK b => Some b
         | _ => None
         end.
Proof.
  intros H. destruct (mAudioSource p) eqn:Hs.
  2:{ rewrite (readFrame_no_source _ _ Hs) in H. discriminate H. }
  destruct (env_read env) as [b | | err] eqn:Hr.
  - destruct (meta_kKeyTime b) as [t |] eqn:Ht.
    + rewrite (readFrame_ok _ _ _ _ Hs Hr Ht) in H. done_inv.
      eexists. split; [reflexivity |]. repeat split.
      intros o [F | F]; [discriminate F | exact F].
    + rewrite (readFrame_no_timestamp _ _ _ Hs Hr Ht) in H. discriminate H.
  - rewrite (readFrame_eos _ _ Hs Hr) in H. done_inv.
    eexists. split; [reflexivity |].
    destruct (playing p); repeat split; cbn; intuition discriminate.
  - rewrite (readFrame_error _ _ _ Hs Hr) in H. done_inv.
    eexists. split; [reflexivity |]. repeat split.
    intros o [F | F]; [discriminate F | exact F].
Qed.

Lemma cache_fields_pendingRelease p s f l :
  pendingRelease (set_mCacheStatus s (set_mCacheFill f (set_mLastNotifiedCacheFill l p)))
  = pendingRelease p.
Proof. reflexivity. Qed.

Lemma cache_fields_readOptionsOf p s f l :
  readOptionsOf (set_mCacheStatus s (set_mCacheFill f (set_mLastNotifiedCacheFill l p)))
  = readOptionsOf p.
Proof. reflexivity. Qed.

Lemma filter_notifs_release (l : list Effect) :
  Forall isNotif l -> filter isRelease l = [].
Proof.
  induction 1 as [| x l Hx _ IH]; [reflexivity |].
  cbn. rewrite IH. destruct x; try contradiction. reflexivity.
Qed.

Lemma filter_notifs_read (l : list Effect) :
  Forall isNotif l -> filter isSourceRead l = [].
Proof.
  induction 1 as [| x l Hx _ IH]; [reflexivity |].
  cbn. rewrite IH. destruct x; try contradiction. reflexivity.
Qed.

Lemma filter_no_read (l : list Effect) :
  (forall o, ~ In (SourceRead o) l) -> filter isSourceRead l = [].
Proof.
  induction l as [| x l IH]; intros NR; [reflexivity |].
  cbn. destruct x; cbn;
    try (apply IH; intros o I; apply (NR o); right; exact I).
  exfalso. apply (NR seekTo). left. reflexivity.
Qed.

(** Every read a decode step makes carries the options built from the
    player it started on. *)
Lemma decode_seek_target_aux cfg env p r p' e :
  onDecode cfg env p = Done (r, p', e) ->
  (forall o, In (SourceRead o) e -> o = readOptionsOf p)
  /\ (forall o, In (SourceRead o) e ->
        List.length (filter isSourceRead e) = 1%nat).
Proof.
  intros H.
  assert (A : forall o, In (SourceRead o) e ->
              o = readOptionsOf p
              /\ List.length (filter isSourceRead e) = 1%nat).
  { intros o Hin.
    destruct (onDecode_reads _ _ _ _ _ _ _ H Hin)
      as (p1 & e1 & e2 & E & N & R & F & _).
    destruct (readFrame_effects _ _ _ _ _ R) as (rest & E2 & NR & _).
    rewrite F, cache_fields_pendingRelease, cache_fields_readOptionsOf in E2.
    subst e e2. split.
    - apply in_app_or in Hin. destruct Hin as [Hin | Hin].
      + exfalso. exact (notifs_no_read _ _ N Hin).
      + apply in_app_or in Hin. destruct Hin as [Hin | [Hin | Hin]].
        * unfold pendingRelease in Hin. destruct (mDecodeBuffer p); cbn in Hin;
            intuition discriminate.
        * injection Hin as <-. reflexivity.
        * exfalso. exact (NR _ Hin).
    - rewrite !filter_app, (filter_notifs_read _ N). cbn.
      rewrite (filter_no_read _ NR).
      unfold pendingRelease. destruct (mDecodeBuffer p); reflexivity. }
  split; intros o Hin; apply (A o Hin).
Qed.

(** X1. A decode step passes a seek target to the source exactly while
    Seeking is set: the options of every read it makes are the pending
    target in microseconds when Seeking is set, and empty otherwise; and it
    reads at most once. *)
Theorem decode_seek_target (cfg : Config) (env : Env) (p : SfPlayer) r p' e :
  onDecode cfg env p = Done (r, p', e) ->
  (forall o, In (SourceRead o) e ->
     o = (if seeking p then Some (Int.to_int64 (mSeekTimeMsec p * 1000))
          else None))
  /\ (List.length (filter isSourceRead e) <= 1)%nat.
Proof.
  intros H. destruct (decode_seek_target_aux _ _ _ _ _ _ H) as (A1 & A2).
  split.
  - intros o Hin. exact (A1 o Hin).
  - destruct (filter isSourceRead e) as [| x l] eqn:Fl; [cbn; lia |].
    assert (I : In x (filter isSourceRead e)) by (rewrite Fl; left; reflexivity).
    apply filter_In in I. destruct I as [I Hx].
    destruct x; try discriminate Hx.
    pose proof (A2 _ I) as L. rewrite L. lia.
Qed.

Lemma decode_seek_target_witness :
  exists p' e,
    onDecode spec_config (reads (ReadOK frame_2500ms) 0 0)
      (set_mFlags (Z.lor kFlagPlaying kFlagSeeking) player_30s_seek_29s)
    = Done (tt, p', e)
    /\ In (SourceRead (Some 29000000)) e.
Proof.
  assert (R : exists p' e,
             onDecode spec_config (reads (ReadOK frame_2500ms) 0 0)
               (set_mFlags (Z.lor kFlagPlaying kFlagSeeking) player_30s_seek_29s)
             = Done (tt, p', e)
             /\ exists o, In (SourceRead o) e).
  { do 2 eexists. split; [vm_compute; reflexivity |].
    eexists. cbn. repeat (first [left; reflexivity | right]). }
  destruct R as (p' & e & R & o & I). exists p', e. split; [exact R |].
  pose proof (proj1 (decode_seek_target _ _ _ _ _ _ R) o I) as E.
  rewrite E in I. exact I.
Defined.

Lemma onDecode_skips cfg env p r p' e :
  onDecode cfg env p = Done (r, p', e) ->
  (forall o, ~ In (SourceRead o) e) ->
  mDecodeBuffer p' = mDecodeBuffer p /\ filter isRelease e = []
  /\ mLastDecodedPositionUs p' = mLastDecodedPositionUs p
  /\ mTimeDelta p' = mTimeDelta p.
Proof.
  intros H NR.
  destruct (mDataSource p) as [ds |] eqn:Hs.
  2:{ rewrite onDecode_unfold in H. unfold_m. rewrite Hs in H. discriminate H. }
  assert (RF : forall q u q' e2 pre,
             readFrame env q = Done (u, q', e2) -> e = pre ++ e2 -> False).
  { intros q u q' e2 pre R E.
    destruct (readFrame_effects _ _ _ _ _ R) as (rest & E2 & _).
    apply (NR (readOptionsOf q)). rewrite E, E2.
    apply in_or_app. right. apply in_or_app. right. left. reflexivity. }
  destruct (wantsPrefetching ds) eqn:Hw.
  - destruct (getCacheRemaining cfg env p) as [[[r1 p1] e1] |] eqn:G.
    2:{ rewrite onDecode_unfold in H. unfold_m. rewrite Hs, Hw, G in H.
        discriminate H. }
    destruct (getCacheRemaining_frame _ _ _ _ _ _ G) as (F & N & _).
    destruct (CacheStatus_eqb (fst r1) kStatusLow && negb (snd r1)) eqn:L.
    + rewrite (onDecode_rebuffer _ _ _ _ _ _ _ Hs Hw G L) in H.
      destruct (playing p && negb (mAudioTrack p)); [discriminate H |].
      done_inv. psimpl. rewrite F. psimpl. repeat split.
      rewrite !filter_app, (filter_notifs_release _ N).
      destruct (playing p); reflexivity.
    + rewrite (onDecode_prefetch _ _ _ _ _ _ _ Hs Hw G L) in H.
      destruct (active p).
      * destruct (readFrame env p1) as [[[u q] e2] |] eqn:R; [| discriminate H].
        done_inv. exfalso. exact (RF _ _ _ _ _ R eq_refl).
      * done_inv. rewrite F. psimpl. repeat split.
        apply filter_notifs_release, N.
  - rewrite (onDecode_no_prefetch _ _ _ _ Hs Hw) in H.
    destruct (active p).
    + exfalso. exact (RF _ _ _ _ [] H eq_refl).
    + done_inv. repeat split.
Qed.

(** X2. A decode step that reads releases the frame that was pending, once
    and before the read, and leaves in the slot the frame it read, or nothing
    when the read returned end-of-stream or an error.  A decode step that
    does not read releases nothing and leaves the slot as it was. *)
Theorem decode_buffer_ownership (cfg : Config) (env : Env) (p : SfPlayer) r p' e :
  onDecode cfg env p = Done (r, p', e) ->
  (forall o, In (SourceRead o) e ->
     filter isRelease e = pendingRelease p
     /\ (exists e1 rest,
           e = e1 ++ pendingRelease p ++ SourceRead o :: rest
           /\ filter isRelease e1 = [])
     /\ mDecodeBuffer p' =
          match env_read env with
          | ReadOK b => Some b
          | _ => None
          end)
  /\ ((forall o, ~ In (SourceRead o) e) ->
      filter isRelease e = [] /\ mDecodeBuffer p' = mDecodeBuffer p).
Proof.
  intros H. split.
  - intros o Hin.
    pose proof (proj1 (decode_seek_target_aux cfg env p r p' e H) o Hin) as Ho.
    destruct (onDecode_reads _ _ _ _ _ _ _ H Hin)
      as (p1 & e1 & e2 & E & N & R & F & _).
    destruct (readFrame_effects _ _ _ _ _ R) as (rest & E2 & NR & NRel & B).
    rewrite F, cache_fields_pendingRelease, cache_fields_readOptionsOf in E2.
    subst e e2. split; [| split].
    + rewrite !filter_app, (filter_notifs_release _ N). cbn. rewrite NRel.
      unfold pendingRelease. destruct (mDecodeBuffer p); reflexivity.
    + exists e1, rest. rewrite Ho. split; [reflexivity |].
      apply filter_notifs_release, N.
    + exact B.
  - intros NR. destruct (onDecode_skips _ _ _ _ _ _ H NR) as (B & Rl & _).
    auto.
Qed.

Lemma getCacheRemaining_posts cfg env p r p' e :
  getCacheRemaining cfg env p = Done (r, p', e) ->
  Forall (fun x => isCacheNotif x = true) e.
Proof.
  intros G. destruct (getCacheRemaining_effects _ _ _ _ _ _ G) as (E & _).
  rewrite E. apply Forall_app. split.
  - destruct (CacheStatus_eqb _ _); repeat constructor.
  - destruct (_ <? _); repeat constructor.
Qed.

(** As [onDecode_reads], with the estimator's effects told apart. *)
Lemma onDecode_reads_cache cfg env p r p' e o :
  onDecode cfg env p = Done (r, p', e) -> In (SourceRead o) e ->
  exists p1 e1 e2,
    e = e1 ++ e2 /\ Forall (fun x => isCacheNotif x = true) e1
    /\ readFrame env p1 = Done (tt, p', e2)
    /\ p1 = set_mCacheStatus (mCacheStatus p1)
              (set_mCacheFill (mCacheFill p1)
                 (set_mLastNotifiedCacheFill (mLastNotifiedCacheFill p1) p))
    /\ mAudioSource p = true.
Proof.
  intros H Hin.
  assert (S : forall q u q' e2, readFrame env q = Done (u, q', e2) ->
              mAudioSource q = true).
  { intros q u q' e2 R. destruct (mAudioSource q) eqn:A; [reflexivity |].
    rewrite (readFrame_no_source _ _ A) in R. discriminate R. }
  destruct (mDataSource p) as [ds |] eqn:Hs.
  2:{ rewrite onDecode_unfold in H. unfold_m. rewrite Hs in H. discriminate H. }
  destruct (wantsPrefetching ds) eqn:Hw.
  - destruct (getCacheRemaining cfg env p) as [[[r1 p1] e1] |] eqn:G.
    2:{ rewrite onDecode_unfold in H. unfold_m. rewrite Hs, Hw, G in H.
        discriminate H. }
    destruct (getCacheRemaining_frame _ _ _ _ _ _ G) as (F & N & _).
    pose proof (getCacheRemaining_posts _ _ _ _ _ _ G) as C.
    destruct (CacheStatus_eqb (fst r1) kStatusLow && negb (snd r1)) eqn:L.
    + rewrite (onDecode_rebuffer _ _ _ _ _ _ _ Hs Hw G L) in H.
      destruct (playing p && negb (mAudioTrack p)); [discriminate H |].
      done_inv. exfalso.
      apply in_app_or in Hin. destruct Hin as [Hin | Hin].
      * exact (notifs_no_read _ _ N Hin).
      * destruct (playing p); cbn in Hin; intuition discriminate.
    + rewrite (onDecode_prefetch _ _ _ _ _ _ _ Hs Hw G L) in H.
      destruct (active p) eqn:A.
      * destruct (readFrame env p1) as [[[u q] e2] |] eqn:R; [| discriminate H].
        done_inv. repeat match goal with x : unit |- _ => destruct x end.
        exists p1, e1, e2. repeat split; auto.
        pose proof (S _ _ _ _ R) as A1. rewrite F in A1. exact A1.
      * done_inv. exfalso. exact (notifs_no_read _ _ N Hin).
  - rewrite (onDecode_no_prefetch _ _ _ _ Hs Hw) in H.
    destruct (active p) eqn:A.
    + destruct r. exists p, [], e. repeat split; auto.
      * apply cache_fields_same.
      * exact (S _ _ _ _ H).
    + done_inv. destruct Hin.
Qed.

Lemma cache_notifs_posts (l : list Effect) m d :
  Forall (fun x => isCacheNotif x = true) l -> In (Post m d) l ->
  exists v, m = kWhatNotif EVENT_PREFETCHSTATUSCHANGE v
            \/ m = kWhatNotif EVENT_PREFETCHFILLLEVELUPDATE v.
Proof.
  intros F I. rewrite Forall_forall in F. apply F in I.
  destruct m as [| | | | k v | | |]; try discriminate I.
  exists v. destruct k; try discriminate I; auto.
Qed.

Lemma pendingRelease_posts p m d : ~ In (Post m d) (pendingRelease p).
Proof.
  unfold pendingRelease. destruct (mDecodeBuffer p); cbn; intuition discriminate.
Qed.

(** X3. When the read of a decode step returns end-of-stream, the step
    posts the end-of-stream notification exactly when Playing is set; it
    schedules no decode, render or cache check, leaves the flags (Playing
    and Seeking included) and the last decoded position as they were, and
    leaves the buffer slot empty. *)
Theorem decode_end_of_stream (cfg : Config) (env : Env) (p : SfPlayer) r p' e o :
  onDecode cfg env p = Done (r, p', e) ->
  In (SourceRead o) e -> env_read env = ReadEndOfStream ->
  mFlags p' = mFlags p
  /\ mDecodeBuffer p' = None
  /\ mLastDecodedPositionUs p' = mLastDecodedPositionUs p
  /\ mTimeDelta p' = mTimeDelta p
  /\ (In (Post (kWhatNotif EVENT_ENDOFSTREAM 1) 0) e <-> playing p = true)
  /\ (forall m d, In (Post m d) e -> exists k v, m = kWhatNotif k v).
Proof.
  intros H Hin Hr.
  destruct (onDecode_reads_cache _ _ _ _ _ _ _ H Hin)
    as (p1 & e1 & e2 & E & C & R & F & S).
  assert (S1 : mAudioSource p1 = true) by (rewrite F; exact S).
  rewrite (readFrame_eos _ _ S1 Hr) in R. done_inv.
  assert (P1 : playing p1 = playing p) by (rewrite F; reflexivity).
  rewrite P1. psimpl. rewrite F. psimpl. repeat split.
  - intros I. apply in_app_or in I. destruct I as [I | I].
    + destruct (cache_notifs_posts _ _ _ C I) as (v & [D | D]); discriminate D.
    + apply in_app_or in I. destruct I as [I | [I | I]].
      * exfalso. exact (pendingRelease_posts _ _ _ I).
      * discriminate I.
      * destruct (playing p); [reflexivity | destruct I].
  - intros Hp. rewrite Hp. apply in_or_app. right. apply in_or_app. right.
    right. left. reflexivity.
  - intros m d I. apply in_app_or in I. destruct I as [I | I].
    + destruct (cache_notifs_posts _ _ _ C I) as (v & [D | D]); eauto.
    + apply in_app_or in I. destruct I as [I | [I | I]].
      * exfalso. exact (pendingRelease_posts _ _ _ I).
      * discriminate I.
      * destruct (playing p); [| destruct I].
        destruct I as [I | []]. injection I as <- <-. eauto.
Qed.

(** X4. When the read of a decode step returns an error, the step logs it
    and stops there: nothing is posted besides the estimator's own
    notifications, so no decode is scheduled again and the client is not
    told; flags and last decoded position are as before and the buffer slot
    is empty. *)
Theorem decode_read_error (cfg : Config) (env : Env) (p : SfPlayer) r p' e o err :
  onDecode cfg env p = Done (r, p', e) ->
  In (SourceRead o) e -> env_read env = ReadError err ->
  In LogE e
  /\ mFlags p' = mFlags p
  /\ mDecodeBuffer p' = None
  /\ mLastDecodedPositionUs p' = mLastDecodedPositionUs p
  /\ (forall m d, In (Post m d) e ->
        exists v, m = kWhatNotif EVENT_PREFETCHSTATUSCHANGE v
                  \/ m = kWhatNotif EVENT_PREFETCHFILLLEVELUPDATE v).
Proof.
  intros H Hin Hr.
  destruct (onDecode_reads_cache _ _ _ _ _ _ _ H Hin)
    as (p1 & e1 & e2 & E & C & R & F & S).
  assert (S1 : mAudioSource p1 = true) by (rewrite F; exact S).
  rewrite (readFrame_error _ _ _ S1 Hr) in R. done_inv.
  psimpl. rewrite F. psimpl. repeat split.
  - apply in_or_app. right. apply in_or_app. right. right. left. reflexivity.
  - intros m d I. apply in_app_or in I. destruct I as [I | I].
    + exact (cache_notifs_posts _ _ _ C I).
    + apply in_app_or in I. destruct I as [I | [I | [I | []]]].
      * exfalso. exact (pendingRelease_posts _ _ _ I).
      * discriminate I.
      * discriminate I.
Qed.

(** ** Pacing *)

(** What a decode step that reads a frame stores and posts. *)
Lemma onDecode_frame cfg env p r p' e o b t :
  onDecode cfg env p = Done (r, p', e) ->
  In (SourceRead o) e -> env_read env = ReadOK b -> meta_kKeyTime b = Some t ->
  exists e1,
    mLastDecodedPositionUs p' = t
    /\ mTimeDelta p' =
         (if mTimeDelta p <? 0 then Int.to_int64 (fst (env_GetNowUs env) - t)
          else mTimeDelta p)
    /\ Forall (fun x => isCacheNotif x = true) e1
    /\ e = e1 ++ pendingRelease p
             ++ [SourceRead o;
                 Post kWhatRender
                   (Int.to_int64
                      (Int.to_int64 (t + mTimeDelta p') - snd (env_GetNowUs env)))].
Proof.
  intros H Hin Hr Ht.
  pose proof (proj1 (decode_seek_target_aux _ _ _ _ _ _ H) o Hin) as Ho.
  destruct (onDecode_reads_cache _ _ _ _ _ _ _ H Hin)
    as (p1 & e1 & e2 & E & C & R & F & S).
  assert (S1 : mAudioSource p1 = true) by (rewrite F; exact S).
  rewrite (readFrame_ok _ _ _ _ S1 Hr Ht) in R. cbv zeta in R. done_inv.
  assert (T1 : mTimeDelta p1 = mTimeDelta p) by (rewrite F; reflexivity).
  exists e1. psimpl. rewrite T1.
  rewrite F, cache_fields_pendingRelease, cache_fields_readOptionsOf.
  repeat split. exact C.
Qed.

Lemma frame_posts_render (e1 : list Effect) rel o d d' :
  Forall (fun x => isCacheNotif x = true) e1 ->
  (forall m x, ~ In (Post m x) rel) ->
  In (Post kWhatRender d') (e1 ++ rel ++ [SourceRead o; Post kWhatRender d]) ->
  d' = d.
Proof.
  intros C NR I. apply in_app_or in I. destruct I as [I | I].
  - destruct (cache_notifs_posts _ _ _ C I) as (v & [D | D]); discriminate D.
  - apply in_app_or in I. destruct I as [I | [I | [I | []]]].
    + exfalso. exact (NR _ _ I).
    + discriminate I.
    + injection I as <-. reflexivity.
Qed.

Lemma filter_notifs_render (l : list Effect) :
  Forall (fun x => isCacheNotif x = true) l -> filter isRenderPost l = [].
Proof.
  induction 1 as [| x l Hx _ IH]; [reflexivity |].
  cbn [filter]. rewrite IH.
  destruct x as [| | | | m d | | | | |]; try discriminate Hx.
  destruct m; try discriminate Hx. reflexivity.
Qed.

Lemma filter_pendingRelease_render p : filter isRenderPost (pendingRelease p) = [].
Proof. unfold pendingRelease. destruct (mDecodeBuffer p); reflexivity. Qed.

(** X5. A decode step that reads a frame stamped [t] records [t] as the
    last decoded position, anchors the time delta to [now - t] when it was
    unknown (negative) and keeps it otherwise, and posts exactly one render,
    due when the clock reaches [t] plus the time delta; a frame that
    anchors is due at once.  It schedules no decode and no cache check.
    Its effects are, in order: the notifications of the estimator, the
    release of a frame that was pending, the read, and that render. *)
Theorem decode_pacing (cfg : Config) (env : Env) (p : SfPlayer) r p' e o b t :
  onDecode cfg env p = Done (r, p', e) ->
  In (SourceRead o) e -> env_read env = ReadOK b -> meta_kKeyTime b = Some t ->
  let now1 := fst (env_GetNowUs env) in
  let now2 := snd (env_GetNowUs env) in
  mLastDecodedPositionUs p' = t
  /\ mTimeDelta p' =
       (if mTimeDelta p <? 0 then Int.to_int64 (now1 - t) else mTimeDelta p)
  /\ (exists d, In (Post kWhatRender d) e)
  /\ (forall d, In (Post kWhatRender d) e ->
        d = Int.to_int64 (Int.to_int64 (t + mTimeDelta p') - now2))
  /\ (forall d, In (Post kWhatRender d) e ->
        int64 (t + mTimeDelta p') -> int64 (t + mTimeDelta p' - now2) ->
        now2 + d = t + mTimeDelta p')
  /\ (forall d, In (Post kWhatRender d) e ->
        mTimeDelta p < 0 -> int64 now1 -> int64 (now1 - t) -> int64 (now1 - now2) ->
        d = now1 - now2)
  /\ (forall m d, In (Post m d) e ->
        m = kWhatRender \/ exists k v, m = kWhatNotif k v)
  /\ filter isRenderPost e
     = [Post kWhatRender (Int.to_int64 (Int.to_int64 (t + mTimeDelta p') - now2))]
  /\ (exists e1,
        Forall (fun x => isCacheNotif x = true) e1
        /\ e = e1 ++ pendingRelease p
                 ++ [SourceRead o;
                     Post kWhatRender
                       (Int.to_int64 (Int.to_int64 (t + mTimeDelta p') - now2))]).
Proof.
  intros H Hin Hr Ht now1 now2.
  destruct (onDecode_frame _ _ _ _ _ _ _ _ _ H Hin Hr Ht) as (e1 & L & T & C & E).
  fold now1 in T. fold now2 in E.
  assert (D : forall d, In (Post kWhatRender d) e ->
              d = Int.to_int64 (Int.to_int64 (t + mTimeDelta p') - now2)).
  { intros d I. rewrite E in I.
    exact (frame_posts_render _ _ _ _ _ C (pendingRelease_posts p) I). }
  split; [exact L |]. split; [exact T |]. split; [| split; [exact D |]].
  - eexists. rewrite E. apply in_or_app. right. apply in_or_app. right.
    right. left. reflexivity.
  - split; [| split].
    + intros d I R1 R2. rewrite (D d I).
      rewrite (to_int64_small _ R1), (to_int64_small _ R2). lia.
    + intros d I Neg N1 R1 R2. rewrite (D d I), T.
      apply Z.ltb_lt in Neg. rewrite Neg.
      rewrite (to_int64_small _ R1).
      replace (t + (now1 - t)) with now1 by lia.
      rewrite (to_int64_small _ N1). apply to_int64_small, R2.
    + split; [| split].
      * intros m d I. rewrite E in I.
        apply in_app_or in I. destruct I as [I | I].
        -- destruct (cache_notifs_posts _ _ _ C I) as (v & [K | K]); eauto.
        -- apply in_app_or in I. destruct I as [I | [I | [I | []]]].
           ++ exfalso. exact (pendingRelease_posts _ _ _ I).
           ++ discriminate I.
           ++ injection I as <- _. auto.
      * rewrite E, !filter_app, (filter_notifs_render _ C),
          filter_pendingRelease_render. reflexivity.
      * exists e1. split; [exact C | exact E].
Qed.

Lemma step_keeps_anchor cfg env msg p r p' e :
  onMessageReceived cfg env msg p = Done (r, p', e) ->
  keepsAnchor (msg, env) -> mTimeDelta p' = mTimeDelta p.
Proof.
  intros H K. destruct msg as [| | | | key value | | | target];
    try (destruct K); cbn [onMessageReceived] in H.
  - unfold onRender in H. unfold_m.
    repeat (split_match; done_inv; try discriminate); reflexivity.
  - apply onNotify_pure in H. subst. reflexivity.
  - unfold onPlay in H. unfold_m. done_inv. reflexivity.
  - unfold onPause in H. unfold_m. done_inv. reflexivity.
Qed.

Lemma deliver_keeps_anchor cfg ms : forall p r p' e,
  deliver cfg ms p = Done (r, p', e) ->
  Forall keepsAnchor ms -> mTimeDelta p' = mTimeDelta p.
Proof.
  induction ms as [| [msg env] ms IH]; intros p r p' e H F.
  - cbn in H. unfold ret in H. done_inv. reflexivity.
  - apply deliver_cons in H. destruct H as (r1 & p1 & e1 & e2 & S & D & E).
    inversion F as [| d l K F']; subst.
    rewrite (IH _ _ _ _ D F'). eapply step_keeps_anchor; eassumption.
Qed.

Ltac range_lia :=
  unfold int64, clock in *;
  change (2 ^ 62) with 4611686018427387904 in *;
  change (2 ^ 63) with 9223372036854775808 in *;
  lia.

Ltac drop_wraps H :=
  repeat match type of H with
    | context [Int.to_int64 ?x] => rewrite (to_int64_small x) in H by range_lia
    end.

(** X6. Pacing holds across frames.  Let a decode step anchor the time
    delta on a frame stamped [tA], and a later decode step read a frame
    stamped [tB], with only renders, notifications, play and pause delivered
    in between.  If the clock was not behind the first timestamp, the two
    renders are due [tB - tA] apart, whatever the clock read at the second
    decode.  If it was behind, the stored delta is negative, which the code
    takes for unknown: the second step anchors again and its render is due
    at once. *)
Theorem pacing_across_frames (cfg : Config) (envA envB : Env) ms p q
    rA pA eA oA bA tA em rB pB eB oB bB tB dA dB :
  onDecode cfg envA p = Done (rA, pA, eA) ->
  In (SourceRead oA) eA -> env_read envA = ReadOK bA -> meta_kKeyTime bA = Some tA ->
  deliver cfg ms pA = Done (tt, q, em) -> Forall keepsAnchor ms ->
  onDecode cfg envB q = Done (rB, pB, eB) ->
  In (SourceRead oB) eB -> env_read envB = ReadOK bB -> meta_kKeyTime bB = Some tB ->
  mTimeDelta p < 0 ->
  In (Post kWhatRender dA) eA -> In (Post kWhatRender dB) eB ->
  clock tA -> clock tB ->
  clock (fst (env_GetNowUs envA)) -> clock (snd (env_GetNowUs envA)) ->
  clock (fst (env_GetNowUs envB)) -> clock (snd (env_GetNowUs envB)) ->
  (tA <= fst (env_GetNowUs envA) ->
   (snd (env_GetNowUs envB) + dB) - (snd (env_GetNowUs envA) + dA) = tB - tA)
  /\ (fst (env_GetNowUs envA) < tA ->
      dB = fst (env_GetNowUs envB) - snd (env_GetNowUs envB)).
Proof.
  intros HA IA RA TA D K HB IB RB TB Neg PA PB CtA CtB CA1 CA2 CB1 CB2.
  destruct (onDecode_frame _ _ _ _ _ _ _ _ _ HA IA RA TA) as (a1 & _ & DA & NA & EA).
  destruct (onDecode_frame _ _ _ _ _ _ _ _ _ HB IB RB TB) as (b1 & _ & DB & NB & EB).
  rewrite EA in PA. rewrite EB in PB.
  pose proof (frame_posts_render _ _ _ _ _ NA (pendingRelease_posts p) PA) as VA.
  pose proof (frame_posts_render _ _ _ _ _ NB (pendingRelease_posts q) PB) as VB.
  pose proof (deliver_keeps_anchor _ _ _ _ _ _ D K) as Q.
  apply Z.ltb_lt in Neg. rewrite Neg in DA.
  drop_wraps DA.
  rewrite DA in VA. rewrite Q, DA in DB.
  replace (tA + (fst (env_GetNowUs envA) - tA)) with (fst (env_GetNowUs envA))
    in VA by lia.
  drop_wraps VA.
  split.
  - intros Le.
    assert (N : (fst (env_GetNowUs envA) - tA <? 0) = false)
      by (apply Z.ltb_ge; lia).
    rewrite N in DB. rewrite DB in VB.
    drop_wraps VB. range_lia.
  - intros Lt.
    assert (N : (fst (env_GetNowUs envA) - tA <? 0) = true)
      by (apply Z.ltb_lt; lia).
    rewrite N in DB. drop_wraps DB.
    rewrite DB in VB.
    replace (tB + (fst (env_GetNowUs envB) - tB)) with (fst (env_GetNowUs envB))
      in VB by lia.
    drop_wraps VB. exact VB.
Qed.

Ltac find_in := cbn; repeat (first [left; reflexivity | right]).

Lemma decode_buffer_ownership_witness :
  exists p' e,
    onDecode spec_config (reads (ReadOK frame_2523ms) 10 20)
      (set_mDecodeBuffer (Some frame_2500ms) player_file_playing)
    = Done (tt, p', e)
    /\ filter isRelease e = [Release frame_2500ms]
    /\ mDecodeBuffer p' = Some frame_2523ms.
Proof.
  assert (R : exists p' e,
             onDecode spec_config (reads (ReadOK frame_2523ms) 10 20)
               (set_mDecodeBuffer (Some frame_2500ms) player_file_playing)
             = Done (tt, p', e)
             /\ In (SourceRead None) e).
  { do 2 eexists. split; [vm_compute; reflexivity | find_in]. }
  destruct R as (p' & e & R & I). exists p', e. split; [exact R |].
  destruct (proj1 (decode_buffer_ownership _ _ _ _ _ _ R) _ I) as (F & _ & B).
  split; [exact F | exact B].
Defined.

Lemma decode_end_of_stream_witness :
  exists p' e,
    onDecode spec_config (reads ReadEndOfStream 10 20) player_file_playing
    = Done (tt, p', e)
    /\ In (Post (kWhatNotif EVENT_ENDOFSTREAM 1) 0) e
    /\ mFlags p' = kFlagPlaying.
Proof.
  assert (R : exists p' e,
             onDecode spec_config (reads ReadEndOfStream 10 20) player_file_playing
             = Done (tt, p', e)
             /\ In (SourceRead None) e).
  { do 2 eexists. split; [vm_compute; reflexivity | find_in]. }
  destruct R as (p' & e & R & I). exists p', e. split; [exact R |].
  destruct (decode_end_of_stream _ _ _ _ _ _ _ R I eq_refl)
    as (F & _ & _ & _ & N & _).
  split; [apply N; reflexivity | exact F].
Defined.

Lemma decode_read_error_witness :
  exists p' e,
    onDecode spec_config (reads (ReadError (-1)) 10 20) player_file_playing
    = Done (tt, p', e)
    /\ In LogE e
    /\ mFlags p' = kFlagPlaying.
Proof.
  assert (R : exists p' e,
             onDecode spec_config (reads (ReadError (-1)) 10 20) player_file_playing
             = Done (tt, p', e)
             /\ In (SourceRead None) e).
  { do 2 eexists. split; [vm_compute; reflexivity | find_in]. }
  destruct R as (p' & e & R & I). exists p', e. split; [exact R |].
  destruct (decode_read_error _ _ _ _ _ _ _ (-1) R I eq_refl) as (L & F & _).
  split; [exact L | exact F].
Defined.

Lemma decode_pacing_witness :
  exists p' e,
    onDecode spec_config (reads (ReadOK frame_2500ms) 5000000 5000100)
      player_file_playing
    = Done (tt, p', e)
    /\ mTimeDelta p' = Int.to_int64 (5000000 - 2500000)
    /\ In (Post kWhatRender (-100)) e
    /\ (List.length (filter isRenderPost e) = 1)%nat.
Proof.
  assert (R : exists p' e,
             onDecode spec_config (reads (ReadOK frame_2500ms) 5000000 5000100)
               player_file_playing
             = Done (tt, p', e)
             /\ In (SourceRead None) e
             /\ In (Post kWhatRender (-100)) e).
  { do 2 eexists. split; [vm_compute; reflexivity |]. split; find_in. }
  destruct R as (p' & e & R & I & P). exists p', e. split; [exact R |].
  destruct (decode_pacing _ _ _ _ _ _ _ _ _ R I eq_refl eq_refl)
    as (_ & T & _ & _ & _ & _ & _ & F & _).
  split; [exact T |]. split; [exact P |]. rewrite F. reflexivity.
Defined.

Lemma pacing_across_frames_witness :
  exists pA eA q em pB eB,
    onDecode spec_config (reads (ReadOK frame_2500ms) 5000000 5000100)
      player_file_playing = Done (tt, pA, eA)
    /\ deliver spec_config [(kWhatRender, probe 0 false)] pA = Done (tt, q, em)
    /\ onDecode spec_config (reads (ReadOK frame_2523ms) 5020000 5020300) q
       = Done (tt, pB, eB)
    /\ In (Post kWhatRender (-100)) eA
    /\ In (Post kWhatRender 2920) eB
    /\ (5020300 + 2920) - (5000100 + -100) = 2523220 - 2500000.
Proof.
  assert (R : exists pA eA q em pB eB,
             onDecode spec_config (reads (ReadOK frame_2500ms) 5000000 5000100)
               player_file_playing = Done (tt, pA, eA)
             /\ deliver spec_config [(kWhatRender, probe 0 false)] pA
                = Done (tt, q, em)
             /\ onDecode spec_config (reads (ReadOK frame_2523ms) 5020000 5020300) q
                = Done (tt, pB, eB)
             /\ In (SourceRead None) eA /\ In (SourceRead None) eB
             /\ In (Post kWhatRender (-100)) eA
             /\ In (Post kWhatRender 2920) eB).
  { do 6 eexists. split; [vm_compute; reflexivity |].
    split; [vm_compute; reflexivity |]. split; [vm_compute; reflexivity |].
    repeat split; find_in. }
  destruct R as (pA & eA & q & em & pB & eB & HA & D & HB & IA & IB & PA & PB).
  exists pA, eA, q, em, pB, eB.
  split; [exact HA |]. split; [exact D |]. split; [exact HB |].
  split; [exact PA |]. split; [exact PB |].
  refine (proj1 (pacing_across_frames spec_config _ _ _ _ _ _ _ _ _ _ _ _ _ _ _ _ _ _ _ _
                   HA IA eq_refl eq_refl D _ HB IB eq_refl eq_refl _ PA PB
                   _ _ _ _ _ _) _);
    try (unfold clock; cbn; lia); try reflexivity;
    try (constructor; [exact I | constructor]).
Defined.

(** ** The cache check *)

Ltac norm_app :=
  rewrite ?app_nil_r; rewrite <- ?app_assoc; cbn [app]; rewrite ?app_nil_r.

Lemma onCheckCache_cases cfg env p r p1 e1 :
  getCacheRemaining cfg env p = Done (r, p1, e1) ->
  onCheckCache cfg env p =
    if bufferingDone p r then
      if playing p && negb (mAudioTrack p) then Crash NullDereference
      else
        Done (tt,
              set_mTimeDelta (-1)
                (set_mFlags
                   (Int.clear_bits (Int.clear_bits (mFlags p) kFlagBuffering)
                      kFlagPreparing) p1),
              e1 ++ (if playing p then [TrackStart; Post kWhatDecode 0] else []))
    else Done (tt, p1, e1 ++ [Post kWhatCheckCache 100000]).
Proof.
  intros G. destruct (getCacheRemaining_frame _ _ _ _ _ _ G) as (F & _).
  assert (Ff : mFlags p1 = mFlags p) by (rewrite F; reflexivity).
  assert (Ft : mAudioTrack p1 = mAudioTrack p) by (rewrite F; reflexivity).
  unfold onCheckCache, bufferingDone, preparing, playing. unfold_m.
  rewrite G, Ff.
  destruct (snd r || CacheStatus_eqb (fst r) kStatusHigh
            || Int.test (mFlags p) kFlagPreparing
               && (CacheStatus_to_Z kStatusEnough <=? CacheStatus_to_Z (fst r))).
  2:{ norm_app. reflexivity. }
  rewrite Ff.
  assert (PB : Int.test (Int.clear_bits (mFlags p) kFlagBuffering) kFlagPlaying
               = Int.test (mFlags p) kFlagPlaying)
    by (apply test_clear_other; reflexivity).
  assert (PP : forall f, Int.test (Int.clear_bits f kFlagPreparing) kFlagPlaying
                         = Int.test f kFlagPlaying)
    by (intros f; apply test_clear_other; reflexivity).
  assert (QB : Int.test (Int.clear_bits (mFlags p) kFlagBuffering) kFlagPreparing
               = Int.test (mFlags p) kFlagPreparing)
    by (apply test_clear_other; reflexivity).
  destruct (Int.test (mFlags p) kFlagPlaying) eqn:P; cbn [andb negb].
  - rewrite Ft. destruct (mAudioTrack p); cbn [negb]; [| reflexivity].
    psimpl. rewrite ?Ff, QB.
    destruct (Int.test (mFlags p) kFlagPreparing) eqn:Q; psimpl.
    + rewrite PP, PB. norm_app. reflexivity.
    + rewrite PB.
      rewrite (clear_bits_unset (Int.clear_bits (mFlags p) kFlagBuffering)
                 kFlagPreparing) by exact QB.
      norm_app. reflexivity.
  - psimpl. rewrite ?Ff, QB.
    destruct (Int.test (mFlags p) kFlagPreparing) eqn:Q; psimpl.
    + rewrite PP, PB. norm_app. reflexivity.
    + rewrite PB.
      rewrite (clear_bits_unset (Int.clear_bits (mFlags p) kFlagBuffering)
                 kFlagPreparing) by exact QB.
      norm_app. reflexivity.
Qed.

Lemma bufferingDone_iff p r :
  bufferingDone p r = true <->
  snd r = true \/ fst r = kStatusHigh
  \/ (preparing p = true /\ (fst r = kStatusEnough \/ fst r = kStatusHigh)).
Proof.
  unfold bufferingDone. destruct r as [s eos]. cbn [fst snd].
  destruct eos, s, (preparing p); cbn; split; intros H;
    try reflexivity; try discriminate; auto;
    repeat match goal with
      | H : _ \/ _ |- _ => destruct H
      | H : _ /\ _ |- _ => destruct H
      end; congruence.
Qed.

(** X7. A cache check ends the buffering exactly when the estimator
    observes end-of-stream, or reports High, or reports at least Enough
    while Preparing is set.  It then clears Buffering and Preparing, resets
    the time delta to unknown, keeps Playing and Seeking, and, when Playing
    is set, starts the sink and posts one decode.  Otherwise it changes no
    flag and posts itself again after 100000 microseconds. *)
Theorem cache_check_exit (cfg : Config) (env : Env) (p : SfPlayer) r p1 e1 :
  getCacheRemaining cfg env p = Done (r, p1, e1) ->
  (playing p = true -> mAudioTrack p = true) ->
  (bufferingDone p r = true <->
   snd r = true \/ fst r = kStatusHigh
   \/ (preparing p = true /\ (fst r = kStatusEnough \/ fst r = kStatusHigh)))
  /\ (bufferingDone p r = true ->
      exists p',
        onCheckCache cfg env p
        = Done (tt, p',
                e1 ++ (if playing p then [TrackStart; Post kWhatDecode 0] else []))
        /\ buffering p' = false /\ preparing p' = false
        /\ playing p' = playing p /\ seeking p' = seeking p
        /\ mTimeDelta p' = -1)
  /\ (bufferingDone p r = false ->
      onCheckCache cfg env p = Done (tt, p1, e1 ++ [Post kWhatCheckCache 100000])
      /\ mFlags p1 = mFlags p /\ mTimeDelta p1 = mTimeDelta p).
Proof.
  intros G Ht. pose proof (onCheckCache_cases _ _ _ _ _ _ G) as C.
  destruct (getCacheRemaining_frame _ _ _ _ _ _ G) as (F & _).
  split; [apply bufferingDone_iff |]. split.
  - intros D. rewrite D in C.
    assert (N : playing p && negb (mAudioTrack p) = false).
    { destruct (playing p); [| reflexivity]. rewrite (Ht eq_refl). reflexivity. }
    rewrite N in C. eexists. split; [exact C |].
    unfold buffering, preparing, playing, seeking. psimpl. repeat split.
    + rewrite test_clear_other by reflexivity. apply test_clear_same.
    + apply test_clear_same.
    + rewrite !test_clear_other by reflexivity. reflexivity.
    + rewrite !test_clear_other by reflexivity. reflexivity.
  - intros D. rewrite D in C. split; [exact C |].
    rewrite F. split; reflexivity.
Qed.

Lemma cache_check_exit_witness :
  exists p1 e1 p',
    getCacheRemaining spec_config (probe 2000000 false)
      (set_mFlags (Z.lor kFlagPreparing kFlagBuffering) player_30s)
    = Done ((kStatusHigh, false), p1, e1)
    /\ onCheckCache spec_config (probe 2000000 false)
         (set_mFlags (Z.lor kFlagPreparing kFlagBuffering) player_30s)
       = Done (tt, p', e1 ++ [])
    /\ buffering p' = false /\ preparing p' = false.
Proof.
  assert (G : exists p1 e1,
             getCacheRemaining spec_config (probe 2000000 false)
               (set_mFlags (Z.lor kFlagPreparing kFlagBuffering) player_30s)
             = Done ((kStatusHigh, false), p1, e1))
    by (do 2 eexists; vm_compute; reflexivity).
  destruct G as (p1 & e1 & G).
  destruct (proj1 (proj2 (cache_check_exit _ _ _ _ _ _ G (fun _ => eq_refl)))
              eq_refl) as (p' & C & B & P & _).
  exists p1, e1, p'. auto.
Defined.

(** ** Starting the prefetch *)

(** X8. [startPrefetch_async] does nothing on a source that does not ask
    for prefetching.  On one that does, it sets Preparing and Buffering,
    keeps Playing and Seeking, and posts one cache check due in 100000
    microseconds; the first cache check whose estimation reports Enough or
    High then ends the prefetch: both flags are cleared and no further
    cache check is posted. *)
Theorem startPrefetch_cases (cfg : Config) (p : SfPlayer) (ds : DataSource) :
  mDataSource p = Some ds ->
  (wantsPrefetching ds = false -> startPrefetch_async p = Done (tt, p, []))
  /\ (wantsPrefetching ds = true ->
      exists p',
        startPrefetch_async p = Done (tt, p', [Post kWhatCheckCache 100000])
        /\ preparing p' = true /\ buffering p' = true
        /\ playing p' = playing p /\ seeking p' = seeking p
        /\ p' = set_mFlags (mFlags p') p
        /\ forall env r p1 e1,
             getCacheRemaining cfg env p' = Done (r, p1, e1) ->
             (playing p = true -> mAudioTrack p = true) ->
             fst r = kStatusEnough \/ fst r = kStatusHigh ->
             exists p'',
               onCheckCache cfg env p'
               = Done (tt, p'',
                       e1 ++ (if playing p then [TrackStart; Post kWhatDecode 0]
                              else []))
               /\ preparing p'' = false /\ buffering p'' = false).
Proof.
  intros Hs. split.
  - intros Hw. unfold startPrefetch_async. unfold_m. rewrite Hs, Hw. reflexivity.
  - intros Hw.
    pose (p' := set_mFlags
                  (Int.set_bits (Int.set_bits (mFlags p) kFlagPreparing)
                     kFlagBuffering) p).
    assert (R : startPrefetch_async p = Done (tt, p', [Post kWhatCheckCache 100000])).
    { unfold startPrefetch_async. unfold_m. rewrite Hs, Hw. reflexivity. }
    assert (Pr : preparing p' = true).
    { unfold preparing, p'. psimpl.
      rewrite test_set_other by reflexivity. apply test_set_same. discriminate. }
    assert (Bu : buffering p' = true).
    { unfold buffering, p'. psimpl. apply test_set_same. discriminate. }
    assert (Pl : playing p' = playing p).
    { unfold playing, p'. psimpl. rewrite !test_set_other by reflexivity.
      reflexivity. }
    assert (Se : seeking p' = seeking p).
    { unfold seeking, p'. psimpl. rewrite !test_set_other by reflexivity.
      reflexivity. }
    assert (Tr : mAudioTrack p' = mAudioTrack p) by reflexivity.
    exists p'. split; [exact R |]. split; [exact Pr |]. split; [exact Bu |].
    split; [exact Pl |]. split; [exact Se |]. split; [reflexivity |].
    intros env r p1 e1 G Ht S.
    pose proof (onCheckCache_cases _ _ _ _ _ _ G) as C.
    assert (D : bufferingDone p' r = true).
    { apply bufferingDone_iff. right. right. split; [exact Pr | exact S]. }
    rewrite D, Pl, Tr in C.
    assert (N : playing p && negb (mAudioTrack p) = false).
    { destruct (playing p); [| reflexivity]. rewrite (Ht eq_refl). reflexivity. }
    rewrite N in C. eexists. split; [exact C |].
    unfold preparing, buffering. psimpl. split.
    + apply test_clear_same.
    + rewrite test_clear_other by reflexivity. apply test_clear_same.
Qed.

Lemma startPrefetch_cases_witness :
  startPrefetch_async player_file = Done (tt, player_file, [])
  /\ exists p',
       startPrefetch_async player_30s = Done (tt, p', [Post kWhatCheckCache 100000])
       /\ preparing p' = true /\ buffering p' = true.
Proof.
  split.
  - exact (proj1 (startPrefetch_cases spec_config player_file file_source eq_refl)
             eq_refl).
  - destruct (proj2 (startPrefetch_cases spec_config player_30s http_480k eq_refl)
                eq_refl) as (p' & R & P & B & _).
    exists p'. auto.
Defined.

(** ** Re-buffering from the decode step *)

(** X9. On a prefetching source, when the estimator reports Low without
    end-of-stream, a decode step does not read: it pauses the sink if
    Playing is set, sets Buffering, keeps the other flags, the pending
    buffer and the last decoded position, and posts one cache check due in
    100000 microseconds. *)
Theorem decode_rebuffers (cfg : Config) (env : Env) (p : SfPlayer) ds p1 e1 :
  mDataSource p = Some ds -> wantsPrefetching ds = true ->
  getCacheRemaining cfg env p = Done ((kStatusLow, false), p1, e1) ->
  (playing p = true -> mAudioTrack p = true) ->
  exists p',
    onDecode cfg env p
    = Done (tt, p',
            e1 ++ (if playing p then [TrackPause] else [])
               ++ [Post kWhatCheckCache 100000])
    /\ (forall o, ~ In (SourceRead o) e1)
    /\ buffering p' = true
    /\ playing p' = playing p /\ seeking p' = seeking p
    /\ preparing p' = preparing p
    /\ mDecodeBuffer p' = mDecodeBuffer p
    /\ mLastDecodedPositionUs p' = mLastDecodedPositionUs p
    /\ mTimeDelta p' = mTimeDelta p.
Proof.
  intros Hs Hw G Ht.
  pose proof (onDecode_rebuffer _ _ _ _ _ _ _ Hs Hw G eq_refl) as R.
  destruct (getCacheRemaining_frame _ _ _ _ _ _ G) as (F & N & _).
  assert (K : playing p && negb (mAudioTrack p) = false).
  { destruct (playing p); [| reflexivity]. rewrite (Ht eq_refl). reflexivity. }
  rewrite K in R. eexists. split; [exact R |].
  split; [intros o; apply notifs_no_read, N |].
  unfold buffering, playing, seeking, preparing. psimpl.
  split; [apply test_set_same; discriminate |].
  rewrite !test_set_other by reflexivity. rewrite F. psimpl.
  repeat split.
Qed.

Lemma decode_rebuffers_witness :
  exists p1 e1 p',
    getCacheRemaining spec_config (probe 4000 false)
      (set_mFlags kFlagPlaying player_30s)
    = Done ((kStatusLow, false), p1, e1)
    /\ onDecode spec_config (probe 4000 false) (set_mFlags kFlagPlaying player_30s)
       = Done (tt, p', e1 ++ [TrackPause] ++ [Post kWhatCheckCache 100000])
    /\ buffering p' = true.
Proof.
  assert (G : exists p1 e1,
             getCacheRemaining spec_config (probe 4000 false)
               (set_mFlags kFlagPlaying player_30s)
             = Done ((kStatusLow, false), p1, e1))
    by (do 2 eexists; vm_compute; reflexivity).
  destruct G as (p1 & e1 & G).
  destruct (decode_rebuffers spec_config (probe 4000 false)
              (set_mFlags kFlagPlaying player_30s) http_480k p1 e1
              eq_refl eq_refl G (fun _ => eq_refl))
    as (p' & R & _ & B & _).
  exists p1, e1, p'. auto.
Defined.

Lemma readFrame_posts env p u p' e m d :
  readFrame env p = Done (u, p', e) -> In (Post m d) e ->
  m = kWhatRender \/ (m = kWhatNotif EVENT_ENDOFSTREAM 1 /\ d = 0).
Proof.
  intros H I. destruct (mAudioSource p) eqn:Hs.
  2:{ rewrite (readFrame_no_source _ _ Hs) in H. discriminate H. }
  destruct (env_read env) as [b | | err] eqn:Hr.
  - destruct (meta_kKeyTime b) as [t |] eqn:Ht.
    + rewrite (readFrame_ok _ _ _ _ Hs Hr Ht) in H. done_inv.
      apply in_app_or in I. destruct I as [I | [I | [I | []]]].
      * exfalso. exact (pendingRelease_posts _ _ _ I).
      * discriminate I.
      * injection I as <- _. auto.
    + rewrite (readFrame_no_timestamp _ _ _ Hs Hr Ht) in H. discriminate H.
  - rewrite (readFrame_eos _ _ Hs Hr) in H. done_inv.
    apply in_app_or in I. destruct I as [I | [I | I]].
    + exfalso. exact (pendingRelease_posts _ _ _ I).
    + discriminate I.
    + destruct (playing p); [| destruct I].
      destruct I as [I | []]. injection I as <- <-. auto.
  - rewrite (readFrame_error _ _ _ Hs Hr) in H. done_inv.
    apply in_app_or in I. destruct I as [I | [I | [I | []]]].
    + exfalso. exact (pendingRelease_posts _ _ _ I).
    + discriminate I.
    + discriminate I.
Qed.

(** X10. What a decode step may post: notifications, one render, or one
    cache check.  It never posts a decode, play, pause, seek or prepare
    message; a render is posted only by a step that read; a cache check is
    posted only with a delay of 100000 microseconds, by a step that read
    nothing and left Buffering set. *)
Theorem decode_posts (cfg : Config) (env : Env) (p : SfPlayer) r p' e :
  onDecode cfg env p = Done (r, p', e) ->
  (forall m d, In (Post m d) e ->
     m = kWhatRender \/ m = kWhatCheckCache \/ exists k v, m = kWhatNotif k v)
  /\ (forall d, In (Post kWhatRender d) e -> exists o, In (SourceRead o) e)
  /\ (forall d, In (Post kWhatCheckCache d) e ->
        d = 100000 /\ buffering p' = true /\ forall o, ~ In (SourceRead o) e).
Proof.
  intros H.
  assert (Notif : forall (l : list Effect) m d,
             Forall isNotif l -> In (Post m d) l -> exists k v, m = kWhatNotif k v).
  { intros l m d F I. rewrite Forall_forall in F. apply F in I.
    destruct m; try contradiction. eauto. }
  destruct (mDataSource p) as [ds |] eqn:Hs.
  2:{ rewrite onDecode_unfold in H. unfold_m. rewrite Hs in H. discriminate H. }
  assert (Read : forall q pre u e2,
             readFrame env q = Done (u, p', e2) -> e = pre ++ e2 ->
             Forall isNotif pre ->
             (forall m d, In (Post m d) e ->
                m = kWhatRender \/ m = kWhatCheckCache
                \/ exists k v, m = kWhatNotif k v)
             /\ (forall d, In (Post kWhatRender d) e -> exists o, In (SourceRead o) e)
             /\ (forall d, In (Post kWhatCheckCache d) e ->
                   d = 100000 /\ buffering p' = true
                   /\ forall o, ~ In (SourceRead o) e)).
  { intros q pre u e2 R E N.
    destruct (readFrame_effects _ _ _ _ _ R) as (rest & E2 & _).
    assert (HasRead : In (SourceRead (readOptionsOf q)) e).
    { rewrite E, E2. apply in_or_app. right. apply in_or_app. right.
      left. reflexivity. }
    split; [| split].
    - intros m d I. rewrite E in I. apply in_app_or in I. destruct I as [I | I].
      + right. right. exact (Notif _ _ _ N I).
      + destruct (readFrame_posts _ _ _ _ _ _ _ R I) as [K | [K _]]; subst; eauto.
    - intros d _. eauto.
    - intros d I. exfalso. rewrite E in I. apply in_app_or in I.
      destruct I as [I | I].
      + destruct (Notif _ _ _ N I) as (k & v & K). discriminate K.
      + destruct (readFrame_posts _ _ _ _ _ _ _ R I) as [K | [K _]];
          discriminate K. }
  assert (Quiet : forall l : list Effect,
             Forall isNotif l -> e = l ->
             (forall m d, In (Post m d) e ->
                m = kWhatRender \/ m = kWhatCheckCache
                \/ exists k v, m = kWhatNotif k v)
             /\ (forall d, In (Post kWhatRender d) e -> exists o, In (SourceRead o) e)
             /\ (forall d, In (Post kWhatCheckCache d) e ->
                   d = 100000 /\ buffering p' = true
                   /\ forall o, ~ In (SourceRead o) e)).
  { intros l N E. subst l. split; [| split].
    - intros m d I. right. right. exact (Notif _ _ _ N I).
    - intros d I. destruct (Notif _ _ _ N I) as (k & v & K). discriminate K.
    - intros d I. destruct (Notif _ _ _ N I) as (k & v & K). discriminate K. }
  destruct (wantsPrefetching ds) eqn:Hw.
  - destruct (getCacheRemaining cfg env p) as [[[r1 p1] e1] |] eqn:G.
    2:{ rewrite onDecode_unfold in H. unfold_m. rewrite Hs, Hw, G in H.
        discriminate H. }
    destruct (getCacheRemaining_frame _ _ _ _ _ _ G) as (F & N & _).
    destruct (CacheStatus_eqb (fst r1) kStatusLow && negb (snd r1)) eqn:L.
    + rewrite (onDecode_rebuffer _ _ _ _ _ _ _ Hs Hw G L) in H.
      destruct (playing p && negb (mAudioTrack p)); [discriminate H |].
      done_inv.
      assert (Tail : forall x,
                 In x ((if playing p then [TrackPause] else [])
                         ++ [Post kWhatCheckCache 100000]) ->
                 x = TrackPause \/ x = Post kWhatCheckCache 100000).
      { intros x I. destruct (playing p); cbn in I; intuition auto. }
      split; [| split].
      * intros m d I. apply in_app_or in I. destruct I as [I | I].
        -- right. right. exact (Notif _ _ _ N I).
        -- destruct (Tail _ I) as [K | K]; [discriminate K |].
           injection K as -> _. auto.
      * intros d I. exfalso. apply in_app_or in I. destruct I as [I | I].
        -- destruct (Notif _ _ _ N I) as (k & v & K). discriminate K.
        -- destruct (Tail _ I) as [K | K]; discriminate K.
      * intros d I. split; [| split].
        -- apply in_app_or in I. destruct I as [I | I].
           ++ destruct (Notif _ _ _ N I) as (k & v & K). discriminate K.
           ++ destruct (Tail _ I) as [K | K]; [discriminate K |].
              injection K as ->. reflexivity.
        -- unfold buffering. psimpl. apply test_set_same. discriminate.
        -- intros o J. apply in_app_or in J. destruct J as [J | J].
           ++ exact (notifs_no_read _ _ N J).
           ++ destruct (Tail _ J) as [K | K]; discriminate K.
    + rewrite (onDecode_prefetch _ _ _ _ _ _ _ Hs Hw G L) in H.
      destruct (active p).
      * destruct (readFrame env p1) as [[[u q] e2] |] eqn:R; [| discriminate H].
        done_inv. exact (Read _ _ _ _ R eq_refl N).
      * done_inv. exact (Quiet _ N eq_refl).
  - rewrite (onDecode_no_prefetch _ _ _ _ Hs Hw) in H.
    destruct (active p).
    + exact (Read p [] r e H eq_refl (Forall_nil _)).
    + done_inv. exact (Quiet [] (Forall_nil _) eq_refl).
Qed.

Lemma decode_posts_witness :
  exists p' e,
    onDecode spec_config (probe 4000 false) (set_mFlags kFlagPlaying player_30s)
    = Done (tt, p', e)
    /\ In (Post kWhatCheckCache 100000) e
    /\ buffering p' = true.
Proof.
  assert (R : exists p' e,
             onDecode spec_config (probe 4000 false)
               (set_mFlags kFlagPlaying player_30s) = Done (tt, p', e)
             /\ In (Post kWhatCheckCache 100000) e).
  { do 2 eexists. split; [vm_compute; reflexivity | find_in]. }
  destruct R as (p' & e & R & I). exists p', e. split; [exact R |].
  split; [exact I |].
  exact (proj1 (proj2 (proj2 (proj2 (decode_posts _ _ _ _ _ _ R)) _ I))).
Defined.

(** ** The status the estimator reports *)

Lemma classify_not_empty hi med lo x : classify hi med lo x <> kStatusEmpty.
Proof.
  unfold classify.
  destruct (hi <? x), (med <? x), (x <? lo); discriminate.
Qed.

Lemma classify_mono hi med lo x y :
  x <= y ->
  CacheStatus_to_Z (classify hi med lo x) <= CacheStatus_to_Z (classify hi med lo y).
Proof.
  intros L. unfold classify.
  destruct (Z.ltb_spec hi x), (Z.ltb_spec med x), (Z.ltb_spec x lo),
    (Z.ltb_spec hi y), (Z.ltb_spec med y), (Z.ltb_spec y lo); cbn; lia.
Qed.

Lemma getCacheRemaining_done_bitrate cfg env p r p' e :
  getCacheRemaining cfg env p = Done (r, p', e) -> 0 < mBitrate p.
Proof.
  unfold getCacheRemaining. unfold_m. intros H.
  destruct (mDataSource p); [| discriminate H].
  destruct (Z.leb_spec 0 (mBitrate p)); [| discriminate H].
  destruct (Z.eqb_spec (mBitrate p) 0); [discriminate H |]. lia.
Qed.

(** X11. The estimator never reports Empty: that status is only the value
    the player is constructed with.  And with the same bitrate and
    duration, without end-of-stream, more remaining data never gives a
    lower status. *)
Theorem estimator_status (cfg : Config) :
  (forall env p r p' e,
      getCacheRemaining cfg env p = Done (r, p', e) ->
      fst r <> kStatusEmpty /\ mCacheStatus p' <> kStatusEmpty)
  /\ (forall env1 env2 p q r1 p1 e1 r2 p2 e2,
        getCacheRemaining cfg env1 p = Done (r1, p1, e1) ->
        getCacheRemaining cfg env2 q = Done (r2, p2, e2) ->
        mBitrate q = mBitrate p -> mDurationUsec q = mDurationUsec p ->
        snd (env_approxDataRemaining env1) = false ->
        snd (env_approxDataRemaining env2) = false ->
        0 <= fst (env_approxDataRemaining env1)
          <= fst (env_approxDataRemaining env2) ->
        fst (env_approxDataRemaining env2) < 2 ^ 32 ->
        CacheStatus_to_Z (fst r1) <= CacheStatus_to_Z (fst r2)).
Proof.
  split.
  - intros env p r p' e G.
    destruct (getCacheRemaining_effects _ _ _ _ _ _ G) as (_ & _ & S & C & _).
    rewrite S. assert (N : fst r <> kStatusEmpty); [| auto].
    rewrite C. unfold cacheStatusOf.
    destruct (snd (env_approxDataRemaining env)); [discriminate |].
    destruct (0 <? mDurationUsec p); apply classify_not_empty.
  - intros env1 env2 p q r1 p1 e1 r2 p2 e2 G1 G2 B D E1 E2 L U.
    pose proof (getCacheRemaining_done_bitrate _ _ _ _ _ _ G1) as Pos.
    destruct (getCacheRemaining_effects _ _ _ _ _ _ G1) as (_ & _ & _ & C1 & _).
    destruct (getCacheRemaining_effects _ _ _ _ _ _ G2) as (_ & _ & _ & C2 & _).
    rewrite C1, C2, B, D. unfold cacheStatusOf. rewrite E1, E2.
    destruct (0 <? mDurationUsec p).
    + apply classify_mono.
      rewrite !to_int64_small by range_lia.
      apply Z.quot_le_mono; lia.
    + apply classify_mono. lia.
Qed.

Lemma estimator_status_witness :
  exists p1 e1 p2 e2,
    getCacheRemaining spec_config (probe 4000 false) player_30s
    = Done ((kStatusLow, false), p1, e1)
    /\ getCacheRemaining spec_config (probe 2000000 false) player_30s
       = Done ((kStatusHigh, false), p2, e2)
    /\ CacheStatus_to_Z kStatusLow <= CacheStatus_to_Z kStatusHigh
    /\ mCacheStatus p1 <> kStatusEmpty.
Proof.
  assert (G : exists p1 e1 p2 e2,
             getCacheRemaining spec_config (probe 4000 false) player_30s
             = Done ((kStatusLow, false), p1, e1)
             /\ getCacheRemaining spec_config (probe 2000000 false) player_30s
                = Done ((kStatusHigh, false), p2, e2)).
  { do 4 eexists. split; vm_compute; reflexivity. }
  destruct G as (p1 & e1 & p2 & e2 & G1 & G2). exists p1, e1, p2, e2.
  split; [exact G1 |]. split; [exact G2 |]. split.
  - refine (proj2 (estimator_status spec_config) _ _ _ _ _ _ _ _ _ _ G1 G2
              eq_refl eq_refl eq_refl eq_refl _ _); cbn; lia.
  - exact (proj2 (proj1 (estimator_status spec_config) _ _ _ _ _ G1)).
Defined.

(** X12. A bitrate of 0 passes the estimator's [CHECK_GE] and is then
    divided by.  On the path that uses the quotient, which is a probe that
    does not report end-of-stream on a stream of known duration, every
    estimation, every cache check, and every decode step on a prefetching
    source stops with a division by zero. *)
Theorem zero_bitrate_divides (cfg : Config) (env : Env) (p : SfPlayer) :
  mDataSource p <> None -> mBitrate p = 0 ->
  snd (env_approxDataRemaining env) = false -> 0 < mDurationUsec p ->
  getCacheRemaining cfg env p = Crash DivideByZero
  /\ onCheckCache cfg env p = Crash DivideByZero
  /\ (forall ds, mDataSource p = Some ds -> wantsPrefetching ds = true ->
        onDecode cfg env p = Crash DivideByZero).
Proof.
  intros Hds Hb Heos Hdur.
  assert (G : getCacheRemaining cfg env p = Crash DivideByZero).
  { unfold getCacheRemaining. unfold_m.
    destruct (mDataSource p); [| congruence]. rewrite Hb. reflexivity. }
  split; [exact G |]. split.
  - unfold onCheckCache, bind. rewrite G. reflexivity.
  - intros ds Hs Hw. rewrite onDecode_unfold. unfold_m.
    rewrite Hs, Hw, G. reflexivity.
Qed.

Lemma player_tiny_reached :
  (setDataSource_uri "http://host/a.mp3" true ;; prepare_sync prepare_tiny)
    (set_mAudioTrack true SfPlayer_new)
  = Done (SFPLAYER_SUCCESS, player_tiny, []).
Proof. vm_compute. reflexivity. Qed.

Lemma zero_bitrate_divides_witness :
  getCacheRemaining spec_config (probe 1 false) player_tiny = Crash DivideByZero
  /\ onCheckCache spec_config (probe 1 false) player_tiny = Crash DivideByZero
  /\ onDecode spec_config (probe 1 false) player_tiny = Crash DivideByZero.
Proof.
  assert (Hds : mDataSource player_tiny <> None) by discriminate.
  destruct (zero_bitrate_divides spec_config (probe 1 false) player_tiny Hds eq_refl
              eq_refl eq_refl)
    as (G & C & D).
  split; [exact G |]. split; [exact C |]. exact (D http_tiny eq_refl eq_refl).
Defined.

(** ** Prepare *)

Ltac pure_tracks :=
  repeat match goal with
    | F : findAudioTrack _ _ = Done _ |- _ =>
        apply findAudioTrack_pure in F; destruct F; subst
    end.

Lemma onPrepare_with_failure pe src p st p' e :
  onPrepare_with pe src p = Done (st, p', e) -> st <> SFPLAYER_SUCCESS ->
  p' = set_mBitrate (mBitrate p') (set_mDurationUsec (mDurationUsec p') p)
  /\ mDataSource p' = mDataSource p
  /\ mAudioSource p' = mAudioSource p
  /\ (forall x, In x e -> x = LogE).
Proof.
  unfold onPrepare_with. unfold_m. intros H NS.
  repeat (split_match; done_inv; try discriminate; pure_tracks);
    try congruence.
  all: split; [match goal with q : SfPlayer |- _ => destruct q end; reflexivity |].
  all: split; [reflexivity |]. all: split; [reflexivity |].
  all: intros x I; cbn in I; intuition congruence.
Qed.

(** X13. A prepare that does not return success attaches neither source
    nor decoder, posts nothing, and leaves the player as it was except that
    the bitrate and the duration may already have been overwritten.
    Without a data locator it returns [MEDIA_ERROR_BASE] and changes
    nothing at all. *)
Theorem prepare_failure (pe : PrepareEnv) (p : SfPlayer) st p' e :
  onPrepare pe p = Done (st, p', e) -> st <> SFPLAYER_SUCCESS ->
  p' = set_mBitrate (mBitrate p') (set_mDurationUsec (mDurationUsec p') p)
  /\ mDataSource p' = mDataSource p
  /\ mAudioSource p' = mAudioSource p
  /\ (forall x, In x e -> x = LogE)
  /\ (mDataLocatorType p = kDataLocatorNone ->
      st = MEDIA_ERROR_BASE /\ p' = p /\ e = [LogE]).
Proof.
  unfold onPrepare. unfold bind at 1. unfold gets at 1. intros H NS.
  destruct (mDataLocatorType p) eqn:T.
  - unfold_m. done_inv. repeat split; try congruence.
    + destruct p'; reflexivity.
    + intros x [I | []]. congruence.
  - destruct (onPrepare_with pe (openUri pe) p) as [[[st1 q] e1] |] eqn:W;
      [| discriminate H].
    done_inv. cbn [app].
    destruct (onPrepare_with_failure _ _ _ _ _ _ W NS) as (A & B & C & D).
    repeat split; auto; try congruence.
  - destruct (initCheck pe =? 0).
    + destruct (onPrepare_with pe (Some (openFd pe)) p) as [[[st1 q] e1] |] eqn:W;
        [| discriminate H].
      done_inv. cbn [app].
      destruct (onPrepare_with_failure _ _ _ _ _ _ W NS) as (A & B & C & D).
      repeat split; auto; try congruence.
    + unfold_m. done_inv. repeat split; try congruence.
      * destruct p'; reflexivity.
      * intros x [].
Qed.

Lemma onPrepare_with_success pe src p p' e :
  onPrepare_with pe src p = Done (SFPLAYER_SUCCESS, p', e) ->
  exists ds,
    src = Some ds
    /\ mDataSource p' = Some ds /\ mAudioSource p' = true
    /\ kKeyChannelCount pe = Some (mNumChannels p')
    /\ kKeySampleRate pe = Some (mSampleRateHz p')
    /\ match getSize ds, kKeyDuration pe with
       | Some size, Some durationUs =>
           durationUs <> 0 /\ mDurationUsec p' = durationUs
           /\ mBitrate p' = Z.quot (Int.to_int64 (size * 8000000)) durationUs
       | _, _ => mBitrate p' = -1 /\ mDurationUsec p' = -1
       end
    /\ (wantsPrefetching ds = false ->
        mCacheStatus p' = kStatusHigh /\ mCacheFill p' = 1000
        /\ mLastNotifiedCacheFill p' = 1000
        /\ e = [statusNotif kStatusHigh; fillNotif 1000])
    /\ (wantsPrefetching ds = true ->
        e = [] /\ mCacheStatus p' = mCacheStatus p
        /\ mCacheFill p' = mCacheFill p
        /\ mLastNotifiedCacheFill p' = mLastNotifiedCacheFill p)
    /\ sameTransport p p' /\ mDecodeBuffer p' = mDecodeBuffer p
    /\ clientSettings p' = clientSettings p
    /\ mTimeDelta p' = mTimeDelta p.
Proof.
  unfold onPrepare_with. unfold_m. intros H.
  repeat (split_match; done_inv; try discriminate; pure_tracks).
  all: eexists; split; [reflexivity |]; psimpl.
  all: repeat match goal with
         | E : getSize _ = _ |- _ => rewrite E
         | E : kKeyDuration _ = _ |- _ => rewrite E
         | E : (_ =? 0) = false |- _ => apply Z.eqb_neq in E
         | E : negb _ = true |- _ => apply negb_true_iff in E
         | E : negb _ = false |- _ => apply negb_false_iff in E
         end.
  all: repeat split; try reflexivity; try assumption; try congruence.
Qed.

(** X14. A prepare that returns success has attached the source and the
    decoder and stored the channel count and the sample rate of the track.
    Bitrate and duration are known together or not at all: with a size and
    a duration the bitrate is [size * 8000000 / duration], otherwise both
    are -1.  On a source that does not ask for prefetching it sets the
    status to High and the fill level to 1000 and posts both notifications;
    on one that does it posts nothing and leaves the cache fields.  It
    never touches the flags, the seek target, the last decoded position,
    the time delta, the pending buffer or what the client has set. *)
Theorem prepare_success (pe : PrepareEnv) (p : SfPlayer) p' e :
  onPrepare pe p = Done (SFPLAYER_SUCCESS, p', e) ->
  exists ds,
    ((mDataLocatorType p = kDataLocatorUri /\ openUri pe = Some ds)
     \/ (mDataLocatorType p = kDataLocatorFd /\ initCheck pe = 0
         /\ openFd pe = ds))
    /\ mDataSource p' = Some ds /\ mAudioSource p' = true
    /\ kKeyChannelCount pe = Some (mNumChannels p')
    /\ kKeySampleRate pe = Some (mSampleRateHz p')
    /\ match getSize ds, kKeyDuration pe with
       | Some size, Some durationUs =>
           durationUs <> 0 /\ mDurationUsec p' = durationUs
           /\ mBitrate p' = Z.quot (Int.to_int64 (size * 8000000)) durationUs
       | _, _ => mBitrate p' = -1 /\ mDurationUsec p' = -1
       end
    /\ (wantsPrefetching ds = false ->
        mCacheStatus p' = kStatusHigh /\ mCacheFill p' = 1000
        /\ mLastNotifiedCacheFill p' = 1000
        /\ e = [statusNotif kStatusHigh; fillNotif 1000])
    /\ (wantsPrefetching ds = true ->
        e = [] /\ mCacheStatus p' = mCacheStatus p
        /\ mCacheFill p' = mCacheFill p
        /\ mLastNotifiedCacheFill p' = mLastNotifiedCacheFill p)
    /\ sameTransport p p' /\ mDecodeBuffer p' = mDecodeBuffer p
    /\ clientSettings p' = clientSettings p
    /\ mTimeDelta p' = mTimeDelta p.
Proof.
  unfold onPrepare. unfold bind at 1. unfold gets at 1. intros H.
  destruct (mDataLocatorType p) eqn:T.
  - unfold_m. discriminate H.
  - destruct (onPrepare_with pe (openUri pe) p) as [[[st1 q] e1] |] eqn:W;
      [| discriminate H].
    done_inv. cbn [app].
    destruct (onPrepare_with_success _ _ _ _ _ W) as (ds & S & R).
    exists ds. split; [left; auto | exact R].
  - destruct (Z.eqb_spec (initCheck pe) 0) as [Z0 | Z0].
    + destruct (onPrepare_with pe (Some (openFd pe)) p) as [[[st1 q] e1] |] eqn:W;
        [| discriminate H].
      done_inv. cbn [app].
      destruct (onPrepare_with_success _ _ _ _ _ W) as (ds & S & R).
      exists ds. injection S as S. split; [right; auto | exact R].
    + unfold_m. discriminate H.
Qed.

Lemma prepare_success_witness :
  exists p' e,
    onPrepare prepare_30s
      (set_mDataLocatorType kDataLocatorUri (set_mAudioTrack true SfPlayer_new))
    = Done (SFPLAYER_SUCCESS, p', e)
    /\ mDataSource p' = Some http_480k
    /\ mBitrate p' = 128000 /\ mDurationUsec p' = 30000000
    /\ e = [].
Proof.
  assert (R : exists p' e,
             onPrepare prepare_30s
               (set_mDataLocatorType kDataLocatorUri
                  (set_mAudioTrack true SfPlayer_new))
             = Done (SFPLAYER_SUCCESS, p', e))
    by (do 2 eexists; vm_compute; reflexivity).
  destruct R as (p' & e & R). exists p', e. split; [exact R |].
  destruct (prepare_success _ _ _ _ R)
    as (ds & [[_ O] | [F _]] & S & _ & _ & _ & M & _ & W & _).
  - injection O as <-. split; [exact S |].
    cbn in M. destruct M as (_ & D & B). split; [exact B |]. split; [exact D |].
    exact (proj1 (W eq_refl)).
  - discriminate F.
Defined.

Lemma prepare_failure_witness :
  onPrepare prepare_30s SfPlayer_new
  = Done (MEDIA_ERROR_BASE, SfPlayer_new, [LogE]).
Proof.
  assert (R : exists st p' e, onPrepare prepare_30s SfPlayer_new = Done (st, p', e)
                              /\ st <> SFPLAYER_SUCCESS).
  { do 3 eexists. split; [vm_compute; reflexivity | discriminate]. }
  destruct R as (st & p' & e & R & N).
  destruct (prepare_failure _ _ _ _ _ R N) as (_ & _ & _ & _ & K).
  destruct (K eq_refl) as (-> & -> & ->). exact R.
Defined.

(** X15. A track of duration 0 on a source of known size stops prepare
    with a division by zero: the bitrate is computed before anything is
    attached. *)
Theorem prepare_zero_duration (pe : PrepareEnv) (p : SfPlayer) ds tracks size raw :
  mDataLocatorType p = kDataLocatorUri -> openUri pe = Some ds ->
  extractor pe = Some tracks ->
  findAudioTrack tracks p = Done (Some raw, p, []) ->
  getSize ds = Some size -> kKeyDuration pe = Some 0 ->
  onPrepare pe p = Crash DivideByZero.
Proof.
  intros T O X F S D. unfold onPrepare, onPrepare_with. unfold_m.
  rewrite T, O, X, F, S, D. reflexivity.
Qed.

Lemma prepare_zero_duration_witness :
  onPrepare
    {| openUri := Some http_480k;
       openFd := file_source;
       initCheck := 0;
       extractor := Some [ {| hasMime := true; isAudio := true; isRaw := false |} ];
       kKeyDuration := Some 0;
       omxConnect := true;
       omxCodec := true;
       sourceStart := true;
       kKeyChannelCount := Some 2;
       kKeySampleRate := Some 44100 |}
    (set_mDataLocatorType kDataLocatorUri SfPlayer_new)
  = Crash DivideByZero.
Proof.
  eapply prepare_zero_duration; reflexivity.
Defined.

(** ** The data locator *)

Lemma resetDataLocator_result p :
  resetDataLocator p
  = Done (tt,
          set_mDataLocatorType kDataLocatorNone
            (match mDataLocatorType p, loc_uri (mDataLocator p) with
             | kDataLocatorUri, Some _ =>
                 set_mDataLocator
                   {| loc_uri := None; loc_fdi := loc_fdi (mDataLocator p) |} p
             | _, _ => p
             end),
          heldUri p).
Proof.
  unfold resetDataLocator, heldUri. unfold_m.
  destruct (mDataLocatorType p); try reflexivity.
  destruct (loc_uri (mDataLocator p)); reflexivity.
Qed.

(** X16. [resetDataLocator] always ends with the locator type None, as its
    comment promises; it frees the URI string exactly when the locator held
    one, and a second reset frees nothing and changes nothing.  Nothing but
    the locator is written. *)
Theorem resetDataLocator_post (p : SfPlayer) :
  exists p',
    resetDataLocator p = Done (tt, p', heldUri p)
    /\ mDataLocatorType p' = kDataLocatorNone
    /\ heldUri p' = []
    /\ resetDataLocator p' = Done (tt, p', [])
    /\ p' = set_mDataLocatorType kDataLocatorNone
              (set_mDataLocator (mDataLocator p') p)
    /\ (forall s, In (Free s) (heldUri p) <->
                  mDataLocatorType p = kDataLocatorUri
                  /\ loc_uri (mDataLocator p) = Some s).
Proof.
  eexists. split; [apply resetDataLocator_result |].
  split; [reflexivity |]. split; [reflexivity |]. split; [| split].
  - rewrite resetDataLocator_result. reflexivity.
  - destruct (mDataLocatorType p); try reflexivity.
    destruct (loc_uri (mDataLocator p)); reflexivity.
  - intros s. unfold heldUri.
    destruct (mDataLocatorType p);
      try (split; [intros [] | intros [K _]; discriminate K]).
    destruct (loc_uri (mDataLocator p)) as [s0 |].
    + split.
      * intros [K | []]. injection K as ->. auto.
      * intros [_ K]. injection K as ->. left. reflexivity.
    + split; [intros [] | intros [_ K]; discriminate K].
Qed.

(** X17. Setting a URI when one is held replaces it without leak or double
    free: after [setDataSource(u1)] and then [setDataSource(u2)], both
    allocations succeeding, the second call frees exactly the copy of [u1]
    and the locator holds [u2]; setting a descriptor instead frees the copy
    of [u1] as well. *)
Theorem setDataSource_replaces (cfg : Config) (u1 u2 : string) (p : SfPlayer) :
  exists p1 e1 p2 e2,
    setDataSource_uri u1 true p = Done (tt, p1, e1)
    /\ e1 = heldUri p
    /\ mDataLocatorType p1 = kDataLocatorUri
    /\ loc_uri (mDataLocator p1) = Some u1
    /\ setDataSource_uri u2 true p1 = Done (tt, p2, e2)
    /\ e2 = [Free u1]
    /\ mDataLocatorType p2 = kDataLocatorUri
    /\ loc_uri (mDataLocator p2) = Some u2
    /\ (forall fd offset length fstat,
          exists p3 e3,
            setDataSource_fd cfg fd offset length fstat p1 = Done (tt, p3, e3)
            /\ In (Free u1) e3
            /\ mDataLocatorType p3 <> kDataLocatorUri).
Proof.
  assert (S : forall u q,
             setDataSource_uri u true q
             = Done (tt,
                     set_mDataLocatorType kDataLocatorUri
                       (set_mDataLocator
                          {| loc_uri := Some u; loc_fdi := loc_fdi (mDataLocator q) |} q),
                     heldUri q)).
  { intros u q. unfold setDataSource_uri. unfold bind at 1.
    rewrite resetDataLocator_result. unfold_m. cbn [negb]. psimpl.
    rewrite app_nil_r. f_equal. f_equal. f_equal.
    destruct (mDataLocatorType q); try reflexivity.
    destruct (loc_uri (mDataLocator q)); reflexivity. }
  do 4 eexists. split; [apply S |]. split; [reflexivity |].
  split; [reflexivity |]. split; [reflexivity |].
  split; [apply S |]. split; [reflexivity |].
  split; [reflexivity |]. split; [reflexivity |].
  intros fd offset length fstat.
  unfold setDataSource_fd. unfold bind at 1.
  rewrite resetDataLocator_result. unfold set_fdi. unfold_m. psimpl.
  destruct fstat as [sz |].
  - destruct (sz <=? offset).
    + do 2 eexists. split; [reflexivity |]. split; [left; reflexivity |].
      psimpl. discriminate.
    + do 2 eexists. split; [reflexivity |]. split; [left; reflexivity |].
      psimpl. discriminate.
  - do 2 eexists. split; [reflexivity |]. split; [left; reflexivity |].
    psimpl. discriminate.
Qed.

Lemma resetDataLocator_post_witness :
  exists p',
    resetDataLocator player_30s
    = Done (tt, p', [Free "http://host/a.mp3"%string])
    /\ mDataLocatorType p' = kDataLocatorNone
    /\ resetDataLocator p' = Done (tt, p', []).
Proof.
  destruct (resetDataLocator_post player_30s) as (p' & R & T & _ & I & _).
  exists p'. auto.
Defined.

(** X18. [setDataSource(fd, offset, length)] records the descriptor and
    then validates: when [fstat] fails or the offset is not inside the file
    it logs and leaves the locator type None.  Otherwise the locator
    becomes the descriptor range at that offset; a length other than the
    sentinel is cut to what the file holds from the offset on, so the range
    never runs past the end of the file, while the sentinel stores the full
    file size whatever the offset. *)
Theorem setDataSource_fd_range (cfg : Config) (fd offset length : Z)
    (fstat : option Z) (p : SfPlayer) :
  exists p' e,
    setDataSource_fd cfg fd offset length fstat p = Done (tt, p', e)
    /\ fdi_fd (loc_fdi (mDataLocator p')) = fd
    /\ p' = set_mDataLocatorType (mDataLocatorType p')
              (set_mDataLocator (mDataLocator p') p)
    /\ (fstat = None \/ (exists sz, fstat = Some sz /\ sz <= offset) ->
        mDataLocatorType p' = kDataLocatorNone /\ e = heldUri p ++ [LogE])
    /\ (forall sz, fstat = Some sz -> offset < sz ->
          mDataLocatorType p' = kDataLocatorFd
          /\ e = heldUri p
          /\ fdi_offset (loc_fdi (mDataLocator p')) = offset
          /\ (length = SFPLAYER_FD_FIND_FILE_SIZE cfg ->
              fdi_length (loc_fdi (mDataLocator p')) = sz)
          /\ (length <> SFPLAYER_FD_FIND_FILE_SIZE cfg ->
              int64 (offset + length) -> int64 (sz - offset) ->
              fdi_length (loc_fdi (mDataLocator p')) = Z.min length (sz - offset)
              /\ offset + fdi_length (loc_fdi (mDataLocator p')) <= sz)).
Proof.
  unfold setDataSource_fd. unfold bind at 1.
  rewrite resetDataLocator_result. unfold set_fdi. unfold_m. psimpl.
  destruct fstat as [sz |].
  - destruct (Z.leb_spec sz offset) as [Le | Gt].
    + do 2 eexists. split; [reflexivity |]. psimpl.
      split; [reflexivity |]. split.
      { destruct (mDataLocatorType p); try reflexivity.
        destruct (loc_uri (mDataLocator p)); reflexivity. }
      split.
      * intros _. split; [reflexivity |]. rewrite ?app_nil_r. reflexivity.
      * intros sz' E L. injection E as <-. lia.
    + do 2 eexists. split; [reflexivity |]. psimpl.
      split; [reflexivity |]. split.
      { destruct (mDataLocatorType p); try reflexivity.
        destruct (loc_uri (mDataLocator p)); reflexivity. }
      split.
      * intros [K | (sz' & K & L)]; [discriminate K |].
        injection K as <-. lia.
      * intros sz' E L. injection E as <-.
        split; [reflexivity |]. split; [rewrite ?app_nil_r; reflexivity |].
        split; [reflexivity |]. split.
        -- intros S. rewrite S, Z.eqb_refl. reflexivity.
        -- intros NS R1 R2.
           assert (N : (SFPLAYER_FD_FIND_FILE_SIZE cfg =? length) = false)
             by (apply Z.eqb_neq; congruence).
           rewrite N, !to_int64_small by assumption.
           destruct (Z.ltb_spec sz (offset + length)); lia.
  - do 2 eexists. split; [reflexivity |]. psimpl.
    split; [reflexivity |]. split.
    { destruct (mDataLocatorType p); try reflexivity.
      destruct (loc_uri (mDataLocator p)); reflexivity. }
    split.
    + intros _. split; [reflexivity |]. rewrite ?app_nil_r. reflexivity.
    + intros sz' E. discriminate E.
Qed.

Lemma setDataSource_fd_range_witness :
  exists p' e,
    setDataSource_fd spec_config 7 1000 5000 (Some 4096) SfPlayer_new
    = Done (tt, p', e)
    /\ mDataLocatorType p' = kDataLocatorFd
    /\ fdi_length (loc_fdi (mDataLocator p')) = Z.min 5000 (4096 - 1000)
    /\ 1000 + fdi_length (loc_fdi (mDataLocator p')) <= 4096.
Proof.
  destruct (setDataSource_fd_range spec_config 7 1000 5000 (Some 4096) SfPlayer_new)
    as (p' & e & R & _ & _ & _ & S).
  exists p', e. split; [exact R |].
  destruct (S 4096 eq_refl) as (T & _ & _ & _ & L); [lia |].
  split; [exact T |]. apply L.
  - discriminate.
  - unfold int64. cbn. lia.
  - unfold int64. cbn. lia.
Defined.

(** ** Notifications reach the listener *)

(** X19. Every message the estimator posts is a notification with no
    delay; delivered to a player with a registered listener it makes one
    call of the listener, with the user context registered and the payload
    of the message, which is the code of the status just stored or the fill
    level just stored.  Without a listener the delivery does nothing. *)
Theorem notification_dispatch (cfg : Config) (env env' : Env) (p : SfPlayer)
    r p' e m d (q : SfPlayer) :
  getCacheRemaining cfg env p = Done (r, p', e) -> In (Post m d) e ->
  exists k v,
    m = kWhatNotif k v /\ d = 0
    /\ ((k = EVENT_PREFETCHSTATUSCHANGE
         /\ v = Int.to_int32 (CacheStatus_to_Z (mCacheStatus p')))
        \/ (k = EVENT_PREFETCHFILLLEVELUPDATE
            /\ v = Int.to_int32 (mCacheFill p')))
    /\ onMessageReceived cfg env' m q
       = Done (tt, q,
               if mNotifyClient q then [NotifyClient k v (mNotifyUser q)] else []).
Proof.
  intros G I.
  destruct (getCacheRemaining_effects _ _ _ _ _ _ G) as (E & _ & S & _).
  assert (D : forall k v,
             onMessageReceived cfg env' (kWhatNotif k v) q
             = Done (tt, q,
                     if mNotifyClient q then [NotifyClient k v (mNotifyUser q)]
                     else [])).
  { intros k v. cbn [onMessageReceived]. unfold onNotify. unfold_m.
    destruct (mNotifyClient q); reflexivity. }
  rewrite E in I. apply in_app_or in I. destruct I as [I | I].
  - destruct (CacheStatus_eqb _ _); [destruct I |].
    destruct I as [I | []]. unfold statusNotif in I. injection I as <- <-.
    do 2 eexists. split; [reflexivity |]. split; [reflexivity |].
    split; [left; rewrite S; auto | apply D].
  - destruct (_ <? _); [| destruct I].
    destruct I as [I | []]. unfold fillNotif in I. injection I as <- <-.
    do 2 eexists. split; [reflexivity |]. split; [reflexivity |].
    split; [right; auto | apply D].
Qed.

Lemma notification_dispatch_witness :
  exists p' e,
    getCacheRemaining spec_config (probe 4000 false) player_30s
    = Done ((kStatusLow, false), p', e)
    /\ onMessageReceived spec_config (probe 0 false)
         (kWhatNotif EVENT_PREFETCHSTATUSCHANGE 1)
         (set_mNotifyUser 42 (set_mNotifyClient true player_30s))
       = Done (tt, set_mNotifyUser 42 (set_mNotifyClient true player_30s),
               [NotifyClient EVENT_PREFETCHSTATUSCHANGE 1 42]).
Proof.
  assert (G : exists p' e,
             getCacheRemaining spec_config (probe 4000 false) player_30s
             = Done ((kStatusLow, false), p', e)
             /\ In (Post (kWhatNotif EVENT_PREFETCHSTATUSCHANGE 1) 0) e).
  { do 2 eexists. split; [vm_compute; reflexivity | find_in]. }
  destruct G as (p' & e & G & I). exists p', e. split; [exact G |].
  destruct (notification_dispatch spec_config (probe 4000 false) (probe 0 false)
              player_30s _ _ _ _ _
              (set_mNotifyUser 42 (set_mNotifyClient true player_30s)) G I)
    as (k & v & M & _ & _ & D).
  injection M as <- <-. exact D.
Defined.

(** ** The paths of the handlers *)

(** The three ways a decode step ends: nothing beyond the estimation, a
    re-buffering, or the read part. *)
Lemma onDecode_paths cfg env p r p' e :
  onDecode cfg env p = Done (r, p', e) ->
  exists p1 e1,
    p1 = set_mCacheStatus (mCacheStatus p1)
           (set_mCacheFill (mCacheFill p1)
              (set_mLastNotifiedCacheFill (mLastNotifiedCacheFill p1) p))
    /\ Forall isNotif e1
    /\ ((p' = p1 /\ e = e1)
        \/ (p' = set_mFlags (Int.set_bits (mFlags p) kFlagBuffering) p1
            /\ e = e1 ++ (if playing p then [TrackPause] else [])
                      ++ [Post kWhatCheckCache 100000]
            /\ playing p && negb (mAudioTrack p) = false)
        \/ (exists e2, readFrame env p1 = Done (tt, p', e2) /\ e = e1 ++ e2)).
Proof.
  intros H.
  destruct (mDataSource p) as [ds |] eqn:Hs.
  2:{ rewrite onDecode_unfold in H. unfold_m. rewrite Hs in H. discriminate H. }
  destruct (wantsPrefetching ds) eqn:Hw.
  - destruct (getCacheRemaining cfg env p) as [[[r1 p1] e1] |] eqn:G.
    2:{ rewrite onDecode_unfold in H. unfold_m. rewrite Hs, Hw, G in H.
        discriminate H. }
    destruct (getCacheRemaining_frame _ _ _ _ _ _ G) as (F & N & _).
    exists p1, e1. split; [exact F |]. split; [exact N |].
    destruct (CacheStatus_eqb (fst r1) kStatusLow && negb (snd r1)) eqn:L.
    + rewrite (onDecode_rebuffer _ _ _ _ _ _ _ Hs Hw G L) in H.
      destruct (playing p && negb (mAudioTrack p)); [discriminate H |].
      done_inv. right. left. auto.
    + rewrite (onDecode_prefetch _ _ _ _ _ _ _ Hs Hw G L) in H.
      destruct (active p).
      * destruct (readFrame env p1) as [[[u q] e2] |] eqn:R; [| discriminate H].
        done_inv. repeat match goal with x : unit |- _ => destruct x end.
        right. right. eauto.
      * done_inv. left. auto.
  - rewrite (onDecode_no_prefetch _ _ _ _ Hs Hw) in H.
    exists p, []. split; [apply cache_fields_same |]. split; [constructor |].
    destruct (active p).
    + destruct r. right. right. exists e. auto.
    + done_inv. left. auto.
Qed.

(** What the read part writes: the buffer slot, the last decoded position,
    the Seeking flag and the time delta, and nothing else. *)
Lemma readFrame_frame env p u p' e :
  readFrame env p = Done (u, p', e) ->
  mAudioSource p = true
  /\ p' = set_mTimeDelta (mTimeDelta p')
            (set_mFlags (mFlags p')
               (set_mLastDecodedPositionUs (mLastDecodedPositionUs p')
                  (set_mDecodeBuffer (mDecodeBuffer p') p)))
  /\ (forall k, Z.land kFlagSeeking k = 0 ->
                Int.test (mFlags p') k = Int.test (mFlags p) k)
  /\ (forall x, In x e -> isSinkCall x = false).
Proof.
  intros H. destruct (mAudioSource p) eqn:Hs.
  2:{ rewrite (readFrame_no_source _ _ Hs) in H. discriminate H. }
  split; [reflexivity |].
  assert (NoSink : forall x, In x (pendingRelease p) -> isSinkCall x = false).
  { intros x I. unfold pendingRelease in I.
    destruct (mDecodeBuffer p); [| destruct I].
    destruct I as [<- | []]. reflexivity. }
  destruct (env_read env) as [b | | err] eqn:Hr.
  - destruct (meta_kKeyTime b) as [t |] eqn:Ht.
    + rewrite (readFrame_ok _ _ _ _ Hs Hr Ht) in H. done_inv. psimpl.
      split; [reflexivity |]. split.
      * intros k D. apply test_clear_other, D.
      * intros x I. apply in_app_or in I. destruct I as [I | [<- | [<- | []]]];
          [apply NoSink, I | reflexivity | reflexivity].
    + rewrite (readFrame_no_timestamp _ _ _ Hs Hr Ht) in H. discriminate H.
  - rewrite (readFrame_eos _ _ Hs Hr) in H. done_inv. psimpl.
    split; [destruct p; reflexivity |]. split; [reflexivity |].
    intros x I. apply in_app_or in I. destruct I as [I | [<- | I]];
      [apply NoSink, I | reflexivity |].
    destruct (playing p); [| destruct I]. destruct I as [<- | []]. reflexivity.
  - rewrite (readFrame_error _ _ _ Hs Hr) in H. done_inv. psimpl.
    split; [destruct p; reflexivity |]. split; [reflexivity |].
    intros x I. apply in_app_or in I. destruct I as [I | [<- | [<- | []]]];
      [apply NoSink, I | reflexivity | reflexivity].
Qed.

Lemma notifs_no_sink (l : list Effect) x :
  Forall isNotif l -> In x l -> isSinkCall x = false.
Proof.
  intros F I. rewrite Forall_forall in F. apply F in I.
  destruct x; try contradiction. reflexivity.
Qed.

Lemma onPrepare_with_frame pe src p st p' e :
  onPrepare_with pe src p = Done (st, p', e) ->
  clientSettings p' = clientSettings p
  /\ mDecodeBuffer p' = mDecodeBuffer p
  /\ (mAudioSource p = true -> mAudioSource p' = true)
  /\ (forall x, In x e -> isSinkCall x = false).
Proof.
  unfold onPrepare_with. unfold_m. intros H.
  repeat (split_match; done_inv; try discriminate; pure_tracks).
  all: repeat split; try reflexivity; try (intros; assumption);
    try (intros x I; cbn in I;
         repeat match goal with
           | K : _ \/ _ |- _ => destruct K
           | K : False |- _ => destruct K
           end; subst; reflexivity).
Qed.

Lemma onPrepare_frame pe p st p' e :
  onPrepare pe p = Done (st, p', e) ->
  clientSettings p' = clientSettings p
  /\ mDecodeBuffer p' = mDecodeBuffer p
  /\ (mAudioSource p = true -> mAudioSource p' = true)
  /\ (forall x, In x e -> isSinkCall x = false).
Proof.
  unfold onPrepare. unfold bind at 1. unfold gets at 1. intros H.
  destruct (mDataLocatorType p).
  - unfold_m. done_inv. repeat split; auto.
    intros x [<- | []]. reflexivity.
  - destruct (onPrepare_with pe (openUri pe) p) as [[[st1 q] e1] |] eqn:W;
      [| discriminate H].
    done_inv. exact (onPrepare_with_frame _ _ _ _ _ _ W).
  - destruct (initCheck pe =? 0).
    + destruct (onPrepare_with pe (Some (openFd pe)) p) as [[[st1 q] e1] |] eqn:W;
        [| discriminate H].
      done_inv. exact (onPrepare_with_frame _ _ _ _ _ _ W).
    + unfold_m. done_inv. repeat split; auto. intros x [].
Qed.

(** ** What the handlers leave alone *)

Lemma step_clientSettings cfg env msg p r p' e :
  onMessageReceived cfg env msg p = Done (r, p', e) ->
  clientSettings p' = clientSettings p.
Proof.
  intros H. destruct msg as [| | | | key value | | | target];
    cbn [onMessageReceived] in H.
  - unfold bind, ret in H.
    destruct (onPrepare (env_prepare env) p) as [[[st q] e1] |] eqn:P;
      [| discriminate H].
    done_inv. exact (proj1 (onPrepare_frame _ _ _ _ _ P)).
  - destruct (onDecode_paths _ _ _ _ _ _ H)
      as (p1 & e1 & F & _ & [[-> _] | [(-> & _) | (e2 & R & _)]]).
    + rewrite F. reflexivity.
    + rewrite F. reflexivity.
    + destruct (readFrame_frame _ _ _ _ _ R) as (_ & F2 & _).
      rewrite F2, F. reflexivity.
  - unfold onRender in H. unfold_m.
    repeat (split_match; done_inv; try discriminate); reflexivity.
  - destruct (getCacheRemaining cfg env p) as [[[r1 p1] e1] |] eqn:G.
    2:{ unfold onCheckCache, bind in H. rewrite G in H. discriminate H. }
    rewrite (onCheckCache_cases _ _ _ _ _ _ G) in H.
    destruct (getCacheRemaining_frame _ _ _ _ _ _ G) as (F & _).
    destruct (bufferingDone p r1).
    + destruct (playing p && negb (mAudioTrack p)); [discriminate H |].
      done_inv. rewrite F. reflexivity.
    + done_inv. rewrite F. reflexivity.
  - apply onNotify_pure in H. subst. reflexivity.
  - unfold onPlay in H. unfold_m. done_inv. reflexivity.
  - unfold onPause in H. unfold_m. done_inv. reflexivity.
  - unfold onSeek in H. unfold_m. destruct target; done_inv. reflexivity.
Qed.

(** X20. No handler writes what the client sets: across any run of
    deliveries the sink binding, the listener and its user context, the
    data locator and the fill notification threshold are what they were. *)
Theorem handlers_keep_client_settings (cfg : Config) (ms : list (Msg * Env))
    (p : SfPlayer) r p' e :
  deliver cfg ms p = Done (r, p', e) ->
  mAudioTrack p' = mAudioTrack p
  /\ mNotifyClient p' = mNotifyClient p /\ mNotifyUser p' = mNotifyUser p
  /\ mDataLocatorType p' = mDataLocatorType p
  /\ mDataLocator p' = mDataLocator p
  /\ mCacheFillNotifThreshold p' = mCacheFillNotifThreshold p.
Proof.
  intros H.
  assert (C : clientSettings p' = clientSettings p).
  { revert p r p' e H. induction ms as [| [msg env] ms IH]; intros p r p' e H.
    - cbn in H. unfold ret in H. done_inv. reflexivity.
    - apply deliver_cons in H. destruct H as (r1 & p1 & e1 & e2 & S & D & _).
      rewrite (IH _ _ _ _ D). exact (step_clientSettings _ _ _ _ _ _ _ S). }
  unfold clientSettings in C. injection C as C1 C2 C3 C4 C5 C6. repeat split; assumption.
Qed.

Lemma handlers_keep_client_settings_witness :
  exists p' e,
    deliver spec_config
      [(kWhatPlay, probe 0 false);
       (kWhatDecode, reads (ReadOK frame_2500ms) 10 20);
       (kWhatRender, probe 0 false)] player_file
    = Done (tt, p', e)
    /\ mAudioTrack p' = true
    /\ mCacheFillNotifThreshold p' = 100.
Proof.
  assert (D : exists p' e,
             deliver spec_config
               [(kWhatPlay, probe 0 false);
                (kWhatDecode, reads (ReadOK frame_2500ms) 10 20);
                (kWhatRender, probe 0 false)] player_file
             = Done (tt, p', e))
    by (do 2 eexists; vm_compute; reflexivity).
  destruct D as (p' & e & D). exists p', e. split; [exact D |].
  destruct (handlers_keep_client_settings _ _ _ _ _ _ D) as (T & _ & _ & _ & _ & C).
  split; [exact T | exact C].
Defined.

(** ** The sink and the decode buffer across the handlers *)

(** X21. A handler calls the sink only while Playing is set and a sink is
    bound, and only in three places: the decode step pauses it when it
    re-buffers, the cache check starts it when the buffering ends, and the
    render step writes the pending buffer to it.  No handler stops it. *)
Theorem handlers_sink_calls (cfg : Config) (env : Env) (msg : Msg)
    (p : SfPlayer) r p' e x :
  onMessageReceived cfg env msg p = Done (r, p', e) ->
  In x e -> isSinkCall x = true ->
  playing p = true /\ mAudioTrack p = true
  /\ ((msg = kWhatDecode /\ x = TrackPause
       /\ buffering p' = true)
      \/ (msg = kWhatCheckCache /\ x = TrackStart
          /\ buffering p' = false)
      \/ (msg = kWhatRender
          /\ exists b, mDecodeBuffer p = Some b
                       /\ x = TrackWrite (data b + range_offset b) (range_length b))).
Proof.
  intros H I S. destruct msg as [| | | | key value | | | target];
    cbn [onMessageReceived] in H.
  - exfalso. unfold bind, ret in H.
    destruct (onPrepare (env_prepare env) p) as [[[st q] e1] |] eqn:P;
      [| discriminate H].
    done_inv. rewrite app_nil_r in I.
    destruct (onPrepare_frame _ _ _ _ _ P) as (_ & _ & _ & N).
    rewrite (N _ I) in S. discriminate S.
  - destruct (onDecode_paths _ _ _ _ _ _ H)
      as (p1 & e1 & F & N & [[-> ->] | [(-> & -> & T) | (e2 & R & ->)]]).
    + exfalso. rewrite (notifs_no_sink _ _ N I) in S. discriminate S.
    + apply in_app_or in I. destruct I as [I | I].
      { exfalso. rewrite (notifs_no_sink _ _ N I) in S. discriminate S. }
      apply in_app_or in I. destruct I as [I | [<- | []]]; [| discriminate S].
      destruct (playing p) eqn:P; [| destruct I]. destruct I as [<- | []].
      cbn [andb] in T. apply negb_false_iff in T.
      split; [reflexivity |]. split; [exact T |]. left.
      split; [reflexivity |]. split; [reflexivity |].
      unfold buffering. psimpl. apply test_set_same. discriminate.
    + exfalso. apply in_app_or in I. destruct I as [I | I].
      * rewrite (notifs_no_sink _ _ N I) in S. discriminate S.
      * destruct (readFrame_frame _ _ _ _ _ R) as (_ & _ & _ & K).
        rewrite (K _ I) in S. discriminate S.
  - unfold onRender, audioTrack in H. unfold_m.
    destruct (mDecodeBuffer p) as [b |] eqn:B.
    2:{ done_inv. destruct I. }
    fold (playing p) in H. destruct (playing p) eqn:P.
    + destruct (mAudioTrack p) eqn:T; [| discriminate H]. done_inv.
      cbn in I. destruct I as [<- | [<- | [<- | []]]]; try discriminate S.
      split; [reflexivity |]. split; [reflexivity |]. right. right.
      split; [reflexivity |]. exists b. auto.
    + exfalso. done_inv. cbn in I. destruct I as [<- | []]. discriminate S.
  - destruct (getCacheRemaining cfg env p) as [[[r1 p1] e1] |] eqn:G.
    2:{ unfold onCheckCache, bind in H. rewrite G in H. discriminate H. }
    rewrite (onCheckCache_cases _ _ _ _ _ _ G) in H.
    destruct (getCacheRemaining_frame _ _ _ _ _ _ G) as (F & N & _).
    destruct (bufferingDone p r1).
    + destruct (playing p && negb (mAudioTrack p)) eqn:T; [discriminate H |].
      done_inv. apply in_app_or in I. destruct I as [I | I].
      { exfalso. rewrite (notifs_no_sink _ _ N I) in S. discriminate S. }
      destruct (playing p) eqn:P; [| destruct I].
      destruct I as [<- | [<- | []]]; [| discriminate S].
      cbn [andb] in T. apply negb_false_iff in T.
      split; [reflexivity |]. split; [exact T |]. right. left.
      split; [reflexivity |]. split; [reflexivity |].
      unfold buffering. psimpl.
      rewrite test_clear_other by reflexivity. apply test_clear_same.
    + exfalso. done_inv. apply in_app_or in I. destruct I as [I | [<- | []]].
      * rewrite (notifs_no_sink _ _ N I) in S. discriminate S.
      * discriminate S.
  - exfalso. unfold onNotify in H. unfold_m.
    repeat (split_match; done_inv; try discriminate);
      cbn in I;
      repeat match goal with
        | K : _ \/ _ |- _ => destruct K
        | K : False |- _ => destruct K
        end; subst; discriminate S.
  - exfalso. unfold onPlay in H. unfold_m. done_inv. destruct I.
  - exfalso. unfold onPause in H. unfold_m. done_inv. destruct I.
  - exfalso. unfold onSeek in H. unfold_m. destruct target; done_inv. destruct I.
Qed.

Lemma handlers_sink_calls_witness :
  onMessageReceived spec_config (probe 0 false) kWhatRender player_30s_pending
  = Done (tt, set_mDecodeBuffer None player_30s_pending,
          [TrackWrite 65536 4096; Post kWhatDecode 0; Release frame_2500ms])
  /\ playing player_30s_pending = true.
Proof.
  assert (R : onMessageReceived spec_config (probe 0 false) kWhatRender
                player_30s_pending
              = Done (tt, set_mDecodeBuffer None player_30s_pending,
                      [TrackWrite 65536 4096; Post kWhatDecode 0;
                       Release frame_2500ms]))
    by (vm_compute; reflexivity).
  split; [exact R |].
  exact (proj1 (handlers_sink_calls _ _ _ _ _ _ _ (TrackWrite 65536 4096) R
                  (or_introl eq_refl) eq_refl)).
Defined.

(** ** Teardown *)

Lemma step_bufferOwned cfg env msg p r p' e :
  onMessageReceived cfg env msg p = Done (r, p', e) ->
  bufferOwned p -> bufferOwned p'.
Proof.
  unfold bufferOwned.
  intros H O. destruct msg as [| | | | key value | | | target];
    cbn [onMessageReceived] in H.
  - unfold bind, ret in H.
    destruct (onPrepare (env_prepare env) p) as [[[st q] e1] |] eqn:P;
      [| discriminate H].
    done_inv. destruct (onPrepare_frame _ _ _ _ _ P) as (_ & B & A & _).
    rewrite B. destruct O as [O | O]; [left; exact O | right; exact (A O)].
  - destruct (onDecode_paths _ _ _ _ _ _ H)
      as (p1 & e1 & F & _ & [[-> _] | [(-> & _) | (e2 & R & _)]]).
    + rewrite F. exact O.
    + rewrite F. exact O.
    + destruct (readFrame_frame _ _ _ _ _ R) as (A & F2 & _).
      right. rewrite F2. exact A.
  - unfold onRender in H. unfold_m.
    repeat (split_match; done_inv; try discriminate);
      psimpl; solve [left; reflexivity | exact O | left; assumption].
  - destruct (getCacheRemaining cfg env p) as [[[r1 p1] e1] |] eqn:G.
    2:{ unfold onCheckCache, bind in H. rewrite G in H. discriminate H. }
    rewrite (onCheckCache_cases _ _ _ _ _ _ G) in H.
    destruct (getCacheRemaining_frame _ _ _ _ _ _ G) as (F & _).
    destruct (bufferingDone p r1).
    + destruct (playing p && negb (mAudioTrack p)); [discriminate H |].
      done_inv. rewrite F. exact O.
    + done_inv. rewrite F. exact O.
  - apply onNotify_pure in H. subst. exact O.
  - unfold onPlay in H. unfold_m. done_inv. exact O.
  - unfold onPause in H. unfold_m. done_inv. exact O.
  - unfold onSeek in H. unfold_m. destruct target; done_inv. exact O.
Qed.

Lemma deliver_bufferOwned cfg ms p r p' e :
  deliver cfg ms p = Done (r, p', e) -> bufferOwned p -> bufferOwned p'.
Proof.
  revert p r p' e. induction ms as [| [msg env] ms IH]; intros p r p' e H O.
  - cbn in H. unfold ret in H. done_inv. exact O.
  - apply deliver_cons in H. destruct H as (r1 & p1 & e1 & e2 & S & D & _).
    exact (IH _ _ _ _ D (step_bufferOwned _ _ _ _ _ _ _ S O)).
Qed.

(** X22. The decode buffer slot is only ever filled by a player that has
    an audio source, and every run of deliveries keeps it so.  Hence the
    destructor, which releases the slot only under [mAudioSource != NULL],
    leaks no buffer: after the run it stops and clears the looper, releases
    the pending buffer if there is one, then stops the source, then frees
    the URI the locator holds, and leaves the slot empty and the locator
    type at none. *)
Theorem teardown_after_run (cfg : Config) (ms : list (Msg * Env))
    (p : SfPlayer) r p' e :
  bufferOwned p ->
  deliver cfg ms p = Done (r, p', e) ->
  bufferOwned p'
  /\ exists q,
      SfPlayer_delete p'
      = Done (q, [LooperStop; LooperUnregisterHandler; LooperClear]
                   ++ map PlayerEffect (pendingRelease p')
                   ++ (if mAudioSource p' then [AudioSourceStop] else [])
                   ++ map PlayerEffect (heldUri p'))
      /\ mDecodeBuffer q = None
      /\ mDataLocatorType q = kDataLocatorNone.
Proof.
  intros O D. pose proof (deliver_bufferOwned _ _ _ _ _ _ D O) as O'.
  split; [exact O' |].
  unfold SfPlayer_delete, pendingRelease.
  destruct (mAudioSource p') eqn:A.
  - destruct (mDecodeBuffer p') as [b |] eqn:B.
    + rewrite resetDataLocator_result. eexists. split; [reflexivity |].
      split; [| reflexivity]. psimpl.
      destruct (mDataLocatorType _); [reflexivity | | reflexivity].
      destruct (loc_uri _); reflexivity.
    + rewrite resetDataLocator_result. eexists. split; [reflexivity |].
      split; [| reflexivity]. psimpl.
      destruct (mDataLocatorType _); [exact B | | exact B].
      destruct (loc_uri _); exact B.
  - destruct O' as [B | B]; [| rewrite A in B; discriminate B].
    rewrite B. rewrite resetDataLocator_result. eexists.
    split; [reflexivity |]. split; [| reflexivity]. psimpl.
    destruct (mDataLocatorType _); [exact B | | exact B].
    destruct (loc_uri _); exact B.
Qed.

Lemma teardown_after_run_witness :
  exists q,
    SfPlayer_delete
      (set_mTimeDelta (10 - 2500000)
         (set_mLastDecodedPositionUs 2500000
            (set_mDecodeBuffer (Some frame_2500ms) player_file_playing)))
    = Done (q, [LooperStop; LooperUnregisterHandler; LooperClear;
                PlayerEffect (Release frame_2500ms); AudioSourceStop;
                PlayerEffect (Free "http://host/a.mp3"%string)])
    /\ mDecodeBuffer q = None.
Proof.
  assert (D : deliver spec_config
                [(kWhatDecode, reads (ReadOK frame_2500ms) 10 20)]
                player_file_playing
              = Done (tt,
                      set_mTimeDelta (10 - 2500000)
                        (set_mLastDecodedPositionUs 2500000
                           (set_mDecodeBuffer (Some frame_2500ms)
                              player_file_playing)),
                      [SourceRead None; Post kWhatRender (-10)]))
    by (vm_compute; reflexivity).
  assert (O : bufferOwned player_file_playing) by (left; reflexivity).
  destruct (teardown_after_run _ _ _ _ _ _ O D) as (_ & q & E & B & _).
  exists q. split; [exact E | exact B].
Defined.

(** ** The playback loop *)

Lemma onRender_no_read p r p' e o :
  onRender p = Done (r, p', e) -> ~ In (SourceRead o) e.
Proof.
  unfold onRender, audioTrack. unfold_m. intros H I.
  repeat (split_match; done_inv; try discriminate);
    cbn in I;
    repeat match goal with
      | K : _ \/ _ |- _ => destruct K
      | K : False |- _ => destruct K
      end; discriminate.
Qed.

(** The player a decode step that reads a frame leaves. *)
Lemma onDecode_frame_state cfg env p r p' e o b t :
  onDecode cfg env p = Done (r, p', e) ->
  In (SourceRead o) e -> env_read env = ReadOK b -> meta_kKeyTime b = Some t ->
  mDecodeBuffer p' = Some b
  /\ mFlags p' = Int.clear_bits (mFlags p) kFlagSeeking
  /\ mAudioTrack p' = mAudioTrack p.
Proof.
  intros H Hin Hr Ht.
  destruct (onDecode_reads_cache _ _ _ _ _ _ _ H Hin)
    as (p1 & e1 & e2 & E & C & R & F & S).
  assert (S1 : mAudioSource p1 = true) by (rewrite F; exact S).
  rewrite (readFrame_ok _ _ _ _ S1 Hr Ht) in R. cbv zeta in R. done_inv.
  psimpl. rewrite F. repeat split.
Qed.

(** X23. The playback loop.  When a decode step reads a frame and the
    render it posts is delivered next, then, if the player is playing, the
    frame is written to the sink once, from its range offset and over its
    range length, the next decode is posted and the frame is released;
    if the player is not playing the frame is released unwritten and no
    decode is posted.  Either way the slot is empty afterwards and Seeking
    is clear. *)
Theorem playback_cycle (cfg : Config) (envD envR : Env) (p : SfPlayer)
    r q e o b t :
  deliver cfg [(kWhatDecode, envD); (kWhatRender, envR)] p = Done (r, q, e) ->
  In (SourceRead o) e -> env_read envD = ReadOK b -> meta_kKeyTime b = Some t ->
  mDecodeBuffer q = None
  /\ mLastDecodedPositionUs q = t
  /\ playing q = playing p /\ seeking q = false
  /\ (playing p = true -> mAudioTrack p = true)
  /\ exists e0 d,
      Forall (fun x => isCacheNotif x = true) e0
      /\ e = e0 ++ pendingRelease p
                ++ [SourceRead o; Post kWhatRender d]
                ++ (if playing p
                    then [TrackWrite (data b + range_offset b) (range_length b);
                          Post kWhatDecode 0]
                    else [])
                ++ [Release b].
Proof.
  intros H I Hr Ht.
  apply deliver_cons in H. destruct H as (r1 & p1 & e1 & e' & HD & H & ->).
  apply deliver_cons in H. destruct H as (r2 & p2 & e2 & e3 & HR & H & ->).
  cbn in H. unfold ret in H. done_inv. rewrite app_nil_r in *.
  cbn [onMessageReceived] in HD, HR.
  assert (I1 : In (SourceRead o) e1).
  { apply in_app_or in I. destruct I as [I | I]; [exact I |].
    exfalso. exact (onRender_no_read _ _ _ _ _ HR I). }
  destruct (onDecode_frame_state _ _ _ _ _ _ _ _ _ HD I1 Hr Ht) as (B & Fl & T).
  destruct (onDecode_frame _ _ _ _ _ _ _ _ _ HD I1 Hr Ht) as (e0 & L & _ & C & E).
  assert (P1 : playing p1 = playing p).
  { unfold playing. rewrite Fl. apply test_clear_other. reflexivity. }
  assert (S1 : seeking p1 = false).
  { unfold seeking. rewrite Fl. apply test_clear_same. }
  unfold onRender, audioTrack in HR. unfold_m. rewrite B in HR.
  fold (playing p1) in HR. rewrite P1 in HR.
  destruct (playing p) eqn:P.
  - rewrite T in HR.
    destruct (mAudioTrack p) eqn:A; [| discriminate HR]. done_inv. psimpl.
    repeat split; try assumption.
    exists e0. eexists. split; [exact C |].
    rewrite <- !app_assoc. reflexivity.
  - done_inv. psimpl. repeat split; try assumption; try discriminate.
    exists e0. eexists. split; [exact C |].
    rewrite <- !app_assoc. reflexivity.
Qed.

Lemma playback_cycle_witness :
  exists q,
    deliver spec_config
      [(kWhatDecode, reads (ReadOK frame_2500ms) 10 20);
       (kWhatRender, probe 0 false)] player_file_playing
    = Done (tt, q,
            [SourceRead None; Post kWhatRender (-10);
             TrackWrite 65536 4096; Post kWhatDecode 0; Release frame_2500ms])
    /\ mDecodeBuffer q = None
    /\ mLastDecodedPositionUs q = 2500000.
Proof.
  assert (D : exists q,
             deliver spec_config
               [(kWhatDecode, reads (ReadOK frame_2500ms) 10 20);
                (kWhatRender, probe 0 false)] player_file_playing
             = Done (tt, q,
                     [SourceRead None; Post kWhatRender (-10);
                      TrackWrite 65536 4096; Post kWhatDecode 0;
                      Release frame_2500ms]))
    by (eexists; vm_compute; reflexivity).
  destruct D as (q & D). exists q. split; [exact D |].
  destruct (playback_cycle _ _ _ _ _ _ _ None frame_2500ms 2500000 D
              (or_introl eq_refl) eq_refl eq_refl) as (B & L & _).
  split; [exact B | exact L].
Defined.

(** ** Position and transport *)

(** X24. The two position getters agree: as long as the seek target in
    microseconds fits 64 bits, [getPositionMsec()] is [getPositionUsec()]
    divided by 1000 and cut to 32 bits; and outside a seek the position in
    microseconds is never negative. *)
Theorem position_getters_agree (p : SfPlayer) :
  int64 (mSeekTimeMsec p * 1000) ->
  getPositionMsec p = Int.to_uint32 (Z.quot (getPositionUsec p) 1000)
  /\ 0 <= getPositionMsec p < 2 ^ 32
  /\ (seeking p = false -> 0 <= getPositionUsec p).
Proof.
  intros R. unfold getPositionMsec, getPositionUsec, seeking.
  assert (U : forall x, 0 <= Int.to_uint32 x < 2 ^ 32).
  { intros x. unfold Int.to_uint32, Int.wrap_unsigned.
    apply Z.mod_pos_bound. reflexivity. }
  destruct (Int.test (mFlags p) kFlagSeeking).
  - rewrite (to_int64_small _ R). rewrite Z.quot_mul by discriminate.
    split; [reflexivity |]. split; [apply U | discriminate].
  - destruct (mLastDecodedPositionUs p <? 0) eqn:N.
    + split; [reflexivity |]. split; [| intros _; lia].
      change (2 ^ 32) with 4294967296. lia.
    + apply Z.ltb_ge in N. split; [reflexivity |]. split; [apply U |].
      intros _. exact N.
Qed.

Lemma position_getters_agree_witness :
  getPositionMsec player_30s_seek_29s
  = Int.to_uint32 (Z.quot (getPositionUsec player_30s_seek_29s) 1000).
Proof.
  apply (position_getters_agree player_30s_seek_29s).
  unfold int64. vm_compute. split; [discriminate | reflexivity].
Defined.

Lemma clear_set_same (f k : Z) :
  Int.clear_bits (Int.set_bits f k) k = Int.clear_bits f k.
Proof.
  unfold Int.clear_bits, Int.set_bits. apply Z.bits_inj'. intros n Hn.
  rewrite !Z.land_spec, Z.lor_spec, Z.lnot_spec by exact Hn.
  destruct (Z.testbit f n), (Z.testbit k n); reflexivity.
Qed.

Lemma set_clear_same (f k : Z) :
  Int.set_bits (Int.clear_bits f k) k = Int.set_bits f k.
Proof.
  unfold Int.clear_bits, Int.set_bits. apply Z.bits_inj'. intros n Hn.
  rewrite !Z.lor_spec, Z.land_spec, Z.lnot_spec by exact Hn.
  destruct (Z.testbit f n), (Z.testbit k n); reflexivity.
Qed.

(** X25. With a sink bound, [play()] starts the sink and then posts a play
    and a decode message, [pause()] posts a pause message and then pauses
    the sink, and neither writes the player; without a sink [play()] does
    nothing at all.  The play and pause messages emit nothing and write the
    Playing bit only, the later of the two deciding: play then pause leaves
    the flags with Playing clear, pause then play with Playing set, all
    other bits and fields as they were. *)
Theorem play_pause_roundtrip (cfg : Config) (env1 env2 : Env) (p : SfPlayer) :
  (mAudioTrack p = true ->
     play p = Done (tt, p, [TrackStart; Post kWhatPlay 0; Post kWhatDecode 0])
     /\ pause p = Done (tt, p, [Post kWhatPause 0; TrackPause]))
  /\ (mAudioTrack p = false -> play p = Done (tt, p, []))
  /\ deliver cfg [(kWhatPlay, env1); (kWhatPause, env2)] p
     = Done (tt, set_mFlags (Int.clear_bits (mFlags p) kFlagPlaying) p, [])
  /\ deliver cfg [(kWhatPause, env1); (kWhatPlay, env2)] p
     = Done (tt, set_mFlags (Int.set_bits (mFlags p) kFlagPlaying) p, []).
Proof.
  split; [| split; [| split]].
  - intros T. unfold play, pause, audioTrack. unfold_m. rewrite T.
    cbn [negb]. rewrite T. split; reflexivity.
  - intros T. unfold play. unfold_m. rewrite T. reflexivity.
  - cbn. unfold onPlay, onPause. unfold_m. psimpl.
    rewrite clear_set_same. destruct p; reflexivity.
  - cbn. unfold onPlay, onPause. unfold_m. psimpl.
    rewrite set_clear_same. destruct p; reflexivity.
Qed.
